(** * ASPIRE-Python: adaptive support, EMAN coordinate source, block-diagonal
      covariance algebra

    A shallow embedding of

    - [src/aspire/denoising/adaptive_support.py]  ([adaptive_support]),
    - [src/aspire/source/eman.py]                 ([EmanSource]),
    - the block-diagonal algebra and the Cov2D estimators that
      [examples/denoise_covar2d.py] calls,
    - the paths and the box-file text the constructor of [EmanSource] reads,
      with the writer of box files of [tests/test_coordinate_source.py].

    Python integers are [Z]; Python lists and numpy arrays are [seq]; raised
    exceptions are the [Raise] branch of [result]. *)

From Stdlib Require Import ZArith Lia String Ascii DecimalString DecimalPos DecimalNat.
From HB Require Import structures.
From mathcomp Require Import boot order algebra.

Set Implicit Arguments.
Unset Strict Implicit.
Unset Printing Implicit Defensive.

Import Order.TTheory GRing.Theory Num.Theory.

Delimit Scope Z_scope with PZ.

(** Decidable equality, for [==] and [uniq], on the Standard Library's
    strings, characters and integers. *)
HB.instance Definition _ := hasDecEq.Build string String.eqb_spec.
HB.instance Definition _ := hasDecEq.Build ascii Ascii.eqb_spec.
HB.instance Definition _ := hasDecEq.Build Z Z.eqb_spec.

(* ===================================================================== *)
(** * Python layer: exceptions, indexing, numpy helpers                   *)
(* ===================================================================== *)

Module Py.

(** The exception classes the modelled code raises. *)
Inductive exn :=
  RuntimeError | ValueError | IndexError | KeyError | FileNotFoundError.

Inductive result (A : Type) : Type :=
| Ok (a : A)
| Raise (e : exn).

Arguments Ok {A} a.
Arguments Raise {A} e.

Definition bind {A B : Type} (r : result A) (k : A -> result B) : result B :=
  match r with
  | Ok a => k a
  | Raise e => Raise e
  end.

(** [l[i]] for a Python list or a one-dimensional numpy array: a negative
    index counts from the end, anything outside raises IndexError. *)
Definition getitem {A : Type} (l : seq A) (i : Z) : result A :=
  let n := Z.of_nat (size l) in
  let j := if (i <? 0)%PZ then (i + n)%PZ else i in
  if (0 <=? j)%PZ && (j <? n)%PZ
  then (if ohead (drop (Z.to_nat j) l) is Some x then Ok x else Raise IndexError)
  else Raise IndexError.

(** [np.argmax] of a boolean array: the first index holding the maximum,
    that is the first [True], or 0 when every entry is [False]; an empty
    array raises ValueError. *)
Definition np_argmax (mask : seq bool) : result nat :=
  if mask is [::] then Raise ValueError
  else Ok (if has id mask then find id mask else 0).

(** [k or -1]: Python's [or] returns its right operand when the left one is
    falsy, and the integer 0 is falsy. *)
Definition or_minus1 (k : nat) : Z :=
  if k == 0 then (-1)%PZ else Z.of_nat k.

(** [np.arange(0, n, dtype=int)]. *)
Definition arange (n : nat) : seq Z := [seq Z.of_nat i | i <- iota 0 n].

(** [np.linspace(start, stop, num)] with the default [endpoint=True], in
    exact rational arithmetic: [arange(num) * step + start], where
    [step = (stop - start) / (num - 1)], and the last entry overwritten by
    [stop] when [num > 1]. *)
Definition linspace (start stop : rat) (num : nat) : seq rat :=
  let div := num.-1 in
  let delta := (stop - start)%R in
  let y := [seq (i%:R : rat) | i <- iota 0 num] in
  let y := if 0 < div then [seq (v * (delta / div%:R))%R | v <- y]
           else [seq (v * delta)%R | v <- y] in
  let y := [seq (v + start)%R | v <- y] in
  if 1 < num then rcons (take num.-1 y) stop else y.

(** [l[i] = v] on a Python list. *)
Definition setitem {A : Type} (l : seq A) (i : Z) (v : A) : result (seq A) :=
  let n := Z.of_nat (size l) in
  let j := if (i <? 0)%PZ then (i + n)%PZ else i in
  if (0 <=? j)%PZ && (j <? n)%PZ then Ok (set_nth v l (Z.to_nat j) v)
  else Raise IndexError.

(** A fallible function run over a list from left to right; the first
    exception ends the loop. *)
Fixpoint mapM {A B : Type} (f : A -> result B) (l : seq A) : result (seq B) :=
  if l is x :: l' then
    bind (f x) (fun y => bind (mapM f l') (fun ys => Ok (y :: ys)))
  else Ok [::].

(** One bound of the slice [a[i:j]] on a sequence of length [n]: a negative
    bound counts from the end, and the result is clipped to [0, n]. *)
Definition slice_bound (n : nat) (i : Z) : nat :=
  let i' := if (i <? 0)%PZ then (i + Z.of_nat n)%PZ else i in
  if (i' <? 0)%PZ then 0
  else if (Z.of_nat n <? i')%PZ then n else Z.to_nat i'.

Definition slice {A : Type} (l : seq A) (i j : Z) : seq A :=
  let lo := slice_bound (size l) i in
  let hi := slice_bound (size l) j in
  take (hi - lo) (drop lo l).

(** [collections.OrderedDict] with string keys, as the list of its items in
    insertion order: [d[k] = v] replaces the value of a key already present
    where it stands, and appends a new key. *)
Definition dict (V : Type) : Type := seq (string * V).

Fixpoint dict_set {V : Type} (d : dict V) (k : string) (v : V) : dict V :=
  if d is kv :: d' then
    if kv.1 == k then (k, v) :: d' else kv :: dict_set d' k v
  else [:: (k, v)].

Fixpoint dict_get {V : Type} (d : dict V) (k : string) : result V :=
  if d is kv :: d' then
    if kv.1 == k then Ok kv.2 else dict_get d' k
  else Raise KeyError.

Definition keys {V : Type} (d : dict V) : seq string := [seq kv.1 | kv <- d].

(** [s.split(sep)] for a one-character separator. *)
Fixpoint split (sep : ascii) (s : string) : seq string :=
  match s with
  | EmptyString => [:: EmptyString]
  | String c s' =>
      if c == sep then EmptyString :: split sep s'
      else match split sep s' with
           | h :: t => String c h :: t
           | [::] => [:: String c EmptyString]
           end
  end.

(** [c in s] for a character and a string. *)
Fixpoint contains (c : ascii) (s : string) : bool :=
  if s is String c' s' then (c' == c) || contains c s' else false.

Fixpoint zeros (n : nat) : string :=
  if n is n'.+1 then String "0"%char (zeros n') else EmptyString.

(** [f"{i:06d}"] for [i >= 0]: the decimal digits of [i], padded on the left
    with zeros to six characters. *)
Definition format_06d (i : nat) : string :=
  let digits := NilEmpty.string_of_uint (Nat.to_uint i) in
  String.append (zeros (6 - String.length digits)) digits.

(** [int(s)] on a non-empty string of decimal digits; anything else raises
    ValueError. (Signs, blanks and underscores, which Python also accepts,
    do not occur in what [format_06d] writes.) *)
Definition py_int (s : string) : result Z :=
  match s, NilEmpty.uint_of_string s with
  | String _ _, Some d => Ok (Z.of_nat (Nat.of_uint d))
  | _, _ => Raise ValueError
  end.

End Py.

Notation "x <- e ;; k" := (Py.bind e (fun x => k))
  (at level 61, e at next level, right associativity).

Arguments Py.getitem : simpl never.
Arguments Py.setitem : simpl never.
Arguments Py.slice_bound : simpl never.

(* ===================================================================== *)
(** * adaptive_support.py                                                 *)
(* ===================================================================== *)

Module AdaptiveSupport.
Import Py.

(** numpy's float64 and the operations the function applies to it are kept
    abstract: every statement below holds for any rounding behaviour,
    including NaN and infinities produced by a division by zero. *)
Class Float64 (flt : Type) : Type := {
  fadd : flt -> flt -> flt;
  fsub : flt -> flt -> flt;
  fmul : flt -> flt -> flt;
  fdiv : flt -> flt -> flt;
  (** [np.clip(x, 0, a_max=None)] on one entry. *)
  fclip0 : flt -> flt;
  (** [x > y] on floats. *)
  fgt : flt -> flt -> bool;
  (** Conversion of an exact number (a Python number, an integer radius, an
      entry of [linspace]) to float64. *)
  of_rat : rat -> flt
}.

(** The image source and what the function asks of its collaborators, each
    of which may raise: [img_src.L]; the white-noise variance estimate
    ([WhiteNoiseEstimator(img_src).estimate()]); and, from
    [img_src.images(0, img_src.n)] and its centred FFT, the mean of the
    variance map and of the power spectrum over the ring [i <= r < i + 1]
    (the pair [(np.mean(variance_map[mask]), np.mean(pspec[mask]))]). *)
Class ImageSourceAPI (flt : Type) (ImageSource : Type) : Type := {
  src_L : ImageSource -> nat;
  noise_estimate : ImageSource -> result flt;
  ring_means : ImageSource -> result (nat -> flt * flt)
}.

Section Model.

Context {flt : Type} {F : Float64 flt}.
Context {ImageSource : Type} {S : ImageSourceAPI flt ImageSource}.

(** What a caller may pass as [img_src]. *)
Inductive pyobj :=
| Source (s : ImageSource)
| NotASource.

Definition isinstance_ImageSource (o : pyobj) : bool :=
  if o is Source _ then true else false.

(** [np.cumsum]: running sums, accumulated left to right. *)
Fixpoint cumsum_from (acc : flt) (s : seq flt) : seq flt :=
  if s is x :: s' then let a := fadd acc x in a :: cumsum_from a s' else [::].

Definition cumsum (s : seq flt) : seq flt :=
  if s is x :: s' then x :: cumsum_from x s' else [::].

(** Elementwise product of two arrays of the same length. *)
Definition arr_mul (a b : seq flt) : seq flt :=
  [seq fmul p.1 p.2 | p <- zip a b].

(** Lines 55-68: the radial profile over [N] rings, noise variance
    subtracted, clipped below at 0. *)
Definition radial_profile (ring : nat -> flt) (noise_var : flt) (N : nat) : seq flt :=
  [seq fclip0 (fsub (ring i) noise_var) | i <- iota 0 N].

(** [a /= a[-1]]. *)
Definition normalize_by_last (a : seq flt) : result (seq flt) :=
  l <- getitem a (-1)%PZ ;; Ok [seq fdiv x l | x <- a].

(** Line 71: the range of Fourier limits, and line 73: of real limits. *)
Definition c_range (N : nat) : seq rat := linspace 0%R (1 / 2%:R)%R N.
Definition R_range (N : nat) : seq Z := arange N.

(** Lines 37-81: the estimation, ending in the two normalised cumulative
    energies [(cum_pspec, cum_var)]. *)
Definition cumulative_energies (s : ImageSource) : result (seq flt * seq flt) :=
  let L := src_L s in
  let N := L %/ 2 in
  noise_var <- noise_estimate s ;;
  ring <- ring_means s ;;
  let radial_var := radial_profile (fun i => (ring i).1) noise_var N in
  let radial_pspec := radial_profile (fun i => (ring i).2) noise_var N in
  let c := c_range N in
  let R := R_range N in
  let cum_pspec := cumsum (arr_mul radial_pspec [seq of_rat x | x <- c]) in
  let cum_var := cumsum (arr_mul radial_var [seq of_rat (Z.to_nat r)%:R | r <- R]) in
  cum_pspec <- normalize_by_last cum_pspec ;;
  cum_var <- normalize_by_last cum_var ;;
  Ok (cum_pspec, cum_var).

(** [cum > energy_threshold], entry by entry. *)
Definition exceeds (cum : seq flt) (energy_threshold : rat) : seq bool :=
  [seq fgt x (of_rat energy_threshold) | x <- cum].

(** [a[np.argmax(cum > energy_threshold) or -1]]. *)
Definition cutoff {A : Type} (a : seq A) (cum : seq flt) (energy_threshold : rat) : result A :=
  k <- np_argmax (exceeds cum energy_threshold) ;;
  getitem a (or_minus1 k).

Definition adaptive_support (img_src : pyobj) (energy_threshold : rat) : result (rat * Z) :=
  match img_src with
  | NotASource => Raise RuntimeError
  | Source s =>
      if (energy_threshold <= 0)%R || (energy_threshold > 1)%R then Raise ValueError
      else
        let N := src_L s %/ 2 in
        e <- cumulative_energies s ;;
        c_limit <- cutoff (c_range N) e.1 energy_threshold ;;
        R_limit <- cutoff (R_range N) e.2 energy_threshold ;;
        Ok (c_limit, R_limit)
  end.

End Model.

(** Concrete collaborators, used to run the function: float64 read as exact
    rationals, a source of resolution [L] whose variance map and power
    spectrum are constant 1 with noise variance 0, and a source whose noise
    estimator raises ValueError. *)
Definition rat_float : Float64 rat :=
  {| fadd := fun x y => (x + y)%R; fsub := fun x y => (x - y)%R;
     fmul := fun x y => (x * y)%R; fdiv := fun x y => (x / y)%R;
     fclip0 := fun x => Order.max 0%R x; fgt := fun x y => (y < x)%R;
     of_rat := id |}.

Definition flat_source : ImageSourceAPI rat nat :=
  {| src_L := id; noise_estimate := fun _ => Ok 0%R;
     ring_means := fun _ => Ok (fun _ => (1%R, 1%R)) |}.

Definition failing_source : ImageSourceAPI rat nat :=
  {| src_L := id; noise_estimate := fun _ => Raise ValueError;
     ring_means := fun _ => Ok (fun _ => (1%R, 1%R)) |}.

End AdaptiveSupport.

(* ===================================================================== *)
(** * Paths and text: os.path, str and int, the reading of a box file     *)
(* ===================================================================== *)

Module OsPath.
Import Py.

(** [os.path] on a POSIX system ([posixpath]), on [str] paths. *)
Definition sep : ascii := "/"%char.

(** [s.startswith(sep)] and [s.endswith(sep)]. *)
Definition startswith_sep (s : string) : bool :=
  if s is String c _ then c == sep else false.

Fixpoint endswith_sep (s : string) : bool :=
  match s with
  | EmptyString => false
  | String c EmptyString => c == sep
  | String _ s' => endswith_sep s'
  end.

Definition isabs (s : string) : bool := startswith_sep s.

(** [os.path.join(a, b)]. *)
Definition join (a b : string) : string :=
  if startswith_sep b then b
  else if (a == EmptyString) || endswith_sep a then String.append a b
  else String.append a (String sep b).

(** [p[:p.rfind(sep) + 1]]: the prefix of [p] up to its last separator. *)
Fixpoint head_of (p : string) : string :=
  match p with
  | EmptyString => EmptyString
  | String c p' => if contains sep p then String c (head_of p') else EmptyString
  end.

(** [head == sep * len(head)]. *)
Fixpoint all_sep (s : string) : bool :=
  if s is String c s' then (c == sep) && all_sep s' else true.

(** [head.rstrip(sep)]. *)
Fixpoint rstrip_sep (s : string) : string :=
  match s with
  | EmptyString => EmptyString
  | String c s' =>
      let r := rstrip_sep s' in
      if (r == EmptyString) && (c == sep) then EmptyString else String c r
  end.

(** [os.path.dirname(p)]. *)
Definition dirname (p : string) : string :=
  let head := head_of p in
  if (head != EmptyString) && ~~ all_sep head then rstrip_sep head else head.

(** [os.path.basename(p)], that is [p[p.rfind(sep) + 1:]]: what follows the
    last separator of [p]. *)
Fixpoint basename (p : string) : string :=
  match p with
  | EmptyString => EmptyString
  | String c p' => if contains sep p then basename p' else p
  end.

End OsPath.

Module Text.
Import Py.

(** Text is a [string] whose characters are the code points below U+0100.
    [c.isspace()] on such a character: the controls 9-13 and 28-31, the
    space, NEL (133) and the no-break space (160). *)
Definition isspace (c : ascii) : bool :=
  let k := nat_of_ascii c in
  [|| (9 <= k) && (k <= 13), (28 <= k) && (k <= 32), k == 133 | k == 160].

(** [s.split()]: the maximal runs of characters that are not whitespace. *)
Fixpoint str_split (s : string) : seq string :=
  match s with
  | EmptyString => [::]
  | String c s' =>
      if isspace c then str_split s'
      else match s' with
           | EmptyString => [:: String c EmptyString]
           | String c' _ =>
               if isspace c' then String c EmptyString :: str_split s'
               else match str_split s' with
                    | tok :: toks => String c tok :: toks
                    | [::] => [:: String c EmptyString]
                    end
           end
  end.

(** Every character of [s] satisfies [P]. *)
Fixpoint all_chars (P : pred ascii) (s : string) : bool :=
  if s is String c s' then P c && all_chars P s' else true.

Definition LF : ascii := "010"%char.
Definition CR : ascii := "013"%char.

(** [f.readlines()] on a file opened in text mode with the default
    [newline=None]: the line ends CR LF and CR are read as LF, and every line
    keeps its LF; a last line without line end is a line too. The argument
    is the file's content. *)
Fixpoint readlines (s : string) : seq string :=
  match s with
  | EmptyString => [::]
  | String c s' =>
      if c == LF then String LF EmptyString :: readlines s'
      else if c == CR then
        match s' with
        | String c' s'' =>
            if c' == LF then String LF EmptyString :: readlines s''
            else String LF EmptyString :: readlines s'
        | EmptyString => [:: String LF EmptyString]
        end
      else match readlines s' with
           | l :: ls => String c l :: ls
           | [::] => [:: String c EmptyString]
           end
  end.

(** [s.strip()], as [int] applies it. *)
Fixpoint lstrip (s : string) : string :=
  match s with
  | String c s' => if isspace c then lstrip s' else s
  | EmptyString => EmptyString
  end.

Fixpoint rstrip (s : string) : string :=
  match s with
  | EmptyString => EmptyString
  | String c s' =>
      let r := rstrip s' in
      if (r == EmptyString) && isspace c then EmptyString else String c r
  end.

Definition isdigit (c : ascii) : bool :=
  (48 <= nat_of_ascii c) && (nat_of_ascii c <= 57).

Definition digit_value (c : ascii) : Z := Z.of_nat (nat_of_ascii c - 48).

(** The digits of a decimal literal, read from left to right; an underscore
    is accepted between two digits only. *)
Fixpoint int_digits (acc : Z) (after_digit : bool) (s : string) : result Z :=
  match s with
  | EmptyString => if after_digit then Ok acc else Raise ValueError
  | String c s' =>
      if isdigit c then int_digits (10 * acc + digit_value c)%PZ true s'
      else if (c == "_"%char) && after_digit then int_digits acc false s'
      else Raise ValueError
  end.

(** [int(s)] on a string: surrounding whitespace is dropped, then an
    optional sign and a decimal literal are read; anything else raises
    ValueError. (No bound on the number of digits, as before Python 3.11.) *)
Definition int (s : string) : result Z :=
  match rstrip (lstrip s) with
  | String "+"%char s' => int_digits 0%PZ false s'
  | String "-"%char s' => z <- int_digits 0%PZ false s' ;; Ok (- z)%PZ
  | s' => int_digits 0%PZ false s'
  end.

(** [str(z)], which is what [f"{z}"] writes for an integer. *)
Definition str (z : Z) : string := NilEmpty.string_of_int (Z.to_int z).

End Text.

Module EmanFiles.
Import Py OsPath Text.

(** eman.py, lines 39-45: the folder against which the entries of the STAR
    file are resolved, and the resolved entries of one column. *)
Definition resolve_data_folder (filepath : string) (data_folder : option string) : string :=
  match data_folder with
  | Some folder =>
      if ~~ isabs folder then join (dirname filepath) folder else folder
  | None => dirname filepath
  end.

Definition resolve_paths (filepath : string) (data_folder : option string)
    (column : seq string) : seq string :=
  [seq join (resolve_data_folder filepath data_folder) p | p <- column].

(** eman.py, lines 50-54: the coordinate list read from the text of one box
    file, one particle per line; a field that [int] does not read raises
    ValueError. *)
Definition read_coordList (text : string) : result (seq (seq Z)) :=
  mapM (fun line => mapM int (str_split line)) (readlines text).

(** The characters of a box file that is read without error: whitespace
    between the fields, and the digits, signs and underscores of integer
    literals. *)
Definition coordinate_char (c : ascii) : bool :=
  [|| isspace c, isdigit c, c == "+"%char, c == "-"%char | c == "_"%char].

End EmanFiles.
(* ===================================================================== *)
(** * eman.py                                                             *)
(* ===================================================================== *)

Module Eman.
Import Py Text EmanFiles.

(** The values of the dictionary of line 65. *)
Inductive dtype := int8 | int16 | float32 | uint16.

(** The dictionary of line 65. *)
Definition dtypes (mode : Z) : result dtype :=
  if (mode =? 0)%PZ then Ok int8
  else if (mode =? 1)%PZ then Ok int16
  else if (mode =? 2)%PZ then Ok float32
  else if (mode =? 6)%PZ then Ok uint16
  else Raise KeyError.

(** The modes [mrcfile] reads (int8, int16, float32, complex64, uint16,
    float16); on a file of another mode, 3 say, [mrcfile.open] raises
    ValueError. *)
Definition mrcfile_modes : seq Z := [:: 0; 1; 2; 4; 6; 12]%PZ.

Section Model.

(** The values a micrograph's pixels and the pixels of the particle stack
    take, and numpy's conversion of a value to a dtype, which an assignment
    into an array of that dtype applies. *)
Variable pixel : Type.
Variable astype : dtype -> pixel -> pixel.

(** [mrc.data]: a two-dimensional array given by its rows; or an array of
    another rank, given by its shape and by what [im[i] = data[y0:y1, x0:x1]]
    stores in a slot of shape [(L, L)] before the conversion to the stack's
    dtype, [sliced y0 y1 x0 x1 L]: the exception numpy raises when it refuses
    the indexing or the broadcast, the slot's rows otherwise. *)
Inductive mrc_data :=
| Image2D (rows : seq (seq pixel))
| OtherRank (shape : seq nat)
            (sliced : Z -> Z -> Z -> Z -> nat -> result (seq (seq pixel))).

Definition shape_of (d : mrc_data) : seq nat :=
  match d with
  | Image2D rows => [:: size rows; size (head [::] rows)]
  | OtherRank shape _ => shape
  end.

Record mrc_file := MrcFile { mrc_mode : Z; mrc_contents : mrc_data }.

(** What the constructor and [_images] read from disk: the rows of the STAR
    file's first block as pairs of resolved paths ([_mrcFile], [_boxFile]),
    the text of each box file, and each micrograph file with the mode of its
    header. *)
Record filesystem := FileSystem {
  star_rows : seq (string * string);
  box_files : string -> option string;
  mrc_files : string -> option mrc_file
}.

(** The fields of an [EmanSource] that the two methods set and read. *)
Record EmanSource := Build_EmanSource {
  mrc2coords : dict (seq (seq Z));
  X : nat;
  Y : nat;
  original_resolution : Z;
  n : nat;
  src_dtype : dtype
}.

(** [open(path, "r")] on a box file, read as a whole. *)
Definition open_box (fs : filesystem) (path : string) : result string :=
  if box_files fs path is Some text then Ok text else Raise FileNotFoundError.

(** Lines 50-54. *)
Definition read_box (fs : filesystem) (path : string) : result (seq (seq Z)) :=
  text <- open_box fs path ;;
  read_coordList text.

(** [mrcfile.open(path)]. *)
Definition open_mrc (fs : filesystem) (path : string) : result mrc_file :=
  if mrc_files fs path is Some f then
    if mrc_mode f \in mrcfile_modes then Ok f else Raise ValueError
  else Raise FileNotFoundError.

(** Lines 49-55: one entry per STAR row, in row order. *)
Fixpoint populate (fs : filesystem) (rows : seq (string * string))
    (d : dict (seq (seq Z))) : result (dict (seq (seq Z))) :=
  if rows is row :: rows' then
    coordList <- read_box fs row.2 ;;
    populate fs rows' (dict_set d row.1 coordList)
  else Ok d.

(** Lines 101-104, on one coordinate list. *)
Definition force_coords (new_size old_size : Z) (coords : seq Z) : result (seq Z) :=
  coords <- setitem coords 2%PZ new_size ;;
  coords <- setitem coords 3%PZ new_size ;;
  let trim_length := ((old_size - new_size) / 2)%PZ in
  c0 <- getitem coords 0%PZ ;;
  coords <- setitem coords 0%PZ (c0 + trim_length)%PZ ;;
  c1 <- getitem coords 1%PZ ;;
  coords <- setitem coords 1%PZ (c1 + trim_length)%PZ ;;
  Ok coords.

(** Lines 93-104. *)
Definition force_particle_size (d : dict (seq (seq Z))) (new_size old_size : Z)
    : result (dict (seq (seq Z))) :=
  if (old_size <? new_size)%PZ then Raise ValueError
  else mapM (fun kv : string * seq (seq Z) =>
               coordsList <- mapM (force_coords new_size old_size) kv.2 ;;
               Ok (kv.1, coordsList)) d.

(** [EmanSource.__init__]. *)
Definition init (fs : filesystem) (particle_size : Z) : result EmanSource :=
  let mrc_paths := [seq row.1 | row <- star_rows fs] in
  let box_paths := [seq row.2 | row <- star_rows fs] in
  d <- populate fs (star_rows fs) [::] ;;
  let n := sumn [seq size kv.2 | kv <- d] in
  mrc_path0 <- getitem mrc_paths 0%PZ ;;
  mrc <- open_mrc fs mrc_path0 ;;
  dt <- dtypes (mrc_mode mrc) ;;
  let shape := shape_of (mrc_contents mrc) in
  if size shape != 2 then Raise ValueError
  else
    X <- getitem shape 0%PZ ;;
    Y <- getitem shape 1%PZ ;;
    first_box_filepath <- getitem box_paths 0%PZ ;;
    text <- open_box fs first_box_filepath ;;
    first_line <- getitem (readlines text) 0%PZ ;;
    L_field <- getitem (str_split first_line) 2%PZ ;;
    L <- int L_field ;;
    other_field <- getitem (str_split first_line) 3%PZ ;;
    other_side <- int other_field ;;
    if L != other_side then Raise ValueError
    else
      dL <- (if particle_size != 0%PZ
             then d' <- force_particle_size d particle_size L ;; Ok (d', particle_size)
             else Ok (d, L)) ;;
      Ok (Build_EmanSource dL.1 X Y dL.2 n dt).

(** Line 128: [f"{i:06d}@{mrc}"]. *)
Definition particle_id (i : nat) (mrc : string) : string :=
  String.append (format_06d i) (String "@"%char mrc).

(** Lines 124-128. *)
Definition all_particles (d : dict (seq (seq Z))) : seq string :=
  flatten [seq [seq particle_id i kv.1 | i <- iota 0 (size kv.2)] | kv <- d].

(** What [crop_micrograph] returns: of a two-dimensional array, the rows of
    the crop and its number of columns (a crop without rows has columns
    too); of an array of another rank, what assigning the slice to a slot of
    side [L] stores. *)
Inductive cropped :=
| Crop2D (rows : seq (seq pixel)) (ncols : nat)
| CropOther (stored : nat -> result (seq (seq pixel))).

(** The number of columns of [data[:, x : x + size_x]] for an array [width]
    columns wide, read off the slice bounds. *)
Definition crop_columns (width : nat) (coord : seq Z) : nat :=
  let x := nth 0%PZ coord 0 in
  let sx := nth 0%PZ coord 2 in
  slice_bound width (x + sx)%PZ - slice_bound width x.

Definition width_of (data : mrc_data) : nat := nth 0 (shape_of data) 1.

(** Lines 137-141: on a two-dimensional array the rows [y : y + size_y]
    and, of each, the columns [x : x + size_x]. *)
Definition crop_micrograph (data : mrc_data) (coord : seq Z) : result cropped :=
  start_x <- getitem coord 0%PZ ;;
  start_y <- getitem coord 1%PZ ;;
  size_x <- getitem coord 2%PZ ;;
  size_y <- getitem coord 3%PZ ;;
  match data with
  | Image2D rows =>
      Ok (Crop2D [seq slice row start_x (start_x + size_x)%PZ
                 | row <- slice rows start_y (start_y + size_y)%PZ]
                 (crop_columns (width_of data) coord))
  | OtherRank _ sliced =>
      Ok (CropOther (sliced start_y (start_y + size_y)%PZ start_x (start_x + size_x)%PZ))
  end.

(** [a.astype(dt)] on the rows of a two-dimensional array. *)
Definition converted (dt : dtype) (a : seq (seq pixel)) : seq (seq pixel) :=
  [seq [seq astype dt v | v <- row] | row <- a].

(** A two-dimensional array of [ncols] columns broadcast to the shape
    [(L, L)]: one row, or one column, is repeated over the slot, and any
    other shape is refused. *)
Definition broadcast2 (L : nat) (crop : seq (seq pixel)) (ncols : nat)
    : result (seq (seq pixel)) :=
  let nrows := size crop in
  if ((nrows == L) || (nrows == 1)) && ((ncols == L) || (ncols == 1)) then
    let wide := [seq if ncols == L then row else flatten (nseq L row) | row <- crop] in
    Ok (if nrows == L then wide else flatten (nseq L wide))
  else Raise ValueError.

(** [im[i] = crop] for a slot of shape [(L, L)] of a stack of dtype [dt]:
    numpy broadcasts the crop over the slot and converts its values to
    [dt]. *)
Definition assign_slot (dt : dtype) (L : nat) (crop : cropped)
    : result (seq (seq pixel)) :=
  slot <- match crop with
          | Crop2D crop ncols => broadcast2 L crop ncols
          | CropOther stored => stored L
          end ;;
  Ok (converted dt slot).

(** A three-dimensional array, given by its frames, as an array of another
    rank: [data[y0:y1, x0:x1]] takes the frames [y0:y1] and, of each, the
    rows [x0:x1]; the assignment to a slot drops a leading axis of length
    one and broadcasts the frame that is left, and refuses any other number
    of frames. *)
Definition stack3d (frames : seq (seq (seq pixel))) : mrc_data :=
  let depth := size (head [::] (head [::] frames)) in
  OtherRank [:: size frames; size (head [::] frames); depth]
    (fun y0 y1 x0 x1 L =>
       match [seq slice frame x0 x1 | frame <- slice frames y0 y1] with
       | [:: frame] => broadcast2 L frame depth
       | _ => Raise ValueError
       end).

(** Lines 143-150, for one entry of [_particles]; [im] has the dtype of the
    source (lines 132-135). *)
Definition load_particle (fs : filesystem) (src : EmanSource) (L : nat)
    (particle : string) : result (seq (seq pixel)) :=
  let parts := split "@"%char particle in
  num_s <- getitem parts 0%PZ ;;
  num <- py_int num_s ;;
  fp <- getitem parts 1%PZ ;;
  arr <- open_mrc fs fp ;;
  coordsList <- dict_get (mrc2coords src) fp ;;
  coord <- getitem coordsList num ;;
  crop <- crop_micrograph (mrc_contents arr) coord ;;
  assign_slot (src_dtype src) L crop.

(** [np.arange(start, stop)] on integers. *)
Definition arange_from (start stop : Z) : seq Z :=
  [seq (start + Z.of_nat i)%PZ | i <- iota 0 (Z.to_nat (stop - start))].

(** [indices.min()]: refused on an empty array. *)
Definition np_min (a : seq Z) : result Z :=
  if a is x :: a' then Ok (foldl Z.min x a') else Raise ValueError.

(** [EmanSource._images]; [num = None] stands for the default [np.inf]. The
    result is the stack handed to [Image]. *)
Definition images (fs : filesystem) (src : EmanSource)
    (start : Z) (num : option Z) (indices : option (seq Z))
    : result (seq (seq (seq pixel))) :=
  si <- match indices with
        | None =>
            let stop := if num is Some k then Z.min (start + k) (Z.of_nat (n src))
                        else Z.of_nat (n src) in
            Ok (start, arange_from start stop)
        | Some ix => start' <- np_min ix ;; Ok (start', ix)
        end ;;
  let indices := si.2 in
  let all := all_particles (mrc2coords src) in
  _particles <- mapM (getitem all) indices ;;
  if (original_resolution src <? 0)%PZ then Raise ValueError
  else mapM (load_particle fs src (Z.to_nat (original_resolution src))) _particles.

(** The global particle order in the words of the specification: the
    micrographs in the order of the STAR file and, within each micrograph,
    its coordinates in the order of the box file's lines. *)
Definition particles (d : dict (seq (seq Z))) : seq (string * seq Z) :=
  flatten [seq [seq (kv.1, coord) | coord <- kv.2] | kv <- d].

(** [data[y : y + side, x : x + side]] for a box that lies inside the
    micrograph: [side] rows from row [y] on, and of each the [side] entries
    from column [x] on. *)
Definition window (rows : seq (seq pixel)) (x y side : nat) : seq (seq pixel) :=
  [seq take side (drop x row) | row <- take side (drop y rows)].

(** The particle [(mrc, coord)] names a two-dimensional micrograph that
    [mrcfile] opens and a square box of side [L] that lies inside it. *)
Definition box_inside (fs : filesystem) (L : Z) (p : string * seq Z) : bool :=
  match open_mrc fs p.1, p.2 with
  | Ok (MrcFile _ (Image2D rows)), [:: x, y, size_x, size_y & _] =>
      [&& size_x == L, size_y == L,
          (0 <=? x)%PZ, (x + L <=? Z.of_nat (size (head [::] rows)))%PZ,
          (0 <=? y)%PZ, (y + L <=? Z.of_nat (size rows))%PZ
        & all (fun row => size row == size (head [::] rows)) rows]
  | _, _ => false
  end.

(** The crop the specification names for the particle [(mrc, coord)]. *)
Definition crop_of (fs : filesystem) (p : string * seq Z) : seq (seq pixel) :=
  match open_mrc fs p.1, p.2 with
  | Ok (MrcFile _ (Image2D rows)), [:: x, y, size_x, _ & _] =>
      window rows (Z.to_nat x) (Z.to_nat y) (Z.to_nat size_x)
  | _, _ => [::]
  end.

End Model.

(** The rewrite of one coordinate list in the words of the specification:
    the box takes the new size and its lower-left corner moves by
    [(old_size - new_size) // 2] along both axes; what a line holds after
    its fourth field is kept. *)
Definition recentred (old_size new_size : Z) (coords : seq Z) : seq Z :=
  let shift := ((old_size - new_size) / 2)%PZ in
  [:: (nth 0 coords 0 + shift)%PZ, (nth 0 coords 1 + shift)%PZ, new_size, new_size
    & drop 4 coords].

(** "Keeping the crop centered": the box [inner] lies in the box [outer]
    with, along each axis, the margin before it and the margin after it
    equal, or the margin after it larger by one (the rounding of [//]). *)
Definition centred_in (outer inner : seq Z) : bool :=
  let before (k : nat) := (nth 0 inner k - nth 0 outer k)%PZ in
  let after (k : nat) :=
    (nth 0 outer k + nth 0 outer k.+2 - (nth 0 inner k + nth 0 inner k.+2))%PZ in
  all (fun k => [&& (0 <=? before k)%PZ, (before k <=? after k)%PZ
                  & (after k <=? before k + 1)%PZ])
      [:: 0; 1].

End Eman.
(* ===================================================================== *)
(** * Block-diagonal matrices and the Cov2D estimators                    *)
(* ===================================================================== *)

Module BlkDiag.

(** The error taxonomy of the specification (section 7). *)
Inductive error := ShapeMismatchError | SingularBlockError | InvalidParameterError.

Inductive outcome (A : Type) : Type :=
| Done (a : A)
| Fail (e : error).

Arguments Done {A} a.
Arguments Fail {A} e.

Definition and_then {A B : Type} (r : outcome A) (k : A -> outcome B) : outcome B :=
  match r with
  | Done a => k a
  | Fail e => Fail e
  end.

Section Algebra.

Variable R : fieldType.
Local Open Scope ring_scope.

(** Modelled from the spec: the BlockDiagonalMatrix of sections 3 and 4.1
    ([aspire.utils.blk_diag_func], imported by [examples/denoise_covar2d.py],
    is not among the sources). An ordered sequence of square blocks; the
    block-size sequence is read off the blocks. Entries are taken in a field
    [R], with exact arithmetic. *)
Definition block : Type := {n : nat & 'M[R]_n}.
Definition blk_diag : Type := seq block.

Definition mk_block (n : nat) (M : 'M[R]_n) : block := Tagged (fun n => 'M[R]_n) M.

Definition block_sizes (A : blk_diag) : seq nat := [seq tag b | b <- A].

(** Modelled from the spec: an operation applied to two blocks; blocks of
    different sizes do not combine. *)
Definition on_blocks (op : forall n, 'M[R]_n -> 'M[R]_n -> 'M[R]_n) (a b : block)
    : outcome block :=
  match Nat.eq_dec (tag b) (tag a) with
  | left e => Done (mk_block (op (tag a) (tagged a) (castmx (e, e) (tagged b))))
  | right _ => Fail ShapeMismatchError
  end.

(** Modelled from the spec: "each applied blockwise"; "mismatched sequences
    raise a ShapeMismatchError". *)
Fixpoint blockwise (op : forall n, 'M[R]_n -> 'M[R]_n -> 'M[R]_n) (A B : blk_diag)
    : outcome blk_diag :=
  match A, B with
  | [::], [::] => Done [::]
  | a :: A', b :: B' =>
      and_then (on_blocks op a b) (fun c =>
      and_then (blockwise op A' B') (fun C => Done (c :: C)))
  | _, _ => Fail ShapeMismatchError
  end.

(** Modelled from the spec: [add(A, B)] "returns blockwise sum". *)
Definition blk_diag_add : blk_diag -> blk_diag -> outcome blk_diag :=
  blockwise (fun n M N => M + N).

(** Modelled from the spec: [multiply(A, B)] "returns blockwise product". *)
Definition blk_diag_mult : blk_diag -> blk_diag -> outcome blk_diag :=
  blockwise (fun n M N => M *m N).

(** Two sequences with the same block sizes are, block by block, pairs of
    matrices of one size. *)
Inductive aligned : blk_diag -> blk_diag -> Prop :=
| aligned_nil : aligned [::] [::]
| aligned_cons n (M N : 'M[R]_n) A B :
    aligned A B -> aligned (mk_block M :: A) (mk_block N :: B).







(** The arithmetic mean of one row of the coefficient array. *)
Definition arithmetic_mean (row : seq R) : R :=
  (\sum_(x <- row) x) / (size row)%:R.

(** Modelled from the spec: [get_mean(coeffs)] of section 4.2
    ([RotCov2D] is not among the sources). [coeffs] is the array
    [basis_dim x n_images], one row per coefficient; the zero
    angular-frequency block is the first block of the basis's block-size
    sequence. The components of that block are averaged over the images;
    all other components are set to zero. *)
Definition get_mean (sizes : seq nat) (coeffs : seq (seq R)) : seq R :=
  [seq if (k < head 0 sizes)%N then arithmetic_mean (nth [::] coeffs k) else 0
     | k <- iota 0 (size coeffs)].

(** Modelled from the spec: the Wiener gain of [get_cwf_coeffs] (section
    4.3, step 3; [Cov2DCTF] is not among the sources), on one block:
    [Sigma F^T (F Sigma F^T + sigma^2 I)^-1], which needs the inverse to
    exist (SingularBlockError otherwise). *)
Definition wiener_gain (n : nat) (F Sigma : 'M[R]_n) (noise_var : R)
    : outcome 'M[R]_n :=
  let S := F *m Sigma *m F^T + noise_var%:M in
  if S \in unitmx then Done (Sigma *m F^T *m invmx S)
  else Fail SingularBlockError.

(** Modelled from the spec: the estimate of one block of one image,
    [gain (coeff - F m) + m]. *)
Definition cwf_block (n : nat) (F Sigma : 'M[R]_n) (m : 'cV[R]_n) (noise_var : R)
    (coeff : 'cV[R]_n) : outcome 'cV[R]_n :=
  and_then (wiener_gain F Sigma noise_var)
           (fun gain => Done (gain *m (coeff - F *m m) + m)).

(** Block-diagonal matrices and block vectors over one block-size sequence
    [sizes], block [k] having size [nth 0 sizes k]. *)
Definition blk_mx (sizes : seq nat) : Type := forall k : nat, 'M[R]_(nth 0%N sizes k).
Definition blk_vec (sizes : seq nat) : Type := forall k : nat, 'cV[R]_(nth 0%N sizes k).

(** Modelled from the spec: [get_cwf_coeffs(coeffs, filters_fb, group_idx,
    mean, covar, noise_var)]: every image is estimated, block by block, with
    the filter of its group. There are [K] filter groups and every image has
    exactly one (section 3), so a group index is a number below [K]. The
    result is given per image and per block. *)
Definition get_cwf_coeffs (sizes : seq nat) (K : nat)
    (coeffs : seq (blk_vec sizes)) (filters_fb : K.-tuple (blk_mx sizes))
    (group_idx : seq 'I_K) (mean : blk_vec sizes) (covar : blk_mx sizes)
    (noise_var : R) : seq (forall k : nat, outcome 'cV[R]_(nth 0%N sizes k)) :=
  [seq (fun k => cwf_block (tnth filters_fb cg.2 k) (covar k) (mean k)
                           noise_var (cg.1 k))
     | cg <- zip coeffs group_idx].

End Algebra.

Section Norm.

Variable R : realFieldType.
Local Open Scope ring_scope.


End Norm.

End BlkDiag.

Module CoordinateSourceTest.
Import Py Text.

Definition TAB : ascii := "009"%char.

(** tests/test_coordinate_source.py, lines 131-134 and 139-142: one line of
    a box file, [f"{x}\t{y}\t{w}\t{h}\n"]. *)
Definition box_line (x y w h : Z) : string :=
  String.append (str x) (String TAB
    (String.append (str y) (String TAB
      (String.append (str w) (String TAB
        (String.append (str h) (String LF EmptyString))))))).

(** [createTestBoxFiles]: the text written to the box file, and to the box
    file with nonsquare particles, for a list of particle centers. *)
Definition createTestBoxFiles (centers : seq (Z * Z)) : string * string :=
  (foldr String.append EmptyString
     [seq box_line (center.1 - 128) (center.2 - 128) 256 256 | center <- centers],
   foldr String.append EmptyString
     [seq box_line (center.1 - 128) (center.2 - 128) 256 100 | center <- centers]).

End CoordinateSourceTest.

(* --------------------------------------------------------------------- *)
(** ** Demo data                                                          *)
(* --------------------------------------------------------------------- *)

Module Demo.
Import Py Text Eman.

(** The text of a file with the given lines, each ended by LF. *)
Definition unlines (ls : seq string) : string :=
  foldr (fun l text => String.append l (String LF text)) EmptyString ls.

(** Integer pixel values, and their conversion: the integer dtypes wrap
    around; float32 holds the integers below 2^24 in absolute value, and the
    demo data has no others. *)
Definition wrap (bits : Z) (v : Z) : Z :=
  ((v + 2 ^ (bits - 1)) mod 2 ^ bits - 2 ^ (bits - 1))%PZ.

Definition demo_astype (dt : dtype) (v : Z) : Z :=
  match dt with
  | int8 => wrap 8 v
  | int16 => wrap 16 v
  | uint16 => (v mod 2 ^ 16)%PZ
  | float32 => v
  end.

(** A small data set to run the two methods on: two micrographs of 6 x 6
    pixels in mode 2, pixel [(r, c)] holding [10 r + c], the first with the
    box file of text [text], the second with one 4 x 4 box at (1, 1). *)
Definition demo_rows : seq (seq Z) :=
  [seq [seq Z.of_nat (10 * r + c) | c <- iota 0 6] | r <- iota 0 6].

Definition demo_star : seq (string * string) :=
  [:: ("a.mrc"%string, "a.box"%string); ("b.mrc"%string, "b.box"%string)].

Definition demo_boxes (text : string) (path : string) : option string :=
  if path == "a.box"%string then Some text
  else if path == "b.box"%string then Some (unlines [:: "1 1 4 4"%string])
  else None.

Definition demo_mrcs (path : string) : option (mrc_file Z) :=
  if (path == "a.mrc"%string) || (path == "b.mrc"%string)
  then Some (MrcFile 2%PZ (Image2D demo_rows)) else None.

Definition demo_fs (text : string) : filesystem Z :=
  FileSystem demo_star (demo_boxes text) demo_mrcs.

(** The first box file of the demo: 4 x 4 boxes at (0, 0) and at (2, 1). *)
Definition demo_text : string := unlines [:: "0 0 4 4"%string; "2 1 4 4"%string].

Definition demo_lines : seq (seq Z) := [:: [:: 0; 0; 4; 4]%PZ; [:: 2; 1; 4; 4]%PZ].

(** The source [EmanSource(...)] builds from [demo_fs demo_text] with the
    default [particle_size = 0]. *)
Definition demo_source : EmanSource :=
  Build_EmanSource
    [:: ("a.mrc"%string, demo_lines); ("b.mrc"%string, [:: [:: 1; 1; 4; 4]%PZ])]
    6 6 4%PZ 3 float32.

(** A source whose only box, 4 x 4 at (4, 4), leaves the 6 x 6 micrograph. *)
Definition edge_source : EmanSource :=
  Build_EmanSource [:: ("a.mrc"%string, [:: [:: 4; 4; 4; 4]%PZ])] 6 6 4%PZ 1 float32.

(** The 4 x 4 window of [demo_rows] with lower-left corner [(x, y)]. *)
Definition demo_crop (x y : nat) : seq (seq Z) :=
  [seq [seq Z.of_nat (10 * r + c) | c <- iota x 4] | r <- iota y 4].

(** The three particle images of [demo_source], in the global order. *)
Definition demo_stack : seq (seq (seq Z)) :=
  [:: demo_crop 0 0; demo_crop 2 1; demo_crop 1 1].

(** The demo file system with other micrographs: [mrcs path] stands at
    every path. *)
Definition demo_fs_with (mrcs : string -> option (mrc_file Z)) : filesystem Z :=
  FileSystem demo_star (demo_boxes demo_text) mrcs.

(** Only the first micrograph exists. *)
Definition first_only (path : string) : option (mrc_file Z) :=
  if path == "a.mrc"%string then Some (MrcFile 2%PZ (Image2D demo_rows)) else None.

(** A source whose only box, 4 x 4 at (1, 5), starts on the last row of the
    6 x 6 micrograph. *)
Definition bottom_source : EmanSource :=
  Build_EmanSource [:: ("a.mrc"%string, [:: [:: 1; 5; 4; 4]%PZ])] 6 6 4%PZ 1 float32.

(** A first micrograph of mode 0, whose stack is of dtype int8, and a second
    one of mode 1 that holds 311 everywhere: 6 x 6 pixels each. *)
Definition mixed_mrcs (path : string) : option (mrc_file Z) :=
  if path == "a.mrc"%string then Some (MrcFile 0%PZ (Image2D demo_rows))
  else if path == "b.mrc"%string
  then Some (MrcFile 1%PZ (Image2D (nseq 6 (nseq 6 311%PZ))))
  else None.

(** The source the constructor builds from [demo_fs_with mixed_mrcs]. *)
Definition mixed_source : EmanSource :=
  Build_EmanSource
    [:: ("a.mrc"%string, demo_lines); ("b.mrc"%string, [:: [:: 1; 1; 4; 4]%PZ])]
    6 6 4%PZ 3 int8.

(** A stack of two frames of 6 x 6 pixels. *)
Definition demo_volume : mrc_data Z := stack3d [:: demo_rows; demo_rows].

End Demo.
(* ===================================================================== *)
(** * Properties                                                          *)
(* ===================================================================== *)

Section PyFacts.
Import Py.

Lemma getitem_nat (A : Type) (x0 : A) (l : seq A) (k : nat) :
  k < size l -> getitem l (Z.of_nat k) = Ok (nth x0 l k).
Proof.
move=> lt_k; rewrite /getitem.
have /ssrnat.ltP ltk := lt_k.
have -> : (Z.of_nat k <? 0)%PZ = false by apply/Z.ltb_ge; lia.
have -> : (0 <=? Z.of_nat k)%PZ = true by apply/Z.leb_le; lia.
have -> : (Z.of_nat k <? Z.of_nat (size l))%PZ = true by apply/Z.ltb_lt; lia.
rewrite Nat2Z.id /=.
by rewrite (drop_nth x0 lt_k).
Qed.

Lemma getitem_minus1 (A : Type) (x0 : A) (l : seq A) :
  0 < size l -> getitem l (-1)%PZ = Ok (last x0 l).
Proof.
move=> lt0; rewrite /getitem.
have /ssrnat.ltP lt0' := lt0.
have -> : (-1 <? 0)%PZ = true by [].
have -> : (0 <=? -1 + Z.of_nat (size l))%PZ = true by apply/Z.leb_le; lia.
have -> : (-1 + Z.of_nat (size l) <? Z.of_nat (size l))%PZ = true by apply/Z.ltb_lt; lia.
have -> : Z.to_nat (-1 + Z.of_nat (size l)) = (size l).-1.
  by rewrite -subn1 -minusE; lia.
rewrite /= (drop_nth x0) ?prednK //=.
by rewrite nth_last.
Qed.

Lemma getitem_nil (A : Type) (i : Z) : getitem ([::] : seq A) i = Raise IndexError.
Proof.
rewrite /getitem /=; case: (i <? 0)%PZ; last by case: (0 <=? i)%PZ; rewrite ?andbF //; case: (i <? 0)%PZ.
by rewrite Z.add_0_r; case: (0 <=? i)%PZ => //=; case: (i <? 0)%PZ.
Qed.

Lemma getitem_inv (A : Type) (x0 : A) (l : seq A) (i : Z) (x : A) :
  getitem l i = Ok x ->
  exists2 k, k < size l & x = nth x0 l k
    /\ Z.of_nat k = (if (i <? 0)%PZ then i + Z.of_nat (size l) else i)%PZ.
Proof.
rewrite /getitem; set j := if (i <? 0)%PZ then _ else _.
case: ifP => // /andP [/Z.leb_le le0 /Z.ltb_lt ltn].
have lt_k : Z.to_nat j < size l by apply/ssrnat.ltP; lia.
rewrite (drop_nth x0 lt_k) /= => -[<-].
by exists (Z.to_nat j) => //; split=> //; rewrite Z2Nat.id.
Qed.

Lemma setitem_nat (A : Type) (l : seq A) (k : nat) (v : A) :
  k < size l -> setitem l (Z.of_nat k) v = Ok (set_nth v l k v).
Proof.
move=> lt_k; rewrite /setitem.
have /ssrnat.ltP ltk := lt_k.
have -> : (Z.of_nat k <? 0)%PZ = false by apply/Z.ltb_ge; lia.
have -> : (0 <=? Z.of_nat k)%PZ = true by apply/Z.leb_le; lia.
have -> : (Z.of_nat k <? Z.of_nat (size l))%PZ = true by apply/Z.ltb_lt; lia.
by rewrite Nat2Z.id.
Qed.

Lemma mapM_ok (A B : Type) (f : A -> result B) (g : A -> B) (l : seq A) :
  (forall x, List.In x l -> f x = Ok (g x)) -> mapM f l = Ok [seq g x | x <- l].
Proof.
elim: l => [|x l IH] //= ok_f.
have -> : f x = Ok (g x) by apply: ok_f; left.
by rewrite /= IH // => y y_in; apply: ok_f; right.
Qed.

Lemma mapM_size (A B : Type) (f : A -> result B) (l : seq A) (r : seq B) :
  mapM f l = Ok r -> size r = size l.
Proof.
elim: l r => [|x l IH] r /=; first by case=> <-.
case: (f x) => [y|] //=; case E: (mapM f l) => [ys|] //= -[<-] /=.
by rewrite (IH _ E).
Qed.

Lemma mapM_nth (A B : Type) (x0 : A) (y0 : B) (f : A -> result B)
    (l : seq A) (r : seq B) (i : nat) :
  mapM f l = Ok r -> i < size l -> f (nth x0 l i) = Ok (nth y0 r i).
Proof.
elim: l r i => [|x l IH] r i //=.
case Ex: (f x) => [y|] //=; case E: (mapM f l) => [ys|] //= -[<-].
by case: i => [|i] //= lt_i; apply: IH.
Qed.

End PyFacts.

(* --------------------------------------------------------------------- *)
(** ** adaptive_support                                                   *)
(* --------------------------------------------------------------------- *)

Section NumpyFacts.
Import Py.

Lemma size_linspace (a b : rat) (n : nat) : size (linspace a b n) = n.
Proof.
rewrite /linspace; set y := map _ _.
have sz_y : size y = n by rewrite /y; case: ifP => _; rewrite !size_map size_iota.
case: ltnP => [lt1n|_] //.
rewrite size_rcons size_take sz_y.
by case: n lt1n {y sz_y} => [|n] //= _; rewrite ltnSn.
Qed.

Lemma size_arange (n : nat) : size (arange n) = n.
Proof. by rewrite /arange size_map size_iota. Qed.

Lemma nth_arange (n k : nat) : k < n -> nth 0%PZ (arange n) k = Z.of_nat k.
Proof.
by move=> lt_kn; rewrite /arange (nth_map 0) ?size_iota // nth_iota.
Qed.

Lemma linspace_entry (a b : rat) (n : nat) (x : rat) :
  x \in linspace a b n ->
  x = b \/ exists2 i, i < n & x = (i%:R * ((b - a) / n.-1%:R) + a)%R \/ x = a.
Proof.
rewrite /linspace.
have in_y (k : rat) : x \in [seq (v + a)%R | v <- [seq (v * k)%R | v <- [seq (i%:R : rat) | i <- iota 0 n]]] ->
    exists2 i, i < n & x = (i%:R * k + a)%R.
  rewrite -!map_comp => /mapP [i]; rewrite mem_iota add0n => /andP [_ lt_in] ->.
  by exists i.
case: ltnP => [lt1n|le_n1].
  rewrite mem_rcons inE => /orP [/eqP -> | /mem_take]; first by left.
  have -> : 0 < n.-1 by case: n lt1n {in_y} => [|[|n]].
  by move=> /in_y [i lt_in ->]; right; exists i => //; left.
have -> : (0 < n.-1) = false by case: n le_n1 {in_y} => [|[|n]].
move=> /in_y [i lt_in ->]; right; exists i => //; right.
have -> : i = 0 by case: n le_n1 lt_in {in_y} => [|[|n]] //; case: i.
by rewrite mul0r add0r.
Qed.

Lemma linspace_half_bounds (n : nat) (x : rat) :
  x \in linspace 0%R (1 / 2%:R)%R n -> (0 <= x <= 1 / 2%:R)%R.
Proof.
move=> /linspace_entry [-> | [i lt_in [-> | ->]]] //.
rewrite subr0 addr0.
case: n lt_in => [|n] //=; rewrite ltnS => le_in.
case: n le_in => [|n] le_in.
  by move: le_in; rewrite leqn0 => /eqP ->; rewrite mul0r.
have pos_d : (0 < (n.+1%:R : rat))%R by rewrite ltr0n.
apply/andP; split.
  by rewrite mulr_ge0 ?ler0n // divr_ge0 // ?ler0n.
rewrite mulrCA ger_pMr // -[X in (_ <= X)%R](divff (lt0r_neq0 pos_d)).
by rewrite ler_pM2r ?invr_gt0 // ler_nat.
Qed.

End NumpyFacts.

Section AdaptiveSupportFacts.
Import Py AdaptiveSupport.

Context {flt : Type} {F : Float64 flt}.
Context {ImageSource : Type} {S : ImageSourceAPI flt ImageSource}.

Lemma size_cumsum (s : seq flt) : size (cumsum s) = size s.
Proof.
case: s => [|x s] //=; congr _.+1.
by elim: s x => [|y s IH] x //=; rewrite IH.
Qed.

Lemma size_arr_mul (a b : seq flt) : size (arr_mul a b) = minn (size a) (size b).
Proof. by rewrite /arr_mul size_map size_zip. Qed.

Lemma size_radial_profile (ring : nat -> flt) (nv : flt) (N : nat) :
  size (radial_profile ring nv N) = N.
Proof. by rewrite /radial_profile size_map size_iota. Qed.

Lemma normalize_by_last_inv (a b : seq flt) :
  normalize_by_last a = Ok b -> 0 < size a /\ size b = size a.
Proof.
rewrite /normalize_by_last; case: a => [|x a]; first by rewrite getitem_nil.
rewrite (getitem_minus1 x) //= => -[<-].
by rewrite /= size_map.
Qed.

Lemma normalize_by_last_nil : normalize_by_last [::] = Raise IndexError.
Proof. by rewrite /normalize_by_last getitem_nil. Qed.

Lemma cumulative_energies_inv (s : ImageSource) (p v : seq flt) :
  cumulative_energies s = Ok (p, v) ->
  [/\ 0 < src_L s %/ 2, size p = src_L s %/ 2 & size v = src_L s %/ 2].
Proof.
rewrite /cumulative_energies.
case: (noise_estimate s) => [nv|] //=; case: (ring_means s) => [ring|] //=.
set cp := cumsum _; set cv := cumsum _.
have sz_cp : size cp = src_L s %/ 2.
  by rewrite size_cumsum size_arr_mul size_radial_profile size_map size_linspace minnn.
have sz_cv : size cv = src_L s %/ 2.
  by rewrite size_cumsum size_arr_mul size_radial_profile size_map size_arange minnn.
case E1: (normalize_by_last cp) => [p'|] //=.
case E2: (normalize_by_last cv) => [v'|] //= -[<- <-].
have [lt0 ->] := normalize_by_last_inv E1.
have [_ ->] := normalize_by_last_inv E2.
by rewrite -sz_cp; split=> //; rewrite sz_cv sz_cp.
Qed.

(** The index the cutoff reads is the first exceeding position when that
    position is not 0, and the last position otherwise. *)
Lemma cutoff_spec (A : Type) (x0 : A) (a : seq A) (cum : seq flt) (thr : rat) :
  0 < size cum -> size a = size cum ->
  cutoff a cum thr =
  Ok (if has id (exceeds cum thr) && (find id (exceeds cum thr) != 0)
      then nth x0 a (find id (exceeds cum thr)) else last x0 a).
Proof.
move=> lt0 sz_a; rewrite /cutoff /np_argmax.
have sz_m : size (exceeds cum thr) = size cum by rewrite /exceeds size_map.
case E: (exceeds cum thr) sz_m => [|m0 m] sz_m; first by rewrite -sz_m in lt0.
rewrite -E /=; case: ifP => [has_m|_] /=; last first.
  by rewrite /or_minus1 eqxx (getitem_minus1 x0) // sz_a.
rewrite /or_minus1; case: eqP => [_|_] /=.
  by rewrite (getitem_minus1 x0) // sz_a.
by rewrite (getitem_nat x0) // sz_a -(size_map (fun x => fgt x (of_rat thr))) -has_find.
Qed.

Lemma cutoff_at_end (m : seq bool) :
  ~~ has id m \/ head false m -> has id m && (find id m != 0) = false.
Proof.
by case=> [/negbTE -> //|]; case: m => [|[] m] //= _; rewrite andbF.
Qed.

Lemma last_arange (n : nat) : 0 < n -> last 0%PZ (arange n) = (Z.of_nat n - 1)%PZ.
Proof.
case: n => [|n] // _.
rewrite -nth_last size_arange [n.+1.-1]/= nth_arange //.
by rewrite Nat2Z.inj_succ; lia.
Qed.

(** An exception that leaves the estimation was raised by a collaborator,
    or is the IndexError of [cum[-1]] on an empty array. *)
Lemma cumulative_energies_raise (s : ImageSource) (e : exn) :
  cumulative_energies s = Raise e ->
  [\/ noise_estimate s = Raise e, ring_means s = Raise e | e = IndexError].
Proof.
rewrite /cumulative_energies.
case: (noise_estimate s) => [nv|e1] /=; last by case=> ->; constructor 1.
case: (ring_means s) => [ring|e1] /=; last by case=> ->; constructor 2.
rewrite /normalize_by_last.
case: (cumsum _) => [|x cp]; first by rewrite getitem_nil /= => -[<-]; constructor 3.
rewrite (getitem_minus1 x) //=.
case: (cumsum _) => [|y cv]; first by rewrite getitem_nil /= => -[<-]; constructor 3.
by rewrite (getitem_minus1 y).
Qed.

(** Once the estimation has returned, both cutoffs return. *)
Lemma adaptive_support_after_estimation (s : ImageSource) (thr : rat) (p v : seq flt) :
  ~~ ((thr <= 0)%R || (thr > 1)%R) ->
  cumulative_energies s = Ok (p, v) ->
  adaptive_support (Source s) thr =
  Ok (if has id (exceeds p thr) && (find id (exceeds p thr) != 0)
      then nth 0%R (c_range (src_L s %/ 2)) (find id (exceeds p thr))
      else last 0%R (c_range (src_L s %/ 2)),
      if has id (exceeds v thr) && (find id (exceeds v thr) != 0)
      then nth 0%PZ (R_range (src_L s %/ 2)) (find id (exceeds v thr))
      else last 0%PZ (R_range (src_L s %/ 2))).
Proof.
move=> /negbTE in_range E; rewrite /adaptive_support in_range E /=.
have [lt0 sz_p sz_v] := cumulative_energies_inv E.
rewrite (cutoff_spec 0%R) ?sz_p ?size_linspace //=.
by rewrite (cutoff_spec 0%PZ) ?sz_v ?size_arange.
Qed.

(** C7. With [img_src] an image source, an [energy_threshold] that is [<= 0]
    or [> 1] makes [adaptive_support] raise ValueError (the parameter error
    of the function) whatever the collaborators would do, so before any
    estimation is run; and for [0 < energy_threshold <= 1] the function
    raises no ValueError of its own: one that comes out was raised by the
    noise estimator or by the image loading. *)
Theorem energy_threshold_checked_first (img_src : pyobj) (energy_threshold : rat) :
  isinstance_ImageSource img_src ->
  ((energy_threshold <= 0)%R \/ (energy_threshold > 1)%R ->
     adaptive_support img_src energy_threshold = Raise ValueError) /\
  ((0 < energy_threshold <= 1)%R ->
     adaptive_support img_src energy_threshold = Raise ValueError ->
     exists2 s, img_src = Source s &
       noise_estimate s = Raise ValueError \/ ring_means s = Raise ValueError).
Proof.
case: img_src => [s|] // _; split.
  by rewrite /adaptive_support => /orP ->.
move=> /andP [gt0 le1].
have in_range : ~~ ((energy_threshold <= 0)%R || (energy_threshold > 1)%R).
  by rewrite negb_or -ltNge -leNgt gt0 le1.
case E: (@cumulative_energies flt F ImageSource S s) => [[p v]|e].
  by rewrite (adaptive_support_after_estimation in_range E).
rewrite /adaptive_support (negbTE in_range) E /= => -[e_val].
exists s => //; move: E; rewrite e_val.
by move=> /cumulative_energies_raise [H|H|H] //; [left | right].
Qed.

(** C8. Whenever [adaptive_support] returns [(c_limit, R_limit)], the input
    is an image source [s] whose estimation returned, [c_limit] is an entry
    of [linspace(0, 0.5, L // 2)] and so lies in [0, 0.5], and [R_limit] is
    an integer with [0 <= R_limit <= L // 2 - 1]; and for either limit, when
    no entry of its cumulative energy exceeds the threshold, or the entry at
    index 0 does (which [np.argmax(...) or -1] turns into index -1), the last
    entry of the range is returned. *)
Theorem adaptive_support_limits
  (img_src : pyobj) (energy_threshold c_limit : rat) (R_limit : Z) :
  adaptive_support img_src energy_threshold = Ok (c_limit, R_limit) ->
  exists s cum_pspec cum_var,
    let N := src_L s %/ 2 in
    [/\ img_src = Source s /\ cumulative_energies s = Ok (cum_pspec, cum_var),
        c_limit \in linspace 0%R (1 / 2%:R)%R N /\ (0 <= c_limit <= 1 / 2%:R)%R,
        (0 <= R_limit <= Z.of_nat N - 1)%PZ,
        (~~ has id (exceeds cum_pspec energy_threshold)
           \/ head false (exceeds cum_pspec energy_threshold) ->
         c_limit = last 0%R (linspace 0%R (1 / 2%:R)%R N))
      & (~~ has id (exceeds cum_var energy_threshold)
           \/ head false (exceeds cum_var energy_threshold) ->
         R_limit = (Z.of_nat N - 1)%PZ)].
Proof.
case: img_src => [s|] //.
rewrite {1}/adaptive_support; case: ifP => // /negbT in_range.
case E: (@cumulative_energies flt F ImageSource S s) => [[p v]|e] //= H.
move: H (adaptive_support_after_estimation in_range E).
rewrite /adaptive_support (negbTE in_range) E /= => -> [c_val R_val].
have [lt0 sz_p sz_v] := cumulative_energies_inv E.
have c_in : c_limit \in linspace 0%R (1 / 2%:R)%R (src_L s %/ 2).
  rewrite c_val /c_range; case: ifP => [/andP [has_p _]|_].
    by rewrite mem_nth // size_linspace -sz_p -(size_map (fun x => fgt x (of_rat energy_threshold))) -has_find.
  by rewrite -nth_last mem_nth // size_linspace prednK.
exists s, p, v; split=> //.
- by split=> //; exact: linspace_half_bounds c_in.
- rewrite R_val /R_range; case: ifP => [/andP [has_v _]|_]; last first.
    by rewrite last_arange //; move/ssrnat.ltP: lt0; lia.
  have lt_k : find id (exceeds v energy_threshold) < src_L s %/ 2.
    by rewrite -sz_v -(size_map (fun x => fgt x (of_rat energy_threshold))) -has_find.
  by rewrite nth_arange //; move/ssrnat.ltP: lt_k; lia.
- by move=> /cutoff_at_end at_end; rewrite c_val at_end.
- by move=> /cutoff_at_end at_end; rewrite R_val at_end /R_range last_arange.
Qed.

End AdaptiveSupportFacts.

Section AdaptiveSupportRuns.
Import Py AdaptiveSupport.

(** [energy_threshold = 2] on an 8 x 8 source is refused, also when the noise
    estimator would itself fail; with [energy_threshold = 1/2] and a failing
    noise estimator the ValueError is the estimator's. *)
Lemma energy_threshold_checked_first_run :
  @adaptive_support rat rat_float nat failing_source (Source 8) 2%:R%R = Raise ValueError
  /\ exists2 s, Source 8 = Source s &
       @noise_estimate rat nat failing_source s = Raise ValueError
       \/ @ring_means rat nat failing_source s = Raise ValueError.
Proof.
split.
- apply (proj1 (@energy_threshold_checked_first rat rat_float nat failing_source
                  (Source 8) 2%:R%R isT)).
  by right.
- apply (proj2 (@energy_threshold_checked_first rat rat_float nat failing_source
                  (Source 8) (1 / 2%:R)%R isT)).
  + by [].
  + by vm_compute.
Defined.

(** On a flat 8 x 8 source with threshold 1/2 the function returns
    [(1/2, 3)]: the fourth entry of both normalised cumulative energies
    [0, 1/6, 1/2, 1] is the first above the threshold. *)
Lemma adaptive_support_limits_run :
  exists s cum_pspec cum_var,
    let N := @src_L rat nat flat_source s %/ 2 in
    [/\ Source 8 = Source s
        /\ @cumulative_energies rat rat_float nat flat_source s = Ok (cum_pspec, cum_var),
        (1 / 2%:R : rat)%R \in linspace 0%R (1 / 2%:R)%R N
        /\ (0 <= (1 / 2%:R : rat) <= 1 / 2%:R)%R,
        (0 <= 3 <= Z.of_nat N - 1)%PZ,
        (~~ has id (@exceeds rat rat_float cum_pspec (1 / 2%:R)%R)
           \/ head false (@exceeds rat rat_float cum_pspec (1 / 2%:R)%R) ->
         (1 / 2%:R : rat)%R = last 0%R (linspace 0%R (1 / 2%:R)%R N))
      & (~~ has id (@exceeds rat rat_float cum_var (1 / 2%:R)%R)
           \/ head false (@exceeds rat rat_float cum_var (1 / 2%:R)%R) ->
         3%PZ = (Z.of_nat N - 1)%PZ)].
Proof.
apply (@adaptive_support_limits rat rat_float nat flat_source
         (Source 8) (1 / 2%:R)%R (1 / 2%:R)%R 3%PZ).
by vm_compute.
Defined.

End AdaptiveSupportRuns.

(* --------------------------------------------------------------------- *)
(** ** adaptive_support: images without a ring                            *)
(* --------------------------------------------------------------------- *)

Section AdaptiveSupportEdges.
Import Py AdaptiveSupport.

Context {flt : Type} {F : Float64 flt}.
Context {ImageSource : Type} {S : ImageSourceAPI flt ImageSource}.

(** Anything that is not an image source is refused with RuntimeError,
    whatever the threshold. *)
Lemma adaptive_support_not_a_source (energy_threshold : rat) :
  adaptive_support (@NotASource ImageSource) energy_threshold = Raise RuntimeError.
Proof. by []. Qed.

(** X2. For images of resolution 0 or 1 there is no ring ([L // 2 = 0]): the
    estimation runs, and [cum_pspec[-1]] on the empty array raises
    IndexError. *)
Lemma adaptive_support_no_ring
    (s : ImageSource) (energy_threshold : rat) (nv : flt) (ring : nat -> flt * flt) :
  (0 < energy_threshold <= 1)%R ->
  src_L s < 2 ->
  noise_estimate s = Ok nv -> ring_means s = Ok ring ->
  adaptive_support (Source s) energy_threshold = Raise IndexError.
Proof.
move=> /andP [gt0 le1] small nv_ok ring_ok.
rewrite /adaptive_support leNgt gt0 ltNge le1 /=.
by rewrite /cumulative_energies nv_ok ring_ok /= divn_small //= normalize_by_last_nil.
Qed.

End AdaptiveSupportEdges.

(* --------------------------------------------------------------------- *)
(** ** adaptive_support: the radii returned *)
(* --------------------------------------------------------------------- *)

Section LinspaceEntries.
Import Py AdaptiveSupport.

(** The entries of [np.linspace(0, 0.5, N)]: entry [k] is [k / (2 (N - 1))]
    (and the only entry is 0 when [N = 1]). *)
Lemma nth_c_range (N k : nat) :
  k < N -> nth 0%R (c_range N) k = (k%:R / (2 * N.-1)%:R)%R.
Proof.
rewrite /c_range /linspace subr0.
case: N => [|[|N]] // lt_k.
  by case: k lt_k => [|k] //= _; rewrite !mul0r addr0.
have -> : (1 < N.+2) = true by [].
have -> : (0 < N.+2.-1) = true by [].
rewrite [N.+2.-1]/= nth_rcons size_take !size_map size_iota ltnSn.
have nz : ((N.+1)%:R : rat)%R != 0%R by rewrite pnatr_eq0.
move: lt_k; rewrite ltnS leq_eqVlt => /orP [/eqP -> | lt_k].
  by rewrite ltnn eqxx natrM invfM mulrCA mulfV // mulr1 mul1r.
rewrite lt_k nth_take // -!map_comp (nth_map 0) ?size_iota ?(ltn_trans lt_k) //.
rewrite nth_iota ?(ltn_trans lt_k) //. by rewrite /= add0n addr0 natrM invfM mul1r.
Qed.

Lemma c_range_increasing (N k k' : nat) :
  k <= k' -> k' < N ->
  (nth 0%R (c_range N) k <= nth 0%R (c_range N) k')%R.
Proof.
move=> le_k lt_k'; rewrite !nth_c_range ?(leq_ltn_trans le_k) //.
by rewrite ler_wpM2r ?invr_ge0 ?ler0n // ler_nat.
Qed.

Lemma c_range_positive (N k : nat) :
  0 < k -> k < N -> (0 < nth 0%R (c_range N) k)%R.
Proof.
move=> lt0 lt_k; rewrite nth_c_range // divr_gt0 ?ltr0n // muln_gt0 /=.
by case: N lt_k => [|[|N]] //; case: k lt0 => [|[|k]].
Qed.

End LinspaceEntries.

Section AdaptiveSupportRadii.
Import Py AdaptiveSupport.

Context {flt : Type} {F : Float64 flt}.
Context {ImageSource : Type} {S : ImageSourceAPI flt ImageSource}.

(** With at least one ring and collaborators that return, the estimation
    returns; the first entry of either cumulative energy is a product with
    the radius 0, divided by the last entry of the running sums. *)
Lemma cumulative_energies_ok (s : ImageSource) (nv : flt) (ring : nat -> flt * flt) :
  0 < src_L s %/ 2 ->
  noise_estimate s = Ok nv -> ring_means s = Ok ring ->
  exists x y p x' y' v,
    cumulative_energies s =
    Ok (fdiv (fmul x (of_rat 0%R)) y :: p, fdiv (fmul x' (of_rat 0%R)) y' :: v).
Proof.
move=> lt0 nv_ok ring_ok; rewrite /cumulative_energies nv_ok ring_ok /=.
case EN: (src_L s %/ 2) lt0 => [|N] // _.
have c_eq : c_range N.+1 = 0%R :: behead (c_range N.+1).
  have := size_linspace 0%R (1 / 2%:R)%R N.+1.
  have := @nth_c_range N.+1 0 isT.
  by rewrite /c_range; case: (linspace _ _ _) => [|c0 cs] //= ->; rewrite mul0r.
have R_eq : R_range N.+1 = 0%PZ :: behead (R_range N.+1) by [].
rewrite c_eq R_eq /radial_profile /normalize_by_last /=.
set x := fmul _ (of_rat 0%R); set cp := cumsum_from x _.
rewrite (getitem_minus1 x) //= .
set x' := fmul _ (of_rat 0%R); set cv := cumsum_from x' _.
rewrite (getitem_minus1 x') //=.
by do 6!eexists.
Qed.

Lemma cumulative_energies_head (s : ImageSource) (p v : seq flt) :
  cumulative_energies s = Ok (p, v) ->
  exists x y p' x' y' v',
    p = fdiv (fmul x (of_rat 0%R)) y :: p' /\ v = fdiv (fmul x' (of_rat 0%R)) y' :: v'.
Proof.
move=> E; have [lt0 _ _] := cumulative_energies_inv E.
case nv_ok: (@noise_estimate flt ImageSource S s) => [nv|e]; last first.
  by move: E; rewrite /cumulative_energies nv_ok.
case ring_ok: (@ring_means flt ImageSource S s) => [ring|e]; last first.
  by move: E; rewrite /cumulative_energies nv_ok ring_ok.
have [x [y [p' [x' [y' [v' E']]]]]] := cumulative_energies_ok lt0 nv_ok ring_ok.
by move: E; rewrite E' => -[<- <-]; exists x, y, p', x', y', v'.
Qed.

(** X3. With a single ring ([L] is 2 or 3, so [L // 2 = 1]) both ranges hold
    the radius 0 only, and the function returns [(0, 0)] whatever the images
    and the threshold in (0, 1]. *)
Theorem adaptive_support_single_ring
    (s : ImageSource) (energy_threshold : rat) (nv : flt) (ring : nat -> flt * flt) :
  (0 < energy_threshold <= 1)%R ->
  src_L s %/ 2 = 1 ->
  noise_estimate s = Ok nv -> ring_means s = Ok ring ->
  adaptive_support (Source s) energy_threshold = Ok (0%R, 0%PZ).
Proof.
move=> /andP [gt0 le1] N1 nv_ok ring_ok.
have in_range : ~~ ((energy_threshold <= 0)%R || (energy_threshold > 1)%R).
  by rewrite negb_or -ltNge -leNgt gt0 le1.
have lt0 : 0 < src_L s %/ 2 by rewrite N1.
have [x [y [p [x' [y' [v E]]]]]] := cumulative_energies_ok lt0 nv_ok ring_ok.
have [_ sz_p sz_v] := cumulative_energies_inv E.
rewrite (adaptive_support_after_estimation in_range E) N1.
case: p v sz_p sz_v {E} => [|? ?] [|? ?]; rewrite N1 //= => _ _.
by do 2!case: (fgt _ _); rewrite /= mul0r addr0.
Qed.

(** X4. With at least two rings ([L >= 4]) neither limit is ever the radius
    0: index 0 of a range is never selected, since [np.argmax(...) or -1]
    sends it to the last index. *)
Theorem adaptive_support_radii_positive
    (s : ImageSource) (energy_threshold c_limit : rat) (R_limit : Z) :
  3 < src_L s ->
  adaptive_support (Source s) energy_threshold = Ok (c_limit, R_limit) ->
  (0 < c_limit)%R /\ (1 <= R_limit)%PZ.
Proof.
move=> lt3.
have lt1 : 1 < src_L s %/ 2 by rewrite (@leq_div2r 2 4).
rewrite {1}/adaptive_support; case: ifP => // /negbT in_range.
case E: (@cumulative_energies flt F ImageSource S s) => [[p v]|e] //= H.
move: H (adaptive_support_after_estimation in_range E).
rewrite /adaptive_support (negbTE in_range) E /= => -> [-> ->].
have [lt0 sz_p sz_v] := cumulative_energies_inv E.
split.
- case: ifP => [/andP [has_p nz]|_].
    rewrite c_range_positive ?lt0n //.
    by rewrite -sz_p -(size_map (fun x => fgt x (of_rat energy_threshold))) -has_find.
  by rewrite -nth_last /c_range size_linspace c_range_positive // -?subn1 ?subn_gt0 // subn1 prednK.
- rewrite /R_range; case: ifP => [/andP [has_v nz]|_]; last first.
    by rewrite last_arange //; move/ssrnat.ltP: lt1; lia.
  have lt_k : find id (exceeds v energy_threshold) < src_L s %/ 2.
    by rewrite -sz_v -(size_map (fun x => fgt x (of_rat energy_threshold))) -has_find.
  rewrite nth_arange //; move: nz; rewrite -lt0n => /ssrnat.ltP.
  by lia.
Qed.

End AdaptiveSupportRadii.

Section AdaptiveSupportMonotone.
Import Py AdaptiveSupport.

Context {flt : Type} {F : Float64 flt}.
Context {ImageSource : Type} {S : ImageSourceAPI flt ImageSource}.

(** Two facts of float64 comparison: an entry above a threshold is above
    every smaller one, and a product with 0 divided by anything (so 0, -0 or
    NaN) is above no positive threshold. *)
Hypothesis fgt_threshold : forall (x : flt) (t1 t2 : rat),
  (t1 <= t2)%R -> fgt x (of_rat t2) -> fgt x (of_rat t1).
Hypothesis fgt_zero : forall (x y : flt) (t : rat),
  (0 < t)%R -> fgt (fdiv (fmul x (of_rat 0%R)) y) (of_rat t) = false.

Lemma find_subset (m1 m2 : seq bool) :
  size m1 = size m2 -> (forall i, nth false m2 i -> nth false m1 i) ->
  has id m2 -> has id m1 /\ find id m1 <= find id m2.
Proof.
move=> sz sub has2.
have at2 : nth false m1 (find id m2) by apply: sub; rewrite (nth_find false has2).
have lt2 : find id m2 < size m1 by rewrite sz -has_find.
have has1 : has id m1 by apply/(has_nthP false); exists (find id m2).
split=> //; rewrite leqNgt; apply/negP => lt12.
by have := before_find false lt12; rewrite at2.
Qed.

(** The index a cutoff reads does not decrease with the threshold. *)
Lemma cutoff_index_monotone (cum : seq flt) (x y : flt) (p : seq flt) (t1 t2 : rat) :
  cum = fdiv (fmul x (of_rat 0%R)) y :: p ->
  (0 < t1)%R -> (t1 <= t2)%R ->
  (if has id (exceeds cum t1) && (find id (exceeds cum t1) != 0)
   then find id (exceeds cum t1) else (size cum).-1)
  <= (if has id (exceeds cum t2) && (find id (exceeds cum t2) != 0)
      then find id (exceeds cum t2) else (size cum).-1)
  < size cum.
Proof.
move=> cum_eq gt0 le_t.
pose k (t : rat) := if has id (@exceeds flt F cum t) && (find id (@exceeds flt F cum t) != 0)
                     then find id (@exceeds flt F cum t) else (size cum).-1.
rewrite -/(k t1) -/(k t2).
have sz t : size (exceeds cum t) = size cum by rewrite /exceeds size_map.
have lt0 : 0 < size cum by rewrite cum_eq.
have bound t : k t < size cum.
  rewrite /k; case: ifP => [/andP [has_t _]|_]; last by rewrite prednK.
  by rewrite -(sz t) -has_find.
rewrite bound andbT {2}/k; case: ifP => [/andP [has2 nz2]|_]; last first.
  by rewrite -ltnS prednK.
have sub i : nth false (exceeds cum t2) i -> nth false (exceeds cum t1) i.
  case: (ltnP i (size cum)) => [lt_i|le_i]; last by rewrite nth_default ?sz.
  by rewrite /exceeds !(nth_map x) //; apply: fgt_threshold.
have [has1 le12] := find_subset (etrans (sz t1) (esym (sz t2))) sub has2.
rewrite /k has1 /=.
have -> : find id (exceeds cum t1) != 0.
  by rewrite cum_eq /= fgt_zero.
by [].
Qed.

(** X5. Raising the energy threshold never shrinks either support. *)
Theorem adaptive_support_monotone
    (s : ImageSource) (t1 t2 c1 c2 : rat) (R1 R2 : Z) :
  (t1 <= t2)%R ->
  adaptive_support (Source s) t1 = Ok (c1, R1) ->
  adaptive_support (Source s) t2 = Ok (c2, R2) ->
  (c1 <= c2)%R /\ (R1 <= R2)%PZ.
Proof.
move=> le_t.
rewrite {1}/adaptive_support; case: ifP => // /negbT in1.
rewrite {1}/adaptive_support; case: ifP => // /negbT in2.
have gt0 : (0 < t1)%R by move: in1; rewrite negb_or -ltNge => /andP [].
case E: (@cumulative_energies flt F ImageSource S s) => [[p0 v0]|e] //= H1 H2.
have [_ sz_p sz_v] := cumulative_energies_inv E.
move: H1 (adaptive_support_after_estimation in1 E).
rewrite /adaptive_support (negbTE in1) E /= => -> [-> ->].
move: H2 (adaptive_support_after_estimation in2 E).
rewrite /adaptive_support (negbTE in2) E /= => -> [-> ->].
have [x [y [p [x' [y' [v [p_eq v_eq]]]]]]] := cumulative_energies_head E.
have /andP [leP ltP] := cutoff_index_monotone p_eq gt0 le_t.
have /andP [leV ltV] := cutoff_index_monotone v_eq gt0 le_t.
have last_c : last 0%R (c_range (src_L s %/ 2))
            = nth 0%R (c_range (src_L s %/ 2)) (size p0).-1.
  by rewrite -nth_last /c_range size_linspace sz_p.
have last_R : last 0%PZ (R_range (src_L s %/ 2))
            = nth 0%PZ (R_range (src_L s %/ 2)) (size v0).-1.
  by rewrite -nth_last /R_range size_arange sz_v.
split.
- rewrite last_c -!(fun_if (nth 0%R (c_range _))).
  by apply: c_range_increasing => //; rewrite -sz_p.
- rewrite last_R -!(fun_if (nth 0%PZ (R_range _))) /R_range.
  have ltV1 := leq_ltn_trans leV ltV.
  rewrite !nth_arange -?sz_v //.
  by apply/Nat2Z.inj_le/ssrnat.leP.
Qed.

End AdaptiveSupportMonotone.

(* --------------------------------------------------------------------- *)
(** ** adaptive_support: totality *)
(* --------------------------------------------------------------------- *)

Section AdaptiveSupportReturns.
Import Py AdaptiveSupport.

Context {flt : Type} {F : Float64 flt}.
Context {ImageSource : Type} {S : ImageSourceAPI flt ImageSource}.

(** X24. With at least one ring ([L >= 2]), a threshold in (0, 1] and
    collaborators that return, the function returns: no indexing fails
    and, a division by zero being no exception in numpy, nothing raises. *)
Theorem adaptive_support_returns
    (s : ImageSource) (energy_threshold : rat) (nv : flt) (ring : nat -> flt * flt) :
  (0 < energy_threshold <= 1)%R ->
  1 < src_L s ->
  noise_estimate s = Ok nv -> ring_means s = Ok ring ->
  exists c_limit R_limit,
    adaptive_support (Source s) energy_threshold = Ok (c_limit, R_limit).
Proof.
move=> /andP [gt0 le1] lt1 nv_ok ring_ok.
have in_range : ~~ ((energy_threshold <= 0)%R || (energy_threshold > 1)%R).
  by rewrite negb_or -ltNge -leNgt gt0 le1.
have lt0 : 0 < src_L s %/ 2 by rewrite divn_gt0.
have [x [y [p [x' [y' [v E]]]]]] := cumulative_energies_ok lt0 nv_ok ring_ok.
by rewrite (adaptive_support_after_estimation in_range E); eexists; eexists.
Qed.

End AdaptiveSupportReturns.

(* --------------------------------------------------------------------- *)
(** ** adaptive_support: runs *)
(* --------------------------------------------------------------------- *)

Section AdaptiveSupportRadiiRuns.
Import Py AdaptiveSupport.

(** A flat 2 x 2 source has one ring and gets [(0, 0)]. *)
Lemma adaptive_support_single_ring_run :
  @adaptive_support rat rat_float nat flat_source (Source 2) (1 / 2%:R)%R = Ok (0%R, 0%PZ).
Proof.
by apply: (@adaptive_support_single_ring rat rat_float nat flat_source 2 (1 / 2%:R)%R
             0%R (fun _ => (1%R, 1%R))).
Defined.

(** On the flat 8 x 8 source, threshold 1/2 gives [(1/2, 3)]. *)
Lemma adaptive_support_radii_positive_run :
  [/\ 3 < @src_L rat nat flat_source 8,
      @adaptive_support rat rat_float nat flat_source (Source 8) (1 / 2%:R)%R
        = Ok ((1 / 2%:R)%R, 3%PZ)
    & (0 < (1 / 2%:R : rat))%R /\ (1 <= 3)%PZ].
Proof.
split; [by [] | by vm_compute |].
by apply: (@adaptive_support_radii_positive rat rat_float nat flat_source 8
             (1 / 2%:R)%R (1 / 2%:R)%R 3%PZ); vm_compute.
Defined.

(** On the flat 8 x 8 source the thresholds 1/10 and 1/2 give [(1/6, 1)] and
    [(1/2, 3)]. *)
Lemma adaptive_support_monotone_run :
  [/\ @adaptive_support rat rat_float nat flat_source (Source 8) (1 / 10%:R)%R
        = Ok ((1 / 6%:R)%R, 1%PZ),
      @adaptive_support rat rat_float nat flat_source (Source 8) (1 / 2%:R)%R
        = Ok ((1 / 2%:R)%R, 3%PZ)
    & ((1 / 6%:R : rat) <= 1 / 2%:R)%R /\ (1 <= 3)%PZ].
Proof.
split; [by vm_compute | by vm_compute |].
apply: (@adaptive_support_monotone rat rat_float nat flat_source _ _
          8 (1 / 10%:R)%R (1 / 2%:R)%R (1 / 6%:R)%R (1 / 2%:R)%R 1%PZ 3%PZ).
- by move=> x t1 t2 /=; exact: le_lt_trans.
- by move=> x y t /= gt0; rewrite mulr0 mul0r ltNge ltW.
- by vm_compute.
- by vm_compute.
- by vm_compute.
Defined.

End AdaptiveSupportRadiiRuns.

Section AdaptiveSupportMoreRuns.
Import Py AdaptiveSupport.

Lemma adaptive_support_no_ring_run :
  @adaptive_support rat rat_float nat flat_source (Source 1) (1 / 2%:R)%R = Raise IndexError.
Proof.
by apply: (@adaptive_support_no_ring rat rat_float nat flat_source 1 (1 / 2%:R)%R
             0%R (fun _ => (1%R, 1%R))).
Defined.

Lemma adaptive_support_returns_run :
  exists c_limit R_limit,
    @adaptive_support rat rat_float nat flat_source (Source 8) (1 / 2%:R)%R
    = Ok (c_limit, R_limit).
Proof.
by apply: (@adaptive_support_returns rat rat_float nat flat_source 8 (1 / 2%:R)%R
             0%R (fun _ => (1%R, 1%R))).
Defined.

End AdaptiveSupportMoreRuns.

(* --------------------------------------------------------------------- *)
(** ** Loops and indexing: more facts                                     *)
(* --------------------------------------------------------------------- *)

Section MapMFacts.
Import Py.

Lemma mapM_cat (A B : Type) (f : A -> result B) (a b : seq A) :
  mapM f (a ++ b) = (a' <- mapM f a ;; b' <- mapM f b ;; Ok (a' ++ b')).
Proof.
elim: a => [|x a IH] /=; first by case: (mapM f b).
by case: (f x) => [y|] //=; rewrite IH; case: (mapM f a) => [a'|] //=; case: (mapM f b).
Qed.

Lemma mapM_take_drop (A B : Type) (f : A -> result B) (l : seq A) (r : seq B) (s k : nat) :
  mapM f l = Ok r -> mapM f (take k (drop s l)) = Ok (take k (drop s r)).
Proof.
elim: l r s k => [|x l IH] r s k /=; first by case=> <-.
case Ex: (f x) => [y|] //=; case E: (mapM f l) => [ys|] //= -[<-].
case: s => [|s] /=; last exact: IH.
case: k => [|k] //=; rewrite Ex /=.
by have := IH _ 0 k E; rewrite !drop0 => ->.
Qed.

Lemma mapM_drop (A B : Type) (f : A -> result B) (l : seq A) (r : seq B) (s : nat) :
  mapM f l = Ok r -> mapM f (drop s l) = Ok (drop s r).
Proof.
move=> E; have := mapM_take_drop s (size l) E.
by rewrite !take_oversize // size_drop ?(mapM_size E) leq_subr.
Qed.

Lemma getitem_raise (A : Type) (l : seq A) (i : Z) (e : exn) :
  getitem l i = Raise e -> e = IndexError.
Proof.
rewrite /getitem; case: ifP => [_|_ [<-] //].
by case: (ohead _) => // -[<-].
Qed.

Lemma getitem_outside (A : Type) (l : seq A) (i : Z) :
  (i < - Z.of_nat (size l))%PZ \/ (Z.of_nat (size l) <= i)%PZ ->
  getitem l i = Raise IndexError.
Proof.
move=> out; rewrite /getitem; case: ifP => // /andP [/Z.leb_le le0 /Z.ltb_lt ltn].
by move: le0 ltn; case: Z.ltb_spec => ? ? ?; lia.
Qed.

Lemma getitem_from_end (A : Type) (l : seq A) (i : Z) :
  (0 <= i < Z.of_nat (size l))%PZ ->
  getitem l (i - Z.of_nat (size l)) = getitem l i.
Proof.
move=> [le0 ltn]; rewrite /getitem.
have -> : (i - Z.of_nat (size l) <? 0)%PZ = true by apply/Z.ltb_lt; lia.
have -> : (i <? 0)%PZ = false by apply/Z.ltb_ge.
by rewrite Z.sub_add.
Qed.

Lemma mapM_getitem_outside (A : Type) (l : seq A) (ix : seq Z) :
  has (fun i => (i <? - Z.of_nat (size l))%PZ || (Z.of_nat (size l) <=? i)%PZ) ix ->
  mapM (getitem l) ix = Raise IndexError.
Proof.
elim: ix => [|i ix IH] //= /orP [out|/IH ->].
  rewrite getitem_outside //.
  by case/orP: out => [/Z.ltb_lt|/Z.leb_le]; [left | right].
case E: (getitem l i) => [x|e] //=.
by rewrite (getitem_raise E).
Qed.

End MapMFacts.

(* --------------------------------------------------------------------- *)
(** ** Particle identifiers: formatting, splitting, parsing               *)
(* --------------------------------------------------------------------- *)

Section StringFacts.
Import Py.

Lemma contains_append (c : ascii) (a b : string) :
  contains c (String.append a b) = contains c a || contains c b.
Proof. by elim: a => //= c' a ->; rewrite orbA. Qed.

Lemma split_append_sep (sep : ascii) (a b : string) :
  ~~ contains sep a -> split sep (String.append a (String sep b)) = a :: split sep b.
Proof.
elim: a => [|c a IH] /=; first by rewrite eqxx.
by rewrite negb_or => /andP [/negbTE -> /IH ->].
Qed.

Lemma split_no_sep (sep : ascii) (b : string) :
  ~~ contains sep b -> split sep b = [:: b].
Proof.
elim: b => //= c b IH.
by rewrite negb_or => /andP [/negbTE -> /IH ->].
Qed.

Lemma zeros_no_at (n : nat) : ~~ contains "@"%char (zeros n).
Proof. by elim: n. Qed.

Lemma digits_no_at (d : Decimal.uint) :
  ~~ contains "@"%char (NilEmpty.string_of_uint d).
Proof. by elim: d. Qed.

Lemma format_06d_no_at (i : nat) : ~~ contains "@"%char (format_06d i).
Proof. by rewrite /format_06d contains_append negb_or zeros_no_at digits_no_at. Qed.

Lemma uint_of_string_zeros (k : nat) (s : string) (d : Decimal.uint) :
  NilEmpty.uint_of_string s = Some d ->
  exists2 d', NilEmpty.uint_of_string (String.append (zeros k) s) = Some d'
            & Nat.of_uint d' = Nat.of_uint d.
Proof.
move=> s_d; elim: k => [|k [d' E1 E2]]; first by exists d.
by exists (Decimal.D0 d'); rewrite /= ?E1.
Qed.

Lemma py_int_format_06d (i : nat) : py_int (format_06d i) = Ok (Z.of_nat i).
Proof.
have [d' E1 E2] := uint_of_string_zeros
  (6 - String.length (NilEmpty.string_of_uint (Nat.to_uint i)))
  (NilEmpty.usu (Nat.to_uint i)).
have val_d' : Nat.of_uint d' = i by rewrite E2 Unsigned.of_to.
rewrite /py_int -/(format_06d i) in E1 *.
case E: (format_06d i) E1 => [|c s] E1; last by rewrite E1 val_d'.
move: E1 val_d' E => /= -[<-] /= <-.
by [].
Qed.

Lemma split_particle_id (i : nat) (mrc : string) :
  ~~ contains "@"%char mrc ->
  split "@"%char (Eman.particle_id i mrc) = [:: format_06d i; mrc].
Proof.
move=> no_at; rewrite /Eman.particle_id split_append_sep ?format_06d_no_at //.
by rewrite split_no_sep.
Qed.

End StringFacts.

(* --------------------------------------------------------------------- *)
(** ** Box-file text and path resolution *)
(* --------------------------------------------------------------------- *)

Section TextFacts.
Import Py Text.

Lemma append_nil (s : string) : String.append s EmptyString = s.
Proof. by elim: s => //= c s ->. Qed.

Lemma append_assoc (a b c : string) :
  String.append (String.append a b) c = String.append a (String.append b c).
Proof. by elim: a => //= x a ->. Qed.

Lemma all_chars_append (P : pred ascii) (a b : string) :
  all_chars P (String.append a b) = all_chars P a && all_chars P b.
Proof. by elim: a => //= c a ->; rewrite andbA. Qed.

Lemma all_chars_sub (P Q : pred ascii) (s : string) :
  (forall c, P c -> Q c) -> all_chars P s -> all_chars Q s.
Proof. by move=> PQ; elim: s => //= c s IH /andP [/PQ -> /IH]. Qed.

Lemma nonspace_not_eol (c : ascii) : ~~ isspace c -> (c != LF) && (c != CR).
Proof. by case: (c =P LF) => [->|_] //; case: (c =P CR) => [->|]. Qed.

(** A line that ends with LF is read as one line. *)
Lemma readlines_line (l rest : string) :
  all_chars (fun c => (c != LF) && (c != CR)) l ->
  readlines (String.append l (String LF rest))
  = String.append l (String LF EmptyString) :: readlines rest.
Proof.
elim: l => [|c l IH] //=.
by case/andP => /andP [/negbTE -> /negbTE ->] /IH ->.
Qed.

(** A token followed by whitespace is split off. *)
Lemma str_split_token (tok rest : string) (c : ascii) :
  tok != EmptyString -> all_chars (fun c => ~~ isspace c) tok -> isspace c ->
  str_split (String.append tok (String c rest)) = tok :: str_split rest.
Proof.
move=> + + sp_c; elim: tok => [|t tok IH] //= _ /andP [/negbTE nsp_t nsp].
rewrite nsp_t; case: tok IH nsp => [|t' tok] IH nsp /=; first by rewrite sp_c.
move: nsp => /= /andP [/negbTE nsp_t' nsp]; rewrite nsp_t'.
have /= := IH isT; rewrite nsp_t' nsp => /(_ isT).
by case: tok {IH nsp} => [|t'' tok] /=; rewrite ?sp_c // => ->.
Qed.

Lemma lstrip_id (s : string) : all_chars (fun c => ~~ isspace c) s -> lstrip s = s.
Proof. by case: s => //= c s /andP [/negbTE ->]. Qed.

Lemma rstrip_id (s : string) : all_chars (fun c => ~~ isspace c) s -> rstrip s = s.
Proof. by elim: s => //= c s IH /andP [/negbTE -> /IH ->]; rewrite andbF. Qed.

Lemma nonspace_uint (d : Decimal.uint) :
  all_chars (fun c => ~~ isspace c) (NilEmpty.string_of_uint d).
Proof. by elim: d. Qed.

Lemma nonspace_str (z : Z) : all_chars (fun c => ~~ isspace c) (str z).
Proof. by case: z => [|p|p] //=; rewrite /str /= nonspace_uint. Qed.

Lemma str_nonempty (z : Z) : str z != EmptyString.
Proof.
rewrite /str; case: z => [|p|p] //=.
by case: (BinPos.Pos.to_uint p) (DecimalPos.Unsigned.to_uint_nonnil p) => // /(_ erefl).
Qed.

Lemma int_digits_digit (c : ascii) (acc : Z) (b : bool) (s : string) :
  isdigit c ->
  int_digits acc b (String c s) = int_digits (10 * acc + digit_value c)%PZ true s.
Proof. by move=> /= ->. Qed.

(** One digit [c] of value [k] in front of the digits of [d]. *)
Ltac digit_step IH c k :=
  rewrite [NilEmpty.string_of_uint _]/= int_digits_digit //;
  (have -> : digit_value c = k by []);
  match goal with
  | |- int_digits (10 * Z.pos ?a + Z.pos ?p)%PZ _ _ = _ =>
      (have -> : (10 * Z.pos a + Z.pos p)%PZ = Z.pos (p + 10 * a) by lia)
  | |- int_digits (10 * Z.pos ?a + 0)%PZ _ _ = _ =>
      (have -> : (10 * Z.pos a + 0)%PZ = Z.pos (10 * a) by lia)
  | |- int_digits (10 * 0 + ?z)%PZ _ _ = _ =>
      (have -> : (10 * 0 + z)%PZ = z by lia)
  end;
  apply: IH; match goal with |- is_true (match ?d with _ => _ end) => by case: d end.

Lemma int_digits_acc (d : Decimal.uint) (a : positive) (b : bool) :
  (if d is Decimal.Nil then b else true) ->
  int_digits (Z.pos a) b (NilEmpty.string_of_uint d) = Ok (Z.pos (BinPos.Pos.of_uint_acc d a)).
Proof.
elim: d a b => [|d IH|d IH|d IH|d IH|d IH|d IH|d IH|d IH|d IH|d IH] a b ok.
- by rewrite /= ok.
- by digit_step IH "0"%char 0%PZ.
- by digit_step IH "1"%char 1%PZ.
- by digit_step IH "2"%char 2%PZ.
- by digit_step IH "3"%char 3%PZ.
- by digit_step IH "4"%char 4%PZ.
- by digit_step IH "5"%char 5%PZ.
- by digit_step IH "6"%char 6%PZ.
- by digit_step IH "7"%char 7%PZ.
- by digit_step IH "8"%char 8%PZ.
- by digit_step IH "9"%char 9%PZ.
Qed.

Lemma int_digits_uint (d : Decimal.uint) (b : bool) :
  (if d is Decimal.Nil then b else true) ->
  int_digits 0%PZ b (NilEmpty.string_of_uint d) = Ok (Z.of_N (BinPos.Pos.of_uint d)).
Proof.
have acc := int_digits_acc.
elim: d b => [|d IH|d _|d _|d _|d _|d _|d _|d _|d _|d _] b ok.
- by rewrite /= ok.
- by digit_step IH "0"%char 0%PZ.
- by digit_step acc "1"%char 1%PZ.
- by digit_step acc "2"%char 2%PZ.
- by digit_step acc "3"%char 3%PZ.
- by digit_step acc "4"%char 4%PZ.
- by digit_step acc "5"%char 5%PZ.
- by digit_step acc "6"%char 6%PZ.
- by digit_step acc "7"%char 7%PZ.
- by digit_step acc "8"%char 8%PZ.
- by digit_step acc "9"%char 9%PZ.
Qed.

(** [int(str(z)) == z]. *)
Lemma int_str (z : Z) : int (str z) = Ok z.
Proof.
rewrite /int lstrip_id ?rstrip_id ?nonspace_str // /str.
case: z => [|p|p] //=.
- have nonnil := DecimalPos.Unsigned.to_uint_nonnil p.
  have := @int_digits_uint (BinPos.Pos.to_uint p) false.
  rewrite DecimalPos.Unsigned.of_to /=.
  by case: (BinPos.Pos.to_uint p) nonnil => [|d|d|d|d|d|d|d|d|d|d] //= _ ->.
- have nonnil := DecimalPos.Unsigned.to_uint_nonnil p.
  have := @int_digits_uint (BinPos.Pos.to_uint p) false.
  rewrite DecimalPos.Unsigned.of_to /=.
  by case: (BinPos.Pos.to_uint p) nonnil => [|d|d|d|d|d|d|d|d|d|d] //= _ ->.
Qed.

End TextFacts.

Section BoxFileFacts.
Import Py Text EmanFiles CoordinateSourceTest.

Lemma noeol_str (z : Z) : all_chars (fun c => (c != LF) && (c != CR)) (str z).
Proof. exact: all_chars_sub nonspace_not_eol (nonspace_str z). Qed.

(** A box line is read as one line, and splits into its four fields. *)
Lemma readlines_box_line (x y w h : Z) (rest : string) :
  readlines (String.append (box_line x y w h) rest)
  = box_line x y w h :: readlines rest.
Proof.
pose body := String.append (str x) (String TAB
               (String.append (str y) (String TAB
                 (String.append (str w) (String TAB (str h)))))).
have line_eq s : String.append (box_line x y w h) s = String.append body (String LF s).
  by rewrite /box_line /body; repeat (rewrite append_assoc /=).
rewrite line_eq -[box_line x y w h]append_nil line_eq.
apply: readlines_line.
by rewrite /body; repeat (rewrite all_chars_append noeol_str /=); rewrite noeol_str.
Qed.

Lemma str_split_box_line (x y w h : Z) :
  str_split (box_line x y w h) = [:: str x; str y; str w; str h].
Proof.
rewrite /box_line.
by do 4!rewrite str_split_token ?str_nonempty ?nonspace_str //.
Qed.

Lemma read_coordList_cons (x y w h : Z) (rest : string) :
  read_coordList (String.append (box_line x y w h) rest)
  = (coordList <- read_coordList rest ;; Ok ([:: x; y; w; h] :: coordList)).
Proof.
rewrite /read_coordList readlines_box_line /= str_split_box_line /=.
by rewrite !int_str.
Qed.

(** Box lines of one size are read back as their coordinate lists. *)
Lemma read_coordList_box_lines (w h : Z) (corners : seq (Z * Z)) :
  read_coordList (foldr String.append EmptyString
                    [seq box_line corner.1 corner.2 w h | corner <- corners])
  = Ok [seq [:: corner.1; corner.2; w; h] | corner <- corners].
Proof.
by elim: corners => [|corner corners IH] //=; rewrite read_coordList_cons IH.
Qed.

(** X21. What the tests' [createTestBoxFiles] writes, the constructor's loop
    reads back: for every list of centers, the box file gives one
    coordinate list per center, [x - 128, y - 128, 256, 256], in order, and
    the nonsquare box file gives [x - 128, y - 128, 256, 100]. *)
Theorem box_file_round_trip (centers : seq (Z * Z)) :
  read_coordList (createTestBoxFiles centers).1
    = Ok [seq [:: center.1 - 128; center.2 - 128; 256; 256]%PZ | center <- centers]
  /\ read_coordList (createTestBoxFiles centers).2
    = Ok [seq [:: center.1 - 128; center.2 - 128; 256; 100]%PZ | center <- centers].
Proof.
have square := read_coordList_box_lines 256 256
                 [seq (center.1 - 128, center.2 - 128)%PZ | center <- centers].
have nonsquare := read_coordList_box_lines 256 100
                    [seq (center.1 - 128, center.2 - 128)%PZ | center <- centers].
by rewrite -!map_comp in square nonsquare.
Qed.

Lemma int_digits_chars (acc : Z) (b : bool) (s : string) (z : Z) :
  int_digits acc b s = Ok z -> all_chars (fun c => isdigit c || (c == "_"%char)) s.
Proof.
elim: s acc b => [|c s IH] acc b //=.
case: ifP => [_ /IH -> //|_]; rewrite orFb.
by case: eqP => //= _; case: b => // /IH.
Qed.

Lemma int_digits_raise (acc : Z) (b : bool) (s : string) (e : exn) :
  int_digits acc b s = Raise e -> e = ValueError.
Proof.
elim: s acc b => [|c s IH] acc b /=; first by case: b => // -[].
case: ifP => [_ /IH //|_].
by case: ifP => [_ /IH //|_ []].
Qed.

Lemma coordinate_digits (s : string) :
  all_chars (fun c => isdigit c || (c == "_"%char)) s -> all_chars coordinate_char s.
Proof.
apply: all_chars_sub => c /orP [dg|us]; rewrite /coordinate_char ?dg ?us ?orbT //.
Qed.

Lemma lstrip_chars (s : string) : all_chars coordinate_char (lstrip s) -> all_chars coordinate_char s.
Proof.
elim: s => [|c s IH] //=; case: ifP => // sp /IH ->.
by rewrite /coordinate_char sp.
Qed.

Lemma rstrip_chars (s : string) : all_chars coordinate_char (rstrip s) -> all_chars coordinate_char s.
Proof.
elim: s => [|c s IH] //=; case: ifP => [/andP [/eqP r_nil sp] _|_ /= /andP [-> /IH]] //.
by rewrite {1}/coordinate_char sp /= IH // r_nil.
Qed.

Lemma int_chars (s : string) (z : Z) : int s = Ok z -> all_chars coordinate_char s.
Proof.
rewrite /int => H; apply/lstrip_chars/rstrip_chars; move: H.
case: (rstrip (lstrip s)) => [|c t] //.
have digits acc b y : int_digits acc b t = Ok y -> all_chars coordinate_char t.
  by move=> /int_digits_chars /coordinate_digits.
case: (c =P "+"%char) => [-> /digits ok_t|ne_plus]; first by rewrite /= ok_t.
case: (c =P "-"%char) => [->|ne_minus].
  by rewrite /=; case E: (int_digits _ _ _) => [y|] //= _; rewrite (digits _ _ _ E).
move: ne_plus ne_minus; case: c => [[] [] [] [] [] [] [] []] ne_plus ne_minus;
  try (by case: ne_plus); try (by case: ne_minus);
by move=> /int_digits_chars /coordinate_digits.
Qed.

Lemma int_raise (s : string) (e : exn) : int s = Raise e -> e = ValueError.
Proof.
rewrite /int; case: (rstrip (lstrip s)) => [|c t]; first by case.
have digits := @int_digits_raise.
have minus : (z0 <- int_digits 0 false t ;; Ok (- z0)%PZ) = Raise e -> e = ValueError.
  by case E: (int_digits _ _ _) => [y|e'] //= -[<-]; apply: digits E.
by case: c => [[] [] [] [] [] [] [] []] //; apply: digits.
Qed.

Lemma str_split_chars (line : string) :
  all (all_chars coordinate_char) (str_split line) -> all_chars coordinate_char line.
Proof.
elim: line => [|c s IH] //=.
case: ifP => [sp /IH ->|_]; first by rewrite /coordinate_char sp.
case: s IH => [|c' s] IH; first by rewrite /= andbT.
case: ifP => [_ /= /andP [/andP [-> _]] /IH //|_].
by case: (str_split _) IH => [|tok toks] /= IH; rewrite ?andbT;
   [move=> ->; exact: IH | move=> /andP [/andP [-> ok_tok] ok_toks]; apply: IH; rewrite ok_tok].
Qed.

Lemma readlines_chars (text : string) :
  all (all_chars coordinate_char) (readlines text) -> all_chars coordinate_char text.
Proof.
elim: text => [|c s IH] //=.
case: (c =P LF) => [-> /= /IH -> //|_].
case: (c =P CR) => [->|_].
  case: s IH => [|c' s] //= IH.
  by case: (c' =P LF) IH => [-> /= IH ok|_ IH /=]; apply: IH.
by case: (readlines s) IH => [|l ls] /= IH; rewrite ?andbT;
   [move=> ->; exact: IH | move=> /andP [/andP [-> ok_l] ok_ls]; apply: IH; rewrite ok_l].
Qed.

Lemma mapM_all (A B : Type) (P : pred A) (f : A -> result B) (l : seq A) (r : seq B) :
  (forall x y, f x = Ok y -> P x) -> mapM f l = Ok r -> all P l.
Proof.
move=> fP; elim: l r => [|x l IH] r //=.
case E: (f x) => [y|] //=; case E': (mapM f l) => [ys|] //= _.
by rewrite (fP _ _ E) (IH _ E').
Qed.

Lemma mapM_raise (A B : Type) (f : A -> result B) (l : seq A) (e e0 : exn) :
  (forall x e', f x = Raise e' -> e' = e0) -> mapM f l = Raise e -> e = e0.
Proof.
move=> fe; elim: l e => [|x l IH] e //=.
case E: (f x) => [y|e'] /=; last by case=> <-; exact: fe E.
by case E': (mapM f l) => [ys|e'] //= -[<-]; exact: (IH _ E').
Qed.

Lemma contains_all_chars (P : pred ascii) (c : ascii) (s : string) :
  contains c s -> all_chars P s -> P c.
Proof.
by elim: s => [|c' s IH] //= /orP [/eqP -> /andP []|/IH H /andP [_ /H]].
Qed.

(** X22. A box file that holds a character other than whitespace, digits,
    signs and underscores (a decimal point, say, in a coordinate written as
    a float) is refused with ValueError. *)
Theorem read_coordList_refuses (text : string) (c : ascii) :
  contains c text ->
  ~~ coordinate_char c ->
  read_coordList text = Raise ValueError.
Proof.
move=> c_in not_allowed.
case E: (read_coordList text) => [coordList|e].
  have ok_text : all_chars coordinate_char text.
    apply: readlines_chars; apply: mapM_all E => line fields.
    move=> /(mapM_all int_chars); exact: str_split_chars.
  by move: not_allowed; rewrite (contains_all_chars c_in ok_text).
congr Raise; apply: mapM_raise E => line e'.
by apply: mapM_raise => tok e''; exact: int_raise.
Qed.

End BoxFileFacts.

Section PathFacts.
Import Py OsPath EmanFiles.

Lemma join_isabs (a b : string) : isabs b -> join a b = b.
Proof. by rewrite /join /isabs => ->. Qed.

Lemma dirname_bare (p : string) : ~~ contains sep p -> dirname p = EmptyString.
Proof. by rewrite /dirname; case: p => //= c p /negbTE ->. Qed.

Lemma join_nil (b : string) : join EmptyString b = b.
Proof. by rewrite /join /=; case: ifP. Qed.

Lemma head_of_append_sep (a p : string) :
  ~~ contains sep p -> head_of (String.append a (String sep p)) = String.append a (String sep EmptyString).
Proof.
move=> bare; elim: a => [|c a IH] /=.
  by case: p bare => //= c p /negbTE ->.
by rewrite contains_append /= !orbT IH.
Qed.

Lemma all_sep_append_sep (a : string) :
  all_sep (String.append a (String sep EmptyString)) = all_sep a.
Proof. by elim: a => [|c a IH] //=; rewrite IH. Qed.

Lemma rstrip_sep_append_sep (a : string) :
  rstrip_sep (String.append a (String sep EmptyString)) = rstrip_sep a.
Proof. by elim: a => [|c a IH] //=; rewrite IH. Qed.

Lemma all_sep_cons (c : ascii) (s : string) :
  all_sep (String c s) = (c == sep) && all_sep s.
Proof. by []. Qed.

Lemma rstrip_sep_cons (c : ascii) (s : string) :
  rstrip_sep (String c s)
  = if (rstrip_sep s == EmptyString) && (c == sep) then EmptyString
    else String c (rstrip_sep s).
Proof. by []. Qed.

Lemma basename_bare (p : string) : ~~ contains sep p -> basename p = p.
Proof. by case: p => //= c p /negbTE ->. Qed.

Lemma basename_append_sep (a p : string) :
  ~~ contains sep p -> basename (String.append a (String sep p)) = p.
Proof.
move=> bare; elim: a => [|c a IH] /=; first exact: basename_bare.
by rewrite contains_append /= !orbT.
Qed.

Lemma not_endswith_sep (a : string) :
  a != EmptyString -> ~~ endswith_sep a -> ~~ all_sep a /\ rstrip_sep a = a.
Proof.
elim: a => [|c a IH] // _; case: a IH => [|c' a] IH.
  by rewrite /= andbT => /negbTE ->.
move=> not_end; have [/negbTE not_all strip] := IH isT not_end.
by rewrite all_sep_cons not_all andbF rstrip_sep_cons strip.
Qed.

(** X23. How the entries of the STAR file are resolved: an absolute entry is
    used as it is, whatever [data_folder] and the location of the STAR file;
    without a [data_folder], for a STAR file named without a directory,
    every entry is used as it is; and an entry that is a bare file name
    resolves to the file of that name directly in the folder it is joined
    to: the directory part of the resolved path is that folder and its file
    part is the entry (when the folder does not end with a separator). *)
Theorem resolve_paths_entries
    (filepath : string) (data_folder : option string) (column : seq string) :
  [/\ all isabs column -> resolve_paths filepath data_folder column = column,
      ~~ contains sep filepath -> resolve_paths filepath None column = column
    & ~~ endswith_sep (resolve_data_folder filepath data_folder) ->
      all (fun p => ~~ contains sep p) column ->
      [seq (dirname q, basename q) | q <- resolve_paths filepath data_folder column]
      = [seq (resolve_data_folder filepath data_folder, p) | p <- column]].
Proof.
rewrite /resolve_paths; split=> [abs|bare|].
- by elim: column abs => //= p column IH /andP [/join_isabs -> /IH ->].
- by rewrite /= dirname_bare //; elim: column => //= p column ->; rewrite join_nil.
set folder := resolve_data_folder _ _ => not_end.
elim: column => //= p column IH /andP [bare /IH ->]; congr (_ :: _).
rewrite /join (negbTE not_end) orbF.
have -> : startswith_sep p = false by case: p bare => //= c p; rewrite negb_or => /andP [/negbTE ->].
case: eqP => [->|/eqP nonempty]; first by rewrite /= dirname_bare // basename_bare.
have [not_all strip] := not_endswith_sep nonempty not_end.
rewrite basename_append_sep //; congr (_, _).
rewrite /dirname head_of_append_sep // all_sep_append_sep not_all andbT.
by rewrite rstrip_sep_append_sep strip; case: (folder) nonempty.
Qed.

End PathFacts.

Section BoxFileBlankLines.
Import Py Text EmanFiles.

Lemma str_split_blank (blank : string) :
  all_chars isspace blank -> str_split blank = [::].
Proof. by elim: blank => //= c s IH /andP [-> /IH]. Qed.

(** X25. A line of a box file that holds nothing, or blanks only, is read
    as a particle with an empty coordinate list. *)
Theorem read_coordList_blank_line (blank rest : string) :
  all_chars (fun c => [&& isspace c, c != LF & c != CR]) blank ->
  read_coordList (String.append blank (String LF rest))
  = (coordList <- read_coordList rest ;; Ok ([::] :: coordList)).
Proof.
move=> blank_ok.
have noeol : all_chars (fun c => (c != LF) && (c != CR)) blank.
  by apply: all_chars_sub blank_ok => c /and3P [_ -> ->].
have spaces : all_chars isspace (String.append blank (String LF EmptyString)).
  rewrite all_chars_append /= andbT.
  by apply: all_chars_sub blank_ok => c /and3P [].
by rewrite /read_coordList readlines_line //= str_split_blank.
Qed.

End BoxFileBlankLines.

Section FilesRuns.
Import Py OsPath Text EmanFiles CoordinateSourceTest.

(** A coordinate written as the float 1.5. *)
Lemma read_coordList_refuses_run :
  read_coordList "1.5 2 256 256" = Raise ValueError.
Proof. by apply: (@read_coordList_refuses "1.5 2 256 256" "."%char). Defined.

(** Absolute entries; a STAR file in the working directory; and bare file
    names under the STAR file's folder. *)
Lemma resolve_paths_entries_run :
  [/\ resolve_paths "data/x.star" (Some "raw"%string) [:: "/mnt/a.mrc"%string]
        = [:: "/mnt/a.mrc"%string],
      resolve_paths "x.star" None [:: "a.mrc"%string] = [:: "a.mrc"%string]
    & [seq (dirname q, basename q)
      | q <- resolve_paths "data/x.star" (Some "raw"%string)
               [:: "a.mrc"%string; "b.mrc"%string]]
      = [:: ("data/raw"%string, "a.mrc"%string); ("data/raw"%string, "b.mrc"%string)]].
Proof.
have [abs _ _] := resolve_paths_entries "data/x.star" (Some "raw"%string) [:: "/mnt/a.mrc"%string].
have [_ bare _] := resolve_paths_entries "x.star" None [:: "a.mrc"%string].
have [_ _ dirs] := resolve_paths_entries "data/x.star" (Some "raw"%string)
                     [:: "a.mrc"%string; "b.mrc"%string].
by split; [apply: abs | apply: bare | apply: dirs].
Defined.

(** An empty first line, then one box. *)
Lemma read_coordList_blank_line_run :
  read_coordList (String LF "1 2 4 4") = Ok [:: [::]; [:: 1; 2; 4; 4]%PZ].
Proof. exact: (@read_coordList_blank_line EmptyString "1 2 4 4" isT). Defined.

End FilesRuns.

(* --------------------------------------------------------------------- *)
(** ** EmanSource construction                                            *)
(* --------------------------------------------------------------------- *)

Section EmanInitFacts.
Import Py Text EmanFiles Eman.
Variable pixel : Type.

Local Opaque getitem setitem.

Lemma bind_Ok (A B : Type) (a : A) (k : A -> result B) : bind (Ok a) k = k a.
Proof. by []. Qed.

(** Indexing and item assignment at a literal index. *)
Lemma getitem_at (A : Type) (k : nat) (x0 : A) (l : seq A) (i : Z) :
  i = Z.of_nat k -> k < size l -> getitem l i = Ok (nth x0 l k).
Proof. by move=> ->; exact: getitem_nat. Qed.

Lemma getitem_short (A : Type) (k : nat) (l : seq A) (i : Z) :
  i = Z.of_nat k -> size l <= k -> getitem l i = Raise IndexError.
Proof.
move=> -> /ssrnat.leP le_k; apply: getitem_outside; right.
by lia.
Qed.

Lemma setitem_at (A : Type) (k : nat) (l : seq A) (i : Z) (v : A) :
  i = Z.of_nat k -> k < size l -> setitem l i v = Ok (set_nth v l k v).
Proof. by move=> ->; exact: setitem_nat. Qed.

Lemma force_coords_recentred (new_size old_size : Z) (coords : seq Z) :
  3 < size coords ->
  force_coords new_size old_size coords = Ok (recentred old_size new_size coords).
Proof.
case: coords => [|x [|y [|w [|h more]]]] // _.
rewrite /force_coords /recentred.
rewrite (@setitem_at _ 2) // bind_Ok.
rewrite (@setitem_at _ 3) // bind_Ok.
rewrite (@getitem_at _ 0 0%PZ) // bind_Ok.
rewrite (@setitem_at _ 0) // bind_Ok.
rewrite (@getitem_at _ 1 0%PZ) // bind_Ok.
rewrite (@setitem_at _ 1) // bind_Ok.
by rewrite /= drop0.
Qed.

Lemma In_mem (T : eqType) (x : T) (s : seq T) : List.In x s -> x \in s.
Proof.
elim: s => [|y s IH] //= [->|/IH x_in]; first exact: mem_head.
by rewrite inE x_in orbT.
Qed.

(** A new size that fits is applied to every coordinate list of every
    micrograph. *)
Lemma force_particle_size_fits (d : dict (seq (seq Z))) (new_size old_size : Z) :
  (new_size <= old_size)%PZ ->
  all (fun kv => all (fun coords : seq Z => 3 < size coords) kv.2) d ->
  force_particle_size d new_size old_size =
  Ok [seq (kv.1, [seq recentred old_size new_size c | c <- kv.2]) | kv <- d].
Proof.
move=> le_new wf; rewrite /force_particle_size.
have -> : (old_size <? new_size)%PZ = false by apply/Z.ltb_ge.
apply: mapM_ok => kv /In_mem kv_in.
have /allP wf_kv := allP wf _ kv_in.
rewrite (mapM_ok (g := recentred old_size new_size)) // => c /In_mem c_in.
exact/force_coords_recentred/wf_kv.
Qed.

Lemma force_particle_size_too_large (d : dict (seq (seq Z))) (new_size old_size : Z) :
  (old_size < new_size)%PZ -> force_particle_size d new_size old_size = Raise ValueError.
Proof. by rewrite /force_particle_size => /Z.ltb_lt ->. Qed.

(** The modes of the dictionary of line 65 are modes [mrcfile] reads. *)
Lemma dtypes_mode (mode : Z) (dt : dtype) :
  dtypes mode = Ok dt -> mode \in mrcfile_modes.
Proof.
rewrite /dtypes /mrcfile_modes !inE.
by do 4!(case: Z.eqb_spec => [-> //|_]).
Qed.

Lemma open_mrc_supported (fs : filesystem pixel) (path : string)
    (mrc : mrc_file pixel) (dt : dtype) :
  mrc_files fs path = Some mrc -> dtypes (mrc_mode mrc) = Ok dt ->
  open_mrc fs path = Ok mrc.
Proof. by rewrite /open_mrc => -> /dtypes_mode ->. Qed.

Lemma open_mrc_inv (fs : filesystem pixel) (path : string) (mrc : mrc_file pixel) :
  open_mrc fs path = Ok mrc ->
  mrc_files fs path = Some mrc /\ mrc_mode mrc \in mrcfile_modes.
Proof.
rewrite /open_mrc; case: (mrc_files fs path) => [f|] //.
by case: ifP => // ok_f [<-].
Qed.

Lemma read_box_inv (fs : filesystem pixel) (path : string) (lines : seq (seq Z)) :
  read_box fs path = Ok lines ->
  exists2 text, box_files fs path = Some text & read_coordList text = Ok lines.
Proof.
rewrite /read_box /open_box; case: (box_files fs path) => [text|] //= ok_text.
by exists text.
Qed.

Lemma read_box_text (fs : filesystem pixel) (path text : string) :
  box_files fs path = Some text -> read_box fs path = read_coordList text.
Proof. by rewrite /read_box /open_box => ->. Qed.

(** Lines 81-84 read the first line of the box file again; on a file that
    the loop of lines 49-55 has read, they find the fields the loop has
    stored. *)
Lemma first_line_fields (A : Type) (text : string) (lines : seq (seq Z))
    (K : Z -> Z -> result A) :
  read_coordList text = Ok lines ->
  (first_line <- getitem (readlines text) 0%PZ ;;
   L_field <- getitem (str_split first_line) 2%PZ ;;
   L <- int L_field ;;
   other_field <- getitem (str_split first_line) 3%PZ ;;
   other_side <- int other_field ;;
   K L other_side)
  = (first_line <- getitem lines 0%PZ ;;
     L <- getitem first_line 2%PZ ;;
     other_side <- getitem first_line 3%PZ ;;
     K L other_side).
Proof.
rewrite /read_coordList; case: (readlines text) => [|l ls] /=.
  by case=> <-; rewrite !getitem_nil.
case E: (mapM int (str_split l)) => [f|] //=.
case E': (mapM _ ls) => [fs'|] //= -[<-].
rewrite (@getitem_at _ 0 EmptyString) // (@getitem_at _ 0 [::]) // !bind_Ok.
rewrite [nth _ _ 0]/= [nth _ (f :: _) 0]/=.
have sz := mapM_size E.
case: (ltnP 2 (size f)) => [lt2|le2]; last first.
  rewrite [getitem (str_split l) 2%PZ](@getitem_short _ 2) -?sz //.
  by rewrite [getitem f 2%PZ](@getitem_short _ 2).
rewrite [getitem (str_split l) 2%PZ](@getitem_at _ 2 EmptyString) -?sz // bind_Ok.
rewrite (mapM_nth EmptyString 0%PZ E) -?sz // bind_Ok.
rewrite [getitem f 2%PZ](@getitem_at _ 2 0%PZ) // bind_Ok.
case: (ltnP 3 (size f)) => [lt3|le3]; last first.
  rewrite [getitem (str_split l) 3%PZ](@getitem_short _ 3) -?sz //.
  by rewrite [getitem f 3%PZ](@getitem_short _ 3).
rewrite [getitem (str_split l) 3%PZ](@getitem_at _ 3 EmptyString) -?sz // bind_Ok.
rewrite (mapM_nth EmptyString 0%PZ E) -?sz // bind_Ok.
by rewrite [getitem f 3%PZ](@getitem_at _ 3 0%PZ).
Qed.

(** The loop of lines 49-55 stops at the first box file that is not read. *)
Lemma populate_raise (fs : filesystem pixel) (r1 r2 : seq (string * string))
    (row : string * string) (d0 : dict (seq (seq Z))) (e : exn) :
  all (fun r => if read_box fs r.2 is Ok _ then true else false) r1 ->
  read_box fs row.2 = Raise e ->
  populate fs (r1 ++ row :: r2) d0 = Raise e.
Proof.
move=> + bad; elim: r1 d0 => [|r r1 IH] d0 /=; first by rewrite bad.
by case: (read_box fs r.2) => [coordList|] //= /IH.
Qed.

Lemma populate_reads (fs : filesystem pixel) (r1 r2 : seq (string * string))
    (row : string * string) (d0 d : dict (seq (seq Z))) :
  populate fs (r1 ++ row :: r2) d0 = Ok d ->
  exists lines, read_box fs row.2 = Ok lines.
Proof.
elim: r1 d0 => [|r r1 IH] d0 /=; last first.
  by case: (read_box fs r.2) => [coordList|] //=; exact: IH.
by case: (read_box fs row.2) => [lines|] //= _; exists lines.
Qed.

Lemma populate_ext (fs fs' : filesystem pixel) (rows : seq (string * string))
    (d0 : dict (seq (seq Z))) :
  (forall row, row \in rows -> box_files fs row.2 = box_files fs' row.2) ->
  populate fs rows d0 = populate fs' rows d0.
Proof.
elim: rows d0 => [|row rows IH] d0 //= same.
rewrite /read_box /open_box -(same row) ?mem_head //.
case: (box_files fs row.2) => [text|] //=.
case: (read_coordList text) => [lines|] //=.
by apply: IH => r r_in; apply: same; rewrite inE r_in orbT.
Qed.

(** The constructor unfolded at a STAR file with a first row, box files
    that are read and a first micrograph that opens. *)
Lemma init_eq (fs : filesystem pixel) (particle_size : Z)
    (mrc0 box0 : string) (rest : seq (string * string))
    (d : dict (seq (seq Z))) (mrc : mrc_file pixel) :
  star_rows fs = (mrc0, box0) :: rest ->
  populate fs (star_rows fs) [::] = Ok d ->
  open_mrc fs mrc0 = Ok mrc ->
  init fs particle_size =
  (dt <- dtypes (mrc_mode mrc) ;;
   if shape_of (mrc_contents mrc) is [:: X; Y] then
     lines <- read_box fs box0 ;;
     first_line <- getitem lines 0%PZ ;;
     L <- getitem first_line 2%PZ ;;
     other_side <- getitem first_line 3%PZ ;;
     if L != other_side then Raise ValueError
     else
       dL <- (if particle_size != 0%PZ
              then d' <- force_particle_size d particle_size L ;; Ok (d', particle_size)
              else Ok (d, L)) ;;
       Ok (Build_EmanSource dL.1 X Y dL.2 (sumn [seq size kv.2 | kv <- d]) dt)
   else Raise ValueError).
Proof.
move=> rows pop mrc_ok.
have [lines0 box_ok] : exists lines, read_box fs (mrc0, box0).2 = Ok lines.
  by move: pop; rewrite rows; exact: (@populate_reads fs [::]).
have [text text_ok read_ok] := read_box_inv box_ok.
rewrite /init pop bind_Ok rows [map _ _]/= [map _ (_ :: _)]/=.
rewrite (@getitem_at _ 0 EmptyString) // bind_Ok [nth _ _ _]/= mrc_ok bind_Ok.
case: (dtypes _) => [dt|] //=.
case: (shape_of _) => [|X [|Y [|? ?]]] //=.
rewrite (@getitem_at _ 0 0) // bind_Ok (@getitem_at _ 1 0) // bind_Ok.
rewrite (@getitem_at _ 0 EmptyString) // bind_Ok [nth _ _ _]/=.
rewrite /= in box_ok text_ok; rewrite box_ok /open_box text_ok !bind_Ok.
exact: first_line_fields read_ok.
Qed.

(** What a successful construction tells about the files. *)
Lemma init_inv (fs : filesystem pixel) (particle_size : Z) (src : EmanSource) :
  init fs particle_size = Ok src ->
  exists mrc0 box0 rest d mrc,
    [/\ star_rows fs = (mrc0, box0) :: rest,
        populate fs (star_rows fs) [::] = Ok d
      & open_mrc fs mrc0 = Ok mrc].
Proof.
rewrite /init.
case pop: (populate fs (star_rows fs) [::]) => [d|] //=.
case rows: (star_rows fs) => [|[mrc0 box0] rest] /=; first by rewrite getitem_nil.
rewrite (@getitem_at _ 0 EmptyString) // bind_Ok [nth _ _ _]/=.
case mrc_ok: (open_mrc fs mrc0) => [mrc|] //= _.
by exists mrc0, box0, rest, d, mrc; rewrite -rows.
Qed.

(** The re-cropped box of a box of the size the first line records is
    centred in it. *)
Lemma recentred_centred (w p : Z) (c : seq Z) :
  (0 < p <= w)%PZ -> nth 0%PZ c 2 = w -> nth 0%PZ c 3 = w ->
  centred_in c (recentred w p c).
Proof.
move=> [lt0 le_w] c2 c3; rewrite /centred_in /recentred /= c2 c3 !andbT.
have [le0t le_tL] : (0 <= (w - p) / 2)%PZ /\ (2 * ((w - p) / 2) <= w - p <= 2 * ((w - p) / 2) + 1)%PZ.
  split; first by apply: Z.div_pos; lia.
  have := Z.div_mod (w - p) 2; have := Z.mod_pos_bound (w - p) 2.
  by lia.
by apply/and4P; split; [apply/and3P; split|..]; apply/Z.leb_le; lia.
Qed.

(** C9. Let the STAR file list at least one micrograph, every box file it
    names be read ([populate] returns the coordinates [d]), the first
    micrograph be of mode 0, 1, 2 or 6, and the first line of the first box
    file read [x y w h ...]. Then: with [w <> h] the construction raises
    ValueError; with a non-zero [particle_size > w] it raises ValueError;
    and with [w = h], [0 < particle_size <= w], a two-dimensional first
    micrograph and four fields on every box line, it succeeds with particle
    size [particle_size] and every stored coordinate list rewritten by
    [recentred w particle_size]: the new box of every box of size [w x w]
    is centred in it. *)
Theorem init_particle_size
  (fs : filesystem pixel) (particle_size : Z)
  (mrc0 box0 : string) (rest : seq (string * string))
  (d : dict (seq (seq Z))) (mrc : mrc_file pixel) (dt : dtype)
  (x y w h : Z) (more : seq Z) (lines : seq (seq Z)) :
  star_rows fs = (mrc0, box0) :: rest ->
  populate fs (star_rows fs) [::] = Ok d ->
  mrc_files fs mrc0 = Some mrc ->
  dtypes (mrc_mode mrc) = Ok dt ->
  read_box fs box0 = Ok ([:: x, y, w, h & more] :: lines) ->
  [/\ w != h -> init fs particle_size = Raise ValueError,
      particle_size != 0%PZ -> (w < particle_size)%PZ ->
      init fs particle_size = Raise ValueError
    & w = h -> (0 < particle_size <= w)%PZ ->
      size (shape_of (mrc_contents mrc)) = 2 ->
      all (fun kv => all (fun coords : seq Z => 3 < size coords) kv.2) d ->
      exists src,
        [/\ init fs particle_size = Ok src,
            original_resolution src = particle_size,
            mrc2coords src =
            [seq (kv.1, [seq recentred w particle_size c | c <- kv.2]) | kv <- d]
          & all (fun kv : string * seq (seq Z) =>
                   all (fun c => (nth 0%PZ c 2 == w) && (nth 0%PZ c 3 == w)
                                 ==> centred_in c (recentred w particle_size c))
                       kv.2) d]].
Proof.
move=> rows pop mrc_some dt_ok box_ok.
have mrc_ok := open_mrc_supported mrc_some dt_ok.
have init_eq' : init fs particle_size =
    if shape_of (mrc_contents mrc) is [:: X; Y] then
      if w != h then Raise ValueError
      else
        dL <- (if particle_size != 0%PZ
               then d' <- force_particle_size d particle_size w ;; Ok (d', particle_size)
               else Ok (d, w)) ;;
        Ok (Build_EmanSource dL.1 X Y dL.2 (sumn [seq size kv.2 | kv <- d]) dt)
    else Raise ValueError.
  rewrite (init_eq _ rows pop mrc_ok) dt_ok bind_Ok.
  case: (shape_of _) => [|X [|Y [|? ?]]] //=.
  rewrite box_ok bind_Ok (@getitem_at _ 0 [::]) // bind_Ok.
  rewrite (@getitem_at _ 2 0%PZ) // bind_Ok.
  by rewrite (@getitem_at _ 3 0%PZ) // bind_Ok.
split.
- move=> neq_wh; rewrite init_eq' neq_wh.
  by case: (shape_of _) => [|X [|Y [|? ?]]].
- move=> nz gt_w; rewrite init_eq' nz force_particle_size_too_large //.
  by case: (shape_of _) => [|X [|Y [|? ?]]] //=; case: ifP.
- move=> eq_wh range shape2 wf.
  have nz : particle_size != 0%PZ by apply/eqP; lia.
  have le_w : (particle_size <= w)%PZ by lia.
  rewrite init_eq' eq_wh eqxx nz /= -eq_wh force_particle_size_fits //.
  case: (shape_of _) shape2 => [|X [|Y [|? ?]]] // _.
  eexists; split=> //=.
  apply/allP => kv _; apply/allP => c _; apply/implyP => /andP [/eqP c2 /eqP c3].
  exact: recentred_centred.
Qed.

End EmanInitFacts.

(** Every source the constructor returns has distinct micrograph paths and
    counts its particles. *)
Section EmanInvariants.
Import Py Text EmanFiles Eman.
Variable pixel : Type.

Local Opaque getitem setitem.

Lemma keys_dict_set (V : Type) (d : dict V) (k : string) (v : V) :
  keys (dict_set d k v) = if k \in keys d then keys d else rcons (keys d) k.
Proof.
elim: d => [|kv d IH] //=; rewrite inE eq_sym.
by case: eqP => [->|_] //=; rewrite IH; case: ifP.
Qed.

Lemma uniq_dict_set (V : Type) (d : dict V) (k : string) (v : V) :
  uniq (keys d) -> uniq (keys (dict_set d k v)).
Proof.
rewrite keys_dict_set; case: ifPn => // k_notin uniq_d.
by rewrite rcons_uniq k_notin.
Qed.

Lemma populate_uniq (fs : filesystem pixel) (rows : seq (string * string))
    (d0 d : dict (seq (seq Z))) :
  uniq (keys d0) -> populate fs rows d0 = Ok d -> uniq (keys d).
Proof.
elim: rows d0 => [|row rows IH] d0 uniq_d0 /=; first by case=> <-.
case: (read_box fs row.2) => [coordList|] //=.
exact/IH/uniq_dict_set.
Qed.

Lemma force_particle_size_shape (d d' : dict (seq (seq Z))) (new_size old_size : Z) :
  force_particle_size d new_size old_size = Ok d' ->
  keys d' = keys d /\ [seq size kv.2 | kv <- d'] = [seq size kv.2 | kv <- d].
Proof.
rewrite /force_particle_size; case: ifP => // _.
elim: d d' => [|kv d IH] d' /=; first by case=> <-.
case E: (mapM (force_coords new_size old_size) kv.2) => [coordsList|] //=.
case E': (mapM _ d) => [d1|] //= -[<-] /=.
by have [-> ->] := IH _ E'; rewrite (mapM_size E).
Qed.

Lemma size_particles (d : dict (seq (seq Z))) :
  size (particles d) = sumn [seq size kv.2 | kv <- d].
Proof.
rewrite /particles size_flatten /shape -map_comp.
by congr (sumn _); apply: eq_map => kv /=; rewrite size_map.
Qed.

(** The stored dictionary: the populated one, rewritten when a particle size
    is forced; and the stored count. *)
Lemma init_mrc2coords (fs : filesystem pixel) (particle_size : Z) (src : EmanSource)
    (d : dict (seq (seq Z))) :
  init fs particle_size = Ok src ->
  populate fs (star_rows fs) [::] = Ok d ->
  n src = sumn [seq size kv.2 | kv <- d]
  /\ if particle_size != 0%PZ
     then exists2 L, force_particle_size d particle_size L = Ok (mrc2coords src)
                     & original_resolution src = particle_size
     else mrc2coords src = d.
Proof.
move=> H pop; have [mrc0 [box0 [rest [d' [mrc [rows pop' mrc_ok]]]]]] := init_inv H.
move: H; rewrite (init_eq _ rows pop mrc_ok).
case: (dtypes _) => [dt|] //=.
case: (shape_of _) => [|X [|Y [|? ?]]] //.
case: (read_box fs box0) => [lines|] //=.
case: (getitem lines 0%PZ) => [first_line|] //=.
case: (getitem first_line 2%PZ) => [L|] //=.
case: (getitem first_line 3%PZ) => [other_side|] //=.
case: ifP => // _.
case: ifP => _ /=; last by case=> <-.
case E: (force_particle_size d particle_size L) => [d1|] //= -[<-] /=.
by split=> //; exists L.
Qed.

(** X1. A constructed source has pairwise distinct micrograph paths, and
    its [n] is the number of stored coordinate lists. *)
Lemma init_invariants (fs : filesystem pixel) (particle_size : Z) (src : EmanSource) :
  init fs particle_size = Ok src ->
  uniq (keys (mrc2coords src)) /\ n src = size (particles (mrc2coords src)).
Proof.
move=> H; have [mrc0 [box0 [rest [d [mrc [rows pop mrc_ok]]]]]] := init_inv H.
have uniq_d := populate_uniq (isT : uniq (keys [::])) pop.
have [-> ] := init_mrc2coords H pop.
case: ifP => _; last by move=> ->; rewrite size_particles.
case=> L E _; have [-> sizes] := force_particle_size_shape E.
by rewrite size_particles sizes.
Qed.

End EmanInvariants.

(* --------------------------------------------------------------------- *)
(** ** EmanSource construction: files and edge cases *)
(* --------------------------------------------------------------------- *)

Section EmanInitEdges.
Import Py Text EmanFiles Eman.
Variable pixel : Type.

Local Opaque getitem setitem.

(** X6. The box files are read in the order of the STAR rows, and the first
    one that is not read decides: when the box files of the rows before a
    row are read, and this row's box file is missing, the constructor raises
    FileNotFoundError; when it is not read for another reason (a field that
    is no integer raises ValueError), the constructor raises that exception;
    whatever the rows after it, the micrographs and [particle_size]. *)
Theorem init_missing_box_file
    (fs : filesystem pixel) (particle_size : Z)
    (r1 r2 : seq (string * string)) (m b : string) :
  star_rows fs = r1 ++ (m, b) :: r2 ->
  all (fun row => if read_box fs row.2 is Ok _ then true else false) r1 ->
  (box_files fs b = None -> init fs particle_size = Raise FileNotFoundError)
  /\ (forall e, read_box fs b = Raise e -> init fs particle_size = Raise e).
Proof.
move=> rows read_r1.
have raises e : read_box fs b = Raise e -> init fs particle_size = Raise e.
  by move=> bad; rewrite /init rows (@populate_raise _ fs r1 r2 (m, b) [::] e read_r1 bad).
by split=> // missing; apply: raises; rewrite /read_box /open_box missing.
Qed.

(** X7. The constructor opens the first micrograph only: two file systems
    with the same STAR rows, the same box files for these rows and the same
    first micrograph give the same result, whatever their other micrographs
    are, or whether they exist. *)
Theorem init_opens_first_micrograph_only
    (fs fs' : filesystem pixel) (particle_size : Z) :
  star_rows fs = star_rows fs' ->
  (forall row, row \in star_rows fs -> box_files fs row.2 = box_files fs' row.2) ->
  mrc_files fs (head (EmptyString, EmptyString) (star_rows fs)).1
    = mrc_files fs' (head (EmptyString, EmptyString) (star_rows fs)).1 ->
  init fs particle_size = init fs' particle_size.
Proof.
move=> same_rows same_box same_mrc.
rewrite /init -same_rows -(populate_ext _ same_box).
case: (populate _ _ _) => [d|] //=.
case rows: (star_rows fs) same_box same_mrc => [|[mrc0 box0] rest] //= same_box same_mrc.
rewrite (@getitem_at _ 0 EmptyString) // !bind_Ok [nth _ _ _]/=.
rewrite (@getitem_at _ 0 EmptyString) // [nth _ _ _]/=.
have /= sb := same_box (mrc0, box0) (mem_head _ _).
by rewrite /open_mrc /open_box -same_mrc -sb.
Qed.

(** X8. Once the box files are read, the first micrograph is checked: a
    mode that [mrcfile] does not read raises ValueError, from
    [mrcfile.open]; a mode that it reads and that is not 0, 1, 2 or 6 (mode
    4 or 12) raises KeyError, from the [dtypes] dictionary, also for a
    micrograph that is not two-dimensional; with a mode among 0, 1, 2, 6, a
    micrograph that is not two-dimensional raises ValueError, whatever the
    first box file holds. *)
Theorem init_first_micrograph_checked
    (fs : filesystem pixel) (particle_size : Z)
    (mrc0 box0 : string) (rest : seq (string * string))
    (d : dict (seq (seq Z))) (mrc : mrc_file pixel) :
  star_rows fs = (mrc0, box0) :: rest ->
  populate fs (star_rows fs) [::] = Ok d ->
  mrc_files fs mrc0 = Some mrc ->
  [/\ mrc_mode mrc \notin mrcfile_modes -> init fs particle_size = Raise ValueError,
      mrc_mode mrc \in mrcfile_modes -> mrc_mode mrc \notin [:: 0; 1; 2; 6]%PZ ->
      init fs particle_size = Raise KeyError
    & mrc_mode mrc \in [:: 0; 1; 2; 6]%PZ -> size (shape_of (mrc_contents mrc)) != 2 ->
      init fs particle_size = Raise ValueError].
Proof.
move=> rows pop mrc_some; split.
- move=> /negbTE unknown; rewrite /init pop bind_Ok rows [map _ _]/=.
  by rewrite (@getitem_at _ 0 EmptyString) // bind_Ok /open_mrc mrc_some unknown.
- move=> known; have mrc_ok : open_mrc fs mrc0 = Ok mrc by rewrite /open_mrc mrc_some known.
  rewrite (init_eq _ rows pop mrc_ok) /dtypes !inE !negb_or => /and4P [m0 m1 m2 m6].
  have neq (k : Z) : mrc_mode mrc != k -> (mrc_mode mrc =? k)%PZ = false.
    by move=> /eqP ne; apply/Z.eqb_neq.
  by rewrite !neq.
- have dt_ok : mrc_mode mrc \in [:: 0; 1; 2; 6]%PZ -> exists dt, dtypes (mrc_mode mrc) = Ok dt.
    by rewrite !inE => /or4P [] /eqP ->; eexists.
  move=> /dt_ok [dt dt_ok'].
  rewrite (init_eq _ rows pop (open_mrc_supported mrc_some dt_ok')) dt_ok' /=.
  by case: (shape_of _) => [|X [|Y [|? ?]]].
Qed.

(** X9. An empty first block of the STAR file, an empty first box file, or a
    first box line of fewer than four fields, raise IndexError. *)
Theorem init_empty_inputs (fs : filesystem pixel) (particle_size : Z) :
  (star_rows fs = [::] -> init fs particle_size = Raise IndexError)
  /\ (forall mrc0 box0 rest d mrc dt lines,
        star_rows fs = (mrc0, box0) :: rest ->
        populate fs (star_rows fs) [::] = Ok d ->
        mrc_files fs mrc0 = Some mrc ->
        dtypes (mrc_mode mrc) = Ok dt ->
        size (shape_of (mrc_contents mrc)) = 2 ->
        read_box fs box0 = Ok lines ->
        size (head [::] lines) < 4 ->
        init fs particle_size = Raise IndexError).
Proof.
split=> [rows|mrc0 box0 rest d mrc dt lines rows pop mrc_some dt_ok shape2 box_ok short].
  by rewrite /init rows /= getitem_nil.
rewrite (init_eq _ rows pop (open_mrc_supported mrc_some dt_ok)) dt_ok bind_Ok.
case: (shape_of _) shape2 => [|X [|Y [|? ?]]] // _.
rewrite box_ok bind_Ok.
case: lines short {box_ok} => [|[|x [|y [|w [|h more]]]] lines] //= _;
  rewrite ?getitem_nil //.
Qed.

Lemma undup_later (T : eqType) (k : T) (a b : seq T) :
  k \in b -> undup (a ++ k :: b) = undup (a ++ b).
Proof.
move=> k_in; elim: a => [|x a IH] /=; first by rewrite k_in.
by rewrite IH !mem_cat inE; case: (x =P k) => [->|_] //; rewrite k_in !orbT.
Qed.

(** The keys of the dictionary after the loop of lines 49-55: the micrograph
    paths in the order of their first occurrence. *)
Lemma keys_populate (fs : filesystem pixel) (rows : seq (string * string))
    (d0 d : dict (seq (seq Z))) :
  uniq (keys d0) -> populate fs rows d0 = Ok d ->
  keys d = rev (undup (rev (keys d0 ++ [seq row.1 | row <- rows]))).
Proof.
elim: rows d0 => [|row rows IH] d0 uniq_d0 /=.
  by case=> <-; rewrite cats0 undup_id ?rev_uniq // revK.
case: (read_box fs row.2) => [coordList|] //= pop.
rewrite (IH _ (uniq_dict_set _ _ uniq_d0) pop) keys_dict_set.
case: ifPn => [k_in|_]; last by rewrite cat_rcons.
by rewrite !rev_cat rev_cons -cats1 -catA /= undup_later // mem_rev.
Qed.

Lemma dict_get_set (V : Type) (d : dict V) (k k' : string) (v : V) :
  dict_get (dict_set d k v) k' = if k' == k then Ok v else dict_get d k'.
Proof.
elim: d => [|kv d IH] /=; first by rewrite eq_sym.
case: (kv.1 =P k) => [eq_k|ne_k] /=.
  by rewrite eq_k eq_sym; case: (k' =P k).
by rewrite IH; case: (kv.1 =P k') => // <-; case: (kv.1 =P k).
Qed.

Lemma populate_get_notin (fs : filesystem pixel) (rows : seq (string * string))
    (d0 d : dict (seq (seq Z))) (m : string) :
  m \notin [seq row.1 | row <- rows] -> populate fs rows d0 = Ok d ->
  dict_get d m = dict_get d0 m.
Proof.
elim: rows d0 => [|row rows IH] d0 /=; first by move=> _ [<-].
rewrite inE negb_or => /andP [ne_m notin].
case: (read_box fs row.2) => [coordList|] //= pop.
by rewrite (IH _ notin pop) dict_get_set (negbTE ne_m).
Qed.

Lemma populate_get (fs : filesystem pixel) (r1 r2 : seq (string * string))
    (m b : string) (d0 d : dict (seq (seq Z))) :
  m \notin [seq row.1 | row <- r2] ->
  populate fs (r1 ++ (m, b) :: r2) d0 = Ok d ->
  exists2 lines, read_box fs b = Ok lines & dict_get d m = Ok lines.
Proof.
move=> notin; elim: r1 d0 => [|row r1 IH] d0 /=; last first.
  by case: (read_box fs row.2) => [coordList|] //=; exact: IH.
case: (read_box fs b) => [lines|] //= pop.
by exists lines => //; rewrite (populate_get_notin notin pop) dict_get_set eqxx.
Qed.

(** X10. The micrographs of a constructed source are the [_mrcFile] entries
    of the STAR file in the order of their first occurrence, each once. *)
Theorem init_micrograph_order
    (fs : filesystem pixel) (particle_size : Z) (src : EmanSource) :
  init fs particle_size = Ok src ->
  keys (mrc2coords src) = rev (undup (rev [seq row.1 | row <- star_rows fs])).
Proof.
move=> H; have [mrc0 [box0 [rest [d [mrc [rows pop mrc_ok]]]]]] := init_inv H.
have [_] := init_mrc2coords H pop.
rewrite -(keys_populate (isT : uniq (keys [::])) pop).
case: ifP => _; last by move=> ->.
by case=> L E _; have [-> _] := force_particle_size_shape E.
Qed.

(** X11. Without a forced particle size, the coordinates stored for a
    micrograph are the lines read from the box file of the last STAR row
    that names it. *)
Theorem init_coordinates_lookup
    (fs : filesystem pixel) (src : EmanSource)
    (r1 r2 : seq (string * string)) (m b : string) :
  init fs 0%PZ = Ok src ->
  star_rows fs = r1 ++ (m, b) :: r2 ->
  m \notin [seq row.1 | row <- r2] ->
  exists2 lines, read_box fs b = Ok lines & dict_get (mrc2coords src) m = Ok lines.
Proof.
move=> H rows notin.
have [mrc0 [box0 [rest [d [mrc [_ pop _]]]]]] := init_inv H.
have [_ /= ->] := init_mrc2coords H pop.
by move: pop; rewrite rows; exact: populate_get.
Qed.

End EmanInitEdges.

Section EmanRecrop.
Import Py Text EmanFiles Eman.
Variable pixel : Type.

Local Opaque getitem setitem.

Lemma recentred_same_size (L : Z) (c : seq Z) :
  [&& 3 < size c, nth 0%PZ c 2 == L & nth 0%PZ c 3 == L] -> recentred L L c = c.
Proof.
case: c => [|x [|y [|w [|h more]]]] //= /andP [/eqP -> /eqP ->].
by rewrite /recentred Z.sub_diag /= !Z.add_0_r drop0.
Qed.

(** X12. Forcing the particle size the box files already record changes
    nothing: when every stored box has that size, the constructor returns the
    source it returns without a forced size. *)
Theorem init_same_particle_size (fs : filesystem pixel) (src : EmanSource) :
  init fs 0%PZ = Ok src ->
  all (fun kv : string * seq (seq Z) =>
         all (fun c => [&& 3 < size c, nth 0%PZ c 2 == original_resolution src
                         & nth 0%PZ c 3 == original_resolution src]) kv.2)
      (mrc2coords src) ->
  init fs (original_resolution src) = Ok src.
Proof.
move=> H; have [mrc0 [box0 [rest [d [mrc [rows pop mrc_ok]]]]]] := init_inv H.
move: H; rewrite !(init_eq _ rows pop mrc_ok).
case: (dtypes _) => [dt|] //=.
case: (shape_of _) => [|X [|Y [|? ?]]] //.
case: (read_box fs box0) => [lines|] //=.
case: (getitem lines 0%PZ) => [first_line|] //=.
case: (getitem first_line 2%PZ) => [L|] //=.
case: (getitem first_line 3%PZ) => [other_side|] //=.
case: ifP => // _ [<-] /= same.
case: ifP => // _.
have wf : all (fun kv : string * seq (seq Z) => all (fun c : seq Z => 3 < size c) kv.2) d.
  by move: same; apply: sub_all => kv; apply: sub_all => c /and3P [].
rewrite (force_particle_size_fits (Z.le_refl L) wf).
rewrite /= map_id_in // => -[k cs] /(allP same) /= same_k.
by congr (_, _); rewrite map_id_in // => c /(allP same_k) /recentred_same_size.
Qed.

(** A box inside its micrograph stays inside when it is re-cropped to a
    smaller size. *)
Lemma recentred_inside (fs : filesystem pixel) (L new_size : Z) (m : string) (c : seq Z) :
  (0 <= new_size <= L)%PZ ->
  box_inside fs L (m, c) -> box_inside fs new_size (m, recentred L new_size c).
Proof.
move=> [le0 le_L]; rewrite /box_inside /=.
case: (open_mrc fs m) => [[mode [rows|sh sl]]|] //.
case: c => [|x [|y [|sx [|sy more]]]] //.
case/and5P => _ _ /Z.leb_le le0x /Z.leb_le lex /and3P [/Z.leb_le le0y /Z.leb_le ley ->].
rewrite /recentred /= !eqxx /= andbT.
have [le0t le_tL] : (0 <= (L - new_size) / 2 <= L - new_size)%PZ.
  split; first by apply: Z.div_pos; lia.
  by apply: Z.div_le_upper_bound; lia.
by apply/and4P; split; apply/Z.leb_le; lia.
Qed.

Lemma take_drop_take (A : Type) (t p L : nat) (s : seq A) :
  t + p <= L -> take p (drop t (take L s)) = take p (drop t s).
Proof.
elim: s t p L => [|x s IH] [|t] [|p] [|L] //=; rewrite ?addSn ?ltnS => le_L.
- by congr (_ :: _); rewrite -[take L s]drop0 -[in RHS](drop0 s); apply: IH.
- exact: IH.
- exact: IH.
Qed.

End EmanRecrop.

Section EmanTestFiles.
Import Py Text EmanFiles Eman CoordinateSourceTest.
Variable pixel : Type.

Local Opaque getitem setitem.

(** X26. The constructor on the box files of the tests: when the first box
    file holds what [createTestBoxFiles] writes for a non-empty list of
    centers, and the first micrograph is a two-dimensional array of a
    supported mode, the nonsquare box file is refused with ValueError
    (testNonSquareParticles), and the box file gives a source of particle
    size 256 (testLoadFromBox). *)
Theorem init_on_test_box_files
    (fs : filesystem pixel) (particle_size : Z)
    (mrc0 box0 : string) (rest : seq (string * string))
    (d : dict (seq (seq Z))) (mode : Z) (rows : seq (seq pixel)) (dt : dtype)
    (centers : seq (Z * Z)) :
  star_rows fs = (mrc0, box0) :: rest ->
  populate fs (star_rows fs) [::] = Ok d ->
  mrc_files fs mrc0 = Some (MrcFile mode (Image2D rows)) ->
  dtypes mode = Ok dt ->
  centers != [::] ->
  (box_files fs box0 = Some (createTestBoxFiles centers).2 ->
   init fs particle_size = Raise ValueError)
  /\ (box_files fs box0 = Some (createTestBoxFiles centers).1 ->
      exists2 src, init fs 0%PZ = Ok src & original_resolution src = 256%PZ).
Proof.
move=> star pop mrc_some dt_ok nonempty.
have mrc_ok := open_mrc_supported mrc_some (dt_ok : dtypes (mrc_mode (MrcFile _ _)) = _).
have square := read_coordList_box_lines 256 256 [seq (center.1 - 128, center.2 - 128)%PZ | center <- centers].
have nonsquare := read_coordList_box_lines 256 100 [seq (center.1 - 128, center.2 - 128)%PZ | center <- centers].
rewrite -!map_comp in square nonsquare.
rewrite (init_eq _ star pop mrc_ok) (init_eq _ star pop mrc_ok) /= dt_ok /=.
case: centers nonempty square nonsquare => [|center centers] // _ square nonsquare.
split=> [/read_box_text ->|/read_box_text ->] /=.
- by rewrite -/(createTestBoxFiles _).2 /= nonsquare /= (@getitem_at _ 0 [::]).
- by rewrite square /=; eexists; first by rewrite (@getitem_at _ 0 [::]).
Qed.

End EmanTestFiles.

(* --------------------------------------------------------------------- *)
(** ** EmanSource._images                                                 *)
(* --------------------------------------------------------------------- *)

Section EmanImagesFacts.
Import Py Text EmanFiles Eman.
Variable pixel : Type.
Variable astype : dtype -> pixel -> pixel.

Local Opaque getitem setitem.

Lemma slice_bound_inside (n : nat) (i : Z) :
  (0 <= i <= Z.of_nat n)%PZ -> slice_bound n i = Z.to_nat i.
Proof.
move=> [le0 len]; rewrite /slice_bound.
have nlt0 : (i <? 0)%PZ = false by apply/Z.ltb_ge.
have ngtn : (Z.of_nat n <? i)%PZ = false by apply/Z.ltb_ge.
by rewrite nlt0 nlt0 ngtn.
Qed.

(** A slice that stays inside the sequence is a [take] of a [drop]. *)
Lemma slice_inside (A : Type) (l : seq A) (a s : Z) :
  (0 <= a)%PZ -> (0 <= s)%PZ -> (a + s <= Z.of_nat (size l))%PZ ->
  slice l a (a + s) = take (Z.to_nat s) (drop (Z.to_nat a) l).
Proof.
move=> le0a le0s le_n; rewrite /slice !slice_bound_inside; try lia.
by congr (take _ _); rewrite -minusE; lia.
Qed.

Lemma size_slice_inside (A : Type) (l : seq A) (a s : Z) :
  (0 <= a)%PZ -> (0 <= s)%PZ -> (a + s <= Z.of_nat (size l))%PZ ->
  size (slice l a (a + s)) = Z.to_nat s.
Proof.
move=> le0a le0s le_n; rewrite slice_inside // size_take size_drop.
case: ltnP => // /ssrnat.leP; rewrite -minusE => H.
by lia.
Qed.

Lemma all_take (A : Type) (P : pred A) (k : nat) (l : seq A) :
  all P l -> all P (take k l).
Proof. by elim: l k => [|x l IH] [|k] //= /andP [-> /IH ->]. Qed.

Lemma all_drop (A : Type) (P : pred A) (k : nat) (l : seq A) :
  all P l -> all P (drop k l).
Proof. by elim: l k => [|x l IH] [|k] //= /andP [_ /IH]. Qed.

Lemma eq_map_all_in (A B : Type) (P : pred A) (f g : A -> B) (l : seq A) :
  (forall x, P x -> f x = g x) -> all P l -> [seq f x | x <- l] = [seq g x | x <- l].
Proof. by move=> fg; elim: l => //= x l IH /andP [/fg -> /IH ->]. Qed.

Lemma mapM_map (A B C : Type) (h : A -> B) (f : B -> result C) (l : seq A) :
  mapM f [seq h x | x <- l] = mapM (fun x => f (h x)) l.
Proof. by elim: l => //= x l ->. Qed.

(** Cropping a box that lies inside the micrograph and writing it to its
    slot of a stack of dtype [dt] stores the window the box describes,
    converted to [dt]. *)
Lemma load_box_inside (fs : filesystem pixel) (dt : dtype) (L : Z) (p : string * seq Z) :
  (0 <= L)%PZ -> box_inside fs L p ->
  exists2 arr, open_mrc fs p.1 = Ok arr
    & (crop <- crop_micrograph (mrc_contents arr) p.2 ;;
       assign_slot astype dt (Z.to_nat L) crop)
      = Ok (converted astype dt (crop_of fs p)).
Proof.
move=> le0L; rewrite /box_inside /crop_of.
case: (open_mrc fs p.1) => [[mode [rows|sh sl]]|] //.
case: p.2 => [|x [|y [|sx [|sy more]]]] //.
case/and5P => /eqP -> /eqP -> /Z.leb_le le0x /Z.leb_le lex /and3P [/Z.leb_le le0y /Z.leb_le ley rect].
exists (MrcFile mode (Image2D rows)) => //.
rewrite /crop_micrograph /mrc_contents.
rewrite (@getitem_at _ 0 0%PZ) // bind_Ok (@getitem_at _ 1 0%PZ) // bind_Ok.
rewrite (@getitem_at _ 2 0%PZ) // bind_Ok (@getitem_at _ 3 0%PZ) // bind_Ok.
rewrite [nth _ _ 0]/= [nth _ _ 1]/= [nth _ _ 2]/= [nth _ _ 3]/= bind_Ok.
rewrite slice_inside //.
have -> : [seq slice row x (x + L) | row <- take (Z.to_nat L) (drop (Z.to_nat y) rows)]
        = window rows (Z.to_nat x) (Z.to_nat y) (Z.to_nat L).
  apply: (@eq_map_all_in _ _ (fun row => size row == size (head [::] rows))).
    by move=> row /eqP sz_row; rewrite slice_inside // sz_row.
  exact/all_take/all_drop.
rewrite /assign_slot /broadcast2 /crop_columns /width_of [shape_of _]/= [nth _ _ 1]/= [nth _ _ 0]/= [nth _ _ 2]/=.
have -> : size (window rows (Z.to_nat x) (Z.to_nat y) (Z.to_nat L)) = Z.to_nat L.
  rewrite /window size_map size_take size_drop; case: ltnP => // /ssrnat.leP.
  by rewrite -minusE; lia.
have -> : slice_bound (size (head [::] rows)) (x + L) - slice_bound (size (head [::] rows)) x
        = Z.to_nat L.
  by rewrite !slice_bound_inside; try lia; rewrite -minusE; lia.
by rewrite !eqxx /= map_id.
Qed.

Lemma dict_get_keys (V : Type) (d : dict V) (k : string) (v : V) :
  dict_get d k = Ok v -> k \in keys d.
Proof.
elim: d => [|kv d IH] //=; rewrite inE eq_sym.
by case: eqP => //= _ /IH.
Qed.

Lemma size_all_particles (d : dict (seq (seq Z))) :
  size (all_particles d) = size (particles d).
Proof.
rewrite /all_particles /particles !size_flatten /shape -!map_comp.
by congr (sumn _); apply: eq_map => kv /=; rewrite !size_map size_iota.
Qed.

(** The [k]-th identifier names the [k]-th particle of the global order: its
    micrograph, and its position in that micrograph's coordinate list. *)
Lemma particle_lookup (d : dict (seq (seq Z))) (k : nat) :
  uniq (keys d) -> k < size (particles d) ->
  exists i coords,
    let p := nth (EmptyString, [::]) (particles d) k in
    [/\ nth EmptyString (all_particles d) k = particle_id i p.1,
        dict_get d p.1 = Ok coords, i < size coords & nth [::] coords i = p.2].
Proof.
elim: d k => [|kv d IH] k //=.
rewrite /all_particles /particles /= -/(all_particles d) -/(particles d).
move=> /andP [kv_notin uniq_d]; rewrite size_cat size_map !nth_cat !size_map size_iota.
case: (ltnP k (size kv.2)) => [lt_k _|le_k].
  exists k, kv.2; rewrite (nth_map 0) ?size_iota // nth_iota // add0n.
  by rewrite (nth_map [::]) //= eqxx.
rewrite -{1}(subnKC le_k) ltn_add2l => lt_k.
have [i [coords /= [E1 E2 lt_i E3]]] := IH _ uniq_d lt_k.
exists i, coords; split=> //.
case: eqP => // eq_k; move: kv_notin.
by rewrite eq_k (dict_get_keys E2).
Qed.

(** The steps of [load_particle] up to the opening of the micrograph, for
    the [k]-th identifier. *)
Lemma load_particle_eq (fs : filesystem pixel) (src : EmanSource) (L k : nat) :
  uniq (keys (mrc2coords src)) ->
  k < size (particles (mrc2coords src)) ->
  let p := nth (EmptyString, [::]) (particles (mrc2coords src)) k in
  ~~ contains "@"%char p.1 ->
  load_particle astype fs src L (nth EmptyString (all_particles (mrc2coords src)) k)
  = (arr <- open_mrc fs p.1 ;;
     crop <- crop_micrograph (mrc_contents arr) p.2 ;;
     assign_slot astype (src_dtype src) L crop).
Proof.
move=> uniq_d lt_k p no_at.
have [i [coords /= [-> get_p lt_i coord_i]]] := particle_lookup uniq_d lt_k.
rewrite /load_particle (split_particle_id _ no_at).
rewrite (@getitem_at _ 0 EmptyString) // bind_Ok [nth _ _ 0]/=.
rewrite py_int_format_06d bind_Ok.
rewrite (@getitem_at _ 1 EmptyString) // bind_Ok [nth _ _ 1]/=.
case: (open_mrc fs _) => [arr|] //=.
by rewrite get_p bind_Ok (getitem_nat [::]) // bind_Ok coord_i.
Qed.

(** Loading the [k]-th identifier stores the crop of the [k]-th particle of
    the global order, converted to the dtype of the source. *)
Lemma load_particle_at (fs : filesystem pixel) (src : EmanSource) (k : nat) :
  uniq (keys (mrc2coords src)) ->
  all (fun key => ~~ contains "@"%char key) (keys (mrc2coords src)) ->
  (0 <= original_resolution src)%PZ ->
  k < size (particles (mrc2coords src)) ->
  box_inside fs (original_resolution src)
             (nth (EmptyString, [::]) (particles (mrc2coords src)) k) ->
  load_particle astype fs src (Z.to_nat (original_resolution src))
                (nth EmptyString (all_particles (mrc2coords src)) k)
  = Ok (converted astype (src_dtype src)
          (crop_of fs (nth (EmptyString, [::]) (particles (mrc2coords src)) k))).
Proof.
move=> uniq_d /allP no_at le0L lt_k inside.
have [i [coords /= [_ get_p _ _]]] := particle_lookup uniq_d lt_k.
have [arr arr_ok crop_ok] := load_box_inside (src_dtype src) le0L inside.
rewrite load_particle_eq //; first exact: no_at (dict_get_keys get_p).
by rewrite arr_ok bind_Ok.
Qed.

(** C10, as the code has it. Let the source's dictionary have distinct
    micrograph paths, none containing the separator "@", a non-negative
    particle size [L], and [n] equal to the number of stored coordinates.
    For every non-empty list of indices in [0, n) whose particles each name a
    two-dimensional micrograph that opens and an [L x L] box inside it,
    [_images] returns a stack with one image per requested index, in the
    requested order: image [j] is the window [data[y : y + L, x : x + L]] of
    the particle at global position [indices[j]], converted to the dtype of
    the source; it is that window where the conversion leaves its values
    unchanged. *)
Theorem images_in_requested_order
  (fs : filesystem pixel) (src : EmanSource)
  (start : Z) (num : option Z) (indices : seq Z) :
  uniq (keys (mrc2coords src)) ->
  all (fun key => ~~ contains "@"%char key) (keys (mrc2coords src)) ->
  (0 <= original_resolution src)%PZ ->
  n src = size (particles (mrc2coords src)) ->
  indices != [::] ->
  all (fun i => [&& (0 <=? i)%PZ, (i <? Z.of_nat (n src))%PZ
                  & box_inside fs (original_resolution src)
                      (nth (EmptyString, [::]) (particles (mrc2coords src)) (Z.to_nat i))])
      indices ->
  exists stack,
    [/\ images astype fs src start num (Some indices) = Ok stack,
        size stack = size indices,
        forall j, j < size indices ->
          nth [::] stack j =
          converted astype (src_dtype src)
            (crop_of fs (nth (EmptyString, [::]) (particles (mrc2coords src))
                             (Z.to_nat (nth 0%PZ indices j))))
      & forall j, j < size indices ->
          let crop := crop_of fs (nth (EmptyString, [::]) (particles (mrc2coords src))
                                      (Z.to_nat (nth 0%PZ indices j))) in
          converted astype (src_dtype src) crop = crop -> nth [::] stack j = crop].
Proof.
move=> uniq_d no_at le0L n_val nonempty /allP valid.
pose p_at (i : Z) := nth (EmptyString, [::]) (particles (mrc2coords src)) (Z.to_nat i).
exists [seq converted astype (src_dtype src) (crop_of fs (p_at i)) | i <- indices].
split; last 3 first.
- by rewrite size_map.
- by move=> j lt_j; rewrite (nth_map 0%PZ).
- by move=> j lt_j /=; rewrite (nth_map 0%PZ).
rewrite /images.
have -> : np_min indices = Ok (foldl Z.min (head 0%PZ indices) (behead indices)).
  by case: indices nonempty {valid}.
rewrite !bind_Ok [(_, _).2]/=.
have in_range (i : Z) : i \in indices ->
    Z.to_nat i < size (particles (mrc2coords src)) /\ Z.of_nat (Z.to_nat i) = i.
  move=> /valid /and3P [/Z.leb_le le0 /Z.ltb_lt lt_n _]; rewrite -n_val.
  by split; [apply/ssrnat.ltP|]; lia.
rewrite (mapM_ok (g := fun i => nth EmptyString (all_particles (mrc2coords src)) (Z.to_nat i))).
  move=> i /In_mem i_in; have [lt_i val_i] := in_range _ i_in.
  by rewrite -{1}val_i (getitem_nat EmptyString) // size_all_particles.
rewrite bind_Ok; have -> : (original_resolution src <? 0)%PZ = false by apply/Z.ltb_ge.
rewrite mapM_map; apply: mapM_ok => i /In_mem i_in.
have [lt_i _] := in_range _ i_in.
apply: load_particle_at => //.
by have /and3P [_ _] := valid _ i_in.
Qed.

(** An explicit, empty index list is refused with ValueError, by
    [indices.min()], whatever the source holds. *)
Lemma images_empty_indices
    (fs : filesystem pixel) (src : EmanSource) (start : Z) (num : option Z) :
  images astype fs src start num (Some [::]) = Raise ValueError.
Proof. by []. Qed.

End EmanImagesFacts.

(* --------------------------------------------------------------------- *)
(** ** EmanSource._images: batches, indices, re-cropping *)
(* --------------------------------------------------------------------- *)

Section EmanImagesMore.
Import Py Text EmanFiles Eman.
Variable pixel : Type.
Variable astype : dtype -> pixel -> pixel.

Local Opaque getitem setitem.

Lemma arange_from0 (n : nat) :
  arange_from 0 (Z.of_nat n) = [seq Z.of_nat i | i <- iota 0 n].
Proof. by rewrite /arange_from Z.sub_0_r Nat2Z.id. Qed.

Lemma arange_from_slice (start num : Z) (n : nat) :
  (0 <= start)%PZ -> (0 <= num)%PZ ->
  arange_from start (Z.min (start + num) (Z.of_nat n))
  = take (Z.to_nat num) (drop (Z.to_nat start) (arange_from 0 (Z.of_nat n))).
Proof.
move=> le0s le0n; rewrite arange_from0 -map_drop -map_take drop_iota take_iota add0n.
rewrite -[X in iota X _]addn0 iotaDl -map_comp /arange_from.
have -> : Z.to_nat (Z.min (start + num) (Z.of_nat n) - start)
        = minn (Z.to_nat num) (n - Z.to_nat start).
  by rewrite /minn; case: ltnP => [/ssrnat.ltP|/ssrnat.leP]; rewrite -minusE; lia.
by apply: eq_map => i /=; rewrite -plusE Nat2Z.inj_add Z2Nat.id.
Qed.

Lemma arange_from_tail (start : Z) (n : nat) :
  (0 <= start)%PZ ->
  arange_from start (Z.of_nat n) = drop (Z.to_nat start) (arange_from 0 (Z.of_nat n)).
Proof.
move=> le0s.
have := @arange_from_slice start (Z.of_nat n) n le0s (Nat2Z.is_nonneg n).
have -> : Z.min (start + Z.of_nat n) (Z.of_nat n) = Z.of_nat n by lia.
move=> ->; rewrite take_oversize // size_drop arange_from0 size_map size_iota Nat2Z.id.
exact: leq_subr.
Qed.

(** X13. With the default [indices], a batch is a slice of the full stack:
    when loading every particle succeeds with [stack], then
    [_images(start, num)] returns [stack[start : start + num]], and
    [_images(start)] returns [stack[start:]], for [start, num >= 0]; past the
    end the result is the empty stack. *)
Theorem images_batch_is_slice
    (fs : filesystem pixel) (src : EmanSource) (stack : seq (seq (seq pixel)))
    (start num : Z) :
  images astype fs src 0%PZ None None = Ok stack ->
  (0 <= start)%PZ -> (0 <= num)%PZ ->
  images astype fs src start (Some num) None
    = Ok (take (Z.to_nat num) (drop (Z.to_nat start) stack))
  /\ images astype fs src start None None = Ok (drop (Z.to_nat start) stack).
Proof.
rewrite /images /= => H le0s le0n.
rewrite (arange_from_slice _ le0s le0n) (arange_from_tail _ le0s).
case E1: (mapM _ (arange_from 0 _)) H => [P|] //=.
case: ifP => // _ E2.
rewrite (mapM_take_drop _ _ E1) /= (mapM_take_drop _ _ E2).
by rewrite (mapM_drop _ E1) /= (mapM_drop _ E2).
Qed.

(** X14. Requests compose: when two index lists load, their concatenation
    loads, and its stack is the concatenation of the two stacks. *)
Theorem images_concat
    (fs : filesystem pixel) (src : EmanSource)
    (start : Z) (num : option Z) (ix1 ix2 : seq Z) (s1 s2 : seq (seq (seq pixel))) :
  images astype fs src start num (Some ix1) = Ok s1 ->
  images astype fs src start num (Some ix2) = Ok s2 ->
  images astype fs src start num (Some (ix1 ++ ix2)) = Ok (s1 ++ s2).
Proof.
rewrite /images; case: ix1 => [|i ix1] //=; case: ix2 => [|j ix2] //=.
case Ei: (getitem _ i) => [pi|] //=; case E1: (mapM _ ix1) => [P1|] //=.
case: ifP => // neg.
case Li: (load_particle _ _ _ _ pi) => [imi|] //=; case L1: (mapM _ P1) => [S1|] //= -[<-].
case Ej: (getitem _ j) => [pj|] //=; case E2: (mapM _ ix2) => [P2|] //=.
case Lj: (load_particle _ _ _ _ pj) => [imj|] //=; case L2: (mapM _ P2) => [S2|] //= -[<-].
rewrite mapM_cat E1 /= Ej /= E2 /= Li /=.
by rewrite mapM_cat L1 /= Lj /= L2.
Qed.

(** X15. An index outside [-N, N), for [N] stored particles, raises
    IndexError, whatever the files are: the identifiers are selected before
    any micrograph is opened. *)
Theorem images_index_out_of_range
    (fs : filesystem pixel) (src : EmanSource)
    (start : Z) (num : option Z) (indices : seq Z) :
  has (fun i => (i <? - Z.of_nat (size (particles (mrc2coords src))))%PZ
                || (Z.of_nat (size (particles (mrc2coords src))) <=? i)%PZ) indices ->
  images astype fs src start num (Some indices) = Raise IndexError.
Proof.
rewrite -size_all_particles /images => out.
have -> : np_min indices = Ok (foldl Z.min (head 0%PZ indices) (behead indices)).
  by case: indices out.
by rewrite bind_Ok /= mapM_getitem_outside.
Qed.

Lemma mapM_ext_in (A B : Type) (f g : A -> result B) (l : seq A) :
  (forall x, List.In x l -> f x = g x) -> mapM f l = mapM g l.
Proof.
elim: l => [|x l IH] //= fg.
have -> : f x = g x by apply: fg; left.
by rewrite IH // => y y_in; apply: fg; right.
Qed.

(** X16. A negative index counts from the end: for [N] stored particles,
    requesting [i - N] is requesting [i], for every [0 <= i < N]. *)
Theorem images_negative_indices
    (fs : filesystem pixel) (src : EmanSource)
    (start : Z) (num : option Z) (indices : seq Z) :
  all (fun i => (0 <=? i)%PZ && (i <? Z.of_nat (size (particles (mrc2coords src))))%PZ)
      indices ->
  images astype fs src start num
         (Some [seq (i - Z.of_nat (size (particles (mrc2coords src))))%PZ | i <- indices])
  = images astype fs src start num (Some indices).
Proof.
rewrite -size_all_particles /images => /allP valid.
case: indices valid => [|i ix] // valid; rewrite [map _ _]/= ![np_min _]/= !bind_Ok /=.
rewrite -/(mapM _ (_ :: _)) -/(mapM _ (i :: ix)) -(map_cons (fun i => _ - _)%PZ) mapM_map.
rewrite (@mapM_ext_in _ _ _ (getitem (all_particles (mrc2coords src)))) //.
move=> k /In_mem /valid /andP [/Z.leb_le le0 /Z.ltb_lt ltn].
exact: getitem_from_end.
Qed.

(** X17. The identifier [f"{i:06d}@{mrc}"] is decoded as it was encoded: the
    part before the first "@" parses to [i], for every [i >= 0] (also with
    more than six digits), and the next part is [mrc] when [mrc] holds no
    "@"; a path that holds one is cut at its first "@". *)
Theorem particle_id_decoding (i : nat) (mrc : string) :
  let parts := split "@"%char (particle_id i mrc) in
  [/\ (num <- getitem parts 0%PZ ;; py_int num) = Ok (Z.of_nat i),
      ~~ contains "@"%char mrc -> getitem parts 1%PZ = Ok mrc
    & forall a b, mrc = String.append a (String "@"%char b) ->
        ~~ contains "@"%char a -> getitem parts 1%PZ = Ok a].
Proof.
rewrite /particle_id /= split_append_sep ?format_06d_no_at //; split.
- by rewrite (@getitem_at _ 0 EmptyString) // bind_Ok /= py_int_format_06d.
- by move=> no_at; rewrite split_no_sep // (@getitem_at _ 1 EmptyString).
- move=> a b -> no_at; rewrite split_append_sep //.
  by rewrite (@getitem_at _ 1 EmptyString).
Qed.

(** Requesting the [k]-th particle alone. *)
Lemma images_one (fs : filesystem pixel) (src : EmanSource)
    (start : Z) (num : option Z) (k : nat) :
  uniq (keys (mrc2coords src)) ->
  (0 <= original_resolution src)%PZ ->
  k < size (particles (mrc2coords src)) ->
  let p := nth (EmptyString, [::]) (particles (mrc2coords src)) k in
  ~~ contains "@"%char p.1 ->
  images astype fs src start num (Some [:: Z.of_nat k])
  = (arr <- open_mrc fs p.1 ;;
     crop <- crop_micrograph (mrc_contents arr) p.2 ;;
     slot <- assign_slot astype (src_dtype src) (Z.to_nat (original_resolution src)) crop ;;
     Ok [:: slot]).
Proof.
move=> uniq_d le0L lt_k p no_at.
rewrite /images /= (getitem_nat EmptyString) ?size_all_particles //=.
have -> : (original_resolution src <? 0)%PZ = false by apply/Z.ltb_ge.
rewrite load_particle_eq // /p.
case: (open_mrc fs _) => [arr|] //=.
by case: (crop_micrograph _ _) => [crop|] //=; case: (assign_slot _ _ _ _).
Qed.

(** X18. A micrograph that is missing when its particle is requested raises
    FileNotFoundError at that point. *)
Theorem images_missing_micrograph
    (fs : filesystem pixel) (src : EmanSource)
    (start : Z) (num : option Z) (k : nat) :
  uniq (keys (mrc2coords src)) ->
  (0 <= original_resolution src)%PZ ->
  k < size (particles (mrc2coords src)) ->
  ~~ contains "@"%char (nth (EmptyString, [::]) (particles (mrc2coords src)) k).1 ->
  mrc_files fs (nth (EmptyString, [::]) (particles (mrc2coords src)) k).1 = None ->
  images astype fs src start num (Some [:: Z.of_nat k]) = Raise FileNotFoundError.
Proof.
move=> uniq_d le0L lt_k no_at missing.
by rewrite (@images_one fs src start num k uniq_d le0L lt_k no_at) /open_mrc missing.
Qed.

Lemma slice_bound_clip (n : nat) (i : Z) :
  (Z.of_nat n <= i)%PZ -> slice_bound n i = n.
Proof.
move=> le_i; rewrite /slice_bound.
have nlt0 : (i <? 0)%PZ = false by apply/Z.ltb_ge; lia.
rewrite nlt0 nlt0; case: Z.ltb_spec => // ?.
have -> : i = Z.of_nat n by lia.
by rewrite Nat2Z.id.
Qed.

Lemma drop_last (A : Type) (x0 : A) (s : seq A) :
  0 < size s -> drop (size s).-1 s = [:: last x0 s].
Proof.
case/lastP: s => [|s z] // _.
by rewrite size_rcons /= last_rcons -cats1 drop_size_cat.
Qed.

Lemma flatten_nseq1 (A : Type) (k : nat) (r : A) : flatten (nseq k [:: r]) = nseq k r.
Proof. by elim: k => //= k ->. Qed.

Lemma map_nseq (A B : Type) (f : A -> B) (k : nat) (x : A) :
  [seq f y | y <- nseq k x] = nseq k (f x).
Proof. by elim: k => //= k ->. Qed.

(** X19. A box of which only the first row lies inside the micrograph (it
    starts on the last row) is not refused: numpy broadcasts the one-row crop
    over the slot, and the image holds that row, converted to the dtype of
    the source, [L] times. *)
Theorem images_one_row_is_repeated
    (fs : filesystem pixel) (src : EmanSource) (start : Z) (num : option Z)
    (k : nat) (mode x : Z) (rows : seq (seq pixel)) (more : seq Z) :
  let L := original_resolution src in
  let p := nth (EmptyString, [::]) (particles (mrc2coords src)) k in
  uniq (keys (mrc2coords src)) ->
  k < size (particles (mrc2coords src)) ->
  ~~ contains "@"%char p.1 ->
  open_mrc fs p.1 = Ok (MrcFile mode (Image2D rows)) ->
  all (fun row => size row == size (head [::] rows)) rows ->
  p.2 = [:: x, (Z.of_nat (size rows) - 1)%PZ, L, L & more] ->
  0 < size rows -> (0 < L)%PZ ->
  (0 <= x)%PZ -> (x + L <= Z.of_nat (size (head [::] rows)))%PZ ->
  images astype fs src start num (Some [:: Z.of_nat k])
  = Ok [:: nseq (Z.to_nat L)
             [seq astype (src_dtype src) v
             | v <- take (Z.to_nat L) (drop (Z.to_nat x) (last [::] rows))]].
Proof.
move=> L p uniq_d lt_k no_at mrc_ok rect coord_k lt0h lt0L le0x lex.
have le0L : (0 <= original_resolution src)%PZ by rewrite -/L; lia.
rewrite (@images_one fs src start num k uniq_d le0L lt_k no_at).
rewrite -/p mrc_ok bind_Ok coord_k -/L.
rewrite /crop_micrograph /mrc_contents.
rewrite (@getitem_at _ 0 0%PZ) // bind_Ok (@getitem_at _ 1 0%PZ) // bind_Ok.
rewrite (@getitem_at _ 2 0%PZ) // bind_Ok (@getitem_at _ 3 0%PZ) // bind_Ok.
rewrite [nth _ _ 0]/= [nth _ _ 1]/= [nth _ _ 2]/= [nth _ _ 3]/= bind_Ok.
have /ssrnat.ltP lt0h' := lt0h.
have -> : slice rows (Z.of_nat (size rows) - 1) (Z.of_nat (size rows) - 1 + L)
        = [:: last [::] rows].
  have hi : slice_bound (size rows) (Z.of_nat (size rows) - 1 + L) = size rows.
    by apply: slice_bound_clip; lia.
  have lo : slice_bound (size rows) (Z.of_nat (size rows) - 1) = (size rows).-1.
    have -> : (size rows).-1 = Z.to_nat (Z.of_nat (size rows) - 1).
      by rewrite -subn1 -minusE; lia.
    by apply: slice_bound_inside; lia.
  rewrite /slice hi lo (drop_last [::]) //.
  by rewrite -subn1 subKn.
have sz_last : size (last [::] rows) = size (head [::] rows).
  by rewrite -nth_last; apply/eqP/(all_nthP [::] rect); rewrite prednK.
rewrite [map _ _]/=.
have -> : slice (last [::] rows) x (x + L)
        = take (Z.to_nat L) (drop (Z.to_nat x) (last [::] rows)).
  by apply: slice_inside; rewrite ?sz_last //; lia.
rewrite /assign_slot /broadcast2 /crop_columns /width_of [shape_of _]/= [nth _ _ 1]/= [nth _ _ 0]/= [nth _ _ 2]/=.
have -> : slice_bound (size (head [::] rows)) (x + L) - slice_bound (size (head [::] rows)) x
        = Z.to_nat L.
  by rewrite !slice_bound_inside; try lia; rewrite -minusE; lia.
rewrite [size _]/= !eqxx orbT /= /converted.
by case: eqP => [<-|_] //=; rewrite flatten_nseq1 map_nseq.
Qed.

Lemma mapM_getitem_all (A : Type) (l : seq A) :
  mapM (getitem l) [seq Z.of_nat i | i <- iota 0 (size l)] = Ok l.
Proof.
case: l => [|x0 l] //; set s := x0 :: l.
rewrite mapM_map (mapM_ok (g := nth x0 s)).
  by move=> i /In_mem; rewrite mem_iota add0n => /andP [_ lt_i]; exact: getitem_nat.
by rewrite map_nth_iota0 // take_size.
Qed.

(** Loading every particle of a source whose boxes all lie inside their
    micrographs gives the crops, converted to the dtype of the source, in
    the global particle order. *)
Lemma images_whole (fs : filesystem pixel) (src : EmanSource) :
  uniq (keys (mrc2coords src)) ->
  all (fun key => ~~ contains "@"%char key) (keys (mrc2coords src)) ->
  (0 <= original_resolution src)%PZ ->
  n src = size (particles (mrc2coords src)) ->
  all (box_inside fs (original_resolution src)) (particles (mrc2coords src)) ->
  images astype fs src 0%PZ None None
  = Ok [seq converted astype (src_dtype src) (crop_of fs q)
       | q <- particles (mrc2coords src)].
Proof.
move=> uniq_d no_at le0L n_val inside.
rewrite /images /= arange_from0 n_val -size_all_particles mapM_getitem_all /=.
have -> : (original_resolution src <? 0)%PZ = false by apply/Z.ltb_ge.
have {1}-> : all_particles (mrc2coords src)
        = [seq nth EmptyString (all_particles (mrc2coords src)) k
          | k <- iota 0 (size (particles (mrc2coords src)))].
  by rewrite map_nth_iota0 -size_all_particles // take_size.
rewrite mapM_map.
rewrite (mapM_ok (g := fun k => converted astype (src_dtype src)
                                  (crop_of fs (nth (EmptyString, [::]) (particles (mrc2coords src)) k)))).
  move=> k /In_mem; rewrite mem_iota add0n => /andP [_ lt_k].
  apply: load_particle_at => //.
  exact: (all_nthP _ inside).
rewrite (map_comp (fun q => converted astype (src_dtype src) (crop_of fs q)) (nth _ _)).
by rewrite map_nth_iota0 // take_size.
Qed.

Lemma all_flatten_seq (A : Type) (P : pred A) (ss : seq (seq A)) :
  all P (flatten ss) = all (all P) ss.
Proof. by elim: ss => //= s ss <-; rewrite all_cat. Qed.

Lemma particles_map (f : seq Z -> seq Z) (d : dict (seq (seq Z))) :
  particles [seq (kv.1, [seq f c | c <- kv.2]) | kv <- d]
  = [seq (q.1, f q.2) | q <- particles d].
Proof.
rewrite /particles map_flatten -!map_comp; congr flatten.
by apply: eq_map => kv /=; rewrite -!map_comp.
Qed.

Lemma keys_map (V : Type) (f : string * V -> V) (d : dict V) :
  keys [seq (kv.1, f kv) | kv <- d] = keys d.
Proof. by rewrite /keys -map_comp. Qed.

Lemma window_window (rows : seq (seq pixel)) (x y L t p : nat) :
  t + p <= L ->
  window (window rows x y L) t t p = window rows (x + t) (y + t) p.
Proof.
move=> le_L; rewrite /window -map_drop -map_take -map_comp take_drop_take //.
rewrite drop_drop [t + y]addnC; apply: eq_map => row /=.
by rewrite take_drop_take // drop_drop [t + x]addnC.
Qed.

(** A window of a converted image is the converted window. *)
Lemma window_converted (dt : dtype) (im : seq (seq pixel)) (x y side : nat) :
  window (converted astype dt im) x y side = converted astype dt (window im x y side).
Proof.
rewrite /window /converted -map_drop -map_take -!map_comp.
by apply: eq_map => row /=; rewrite -map_drop -map_take.
Qed.

(** The crop of a re-centred box is the centre window of the crop of the
    box. *)
Lemma crop_of_recentred (fs : filesystem pixel) (L new_size : Z) (q : string * seq Z) :
  (0 <= new_size <= L)%PZ -> box_inside fs L q ->
  crop_of fs (q.1, recentred L new_size q.2)
  = window (crop_of fs q) (Z.to_nat ((L - new_size) / 2)) (Z.to_nat ((L - new_size) / 2))
           (Z.to_nat new_size).
Proof.
move=> [le0 le_L]; rewrite /box_inside /crop_of /=.
case: (open_mrc fs q.1) => [[mode [rows|sh sl]]|] //.
case: q.2 => [|x [|y [|sx [|sy more]]]] //.
case/and5P => /eqP -> _ /Z.leb_le le0x _ /and3P [/Z.leb_le le0y _ _].
have [le0t le_tL] : (0 <= (L - new_size) / 2 <= L - new_size)%PZ.
  split; first by apply: Z.div_pos; lia.
  by apply: Z.div_le_upper_bound; lia.
rewrite /recentred /= window_window.
  by apply/ssrnat.leP; rewrite -plusE; lia.
by rewrite -!plusE !Z2Nat.inj_add.
Qed.

(** X20. Forcing a smaller particle size at construction is cropping the
    centre of every particle image: when all boxes of the box files lie
    inside their micrographs, the stack of the source built with
    [0 < particle_size <= L] holds, image by image, the window of side
    [particle_size] at offset [(L - particle_size) // 2] of the stack of the
    source built without a forced size. *)
Theorem images_after_recrop
    (fs : filesystem pixel) (src0 : EmanSource) (particle_size : Z) :
  init fs 0%PZ = Ok src0 ->
  all (fun key => ~~ contains "@"%char key) (keys (mrc2coords src0)) ->
  all (box_inside fs (original_resolution src0)) (particles (mrc2coords src0)) ->
  (0 < particle_size <= original_resolution src0)%PZ ->
  exists src stack0,
    [/\ init fs particle_size = Ok src,
        images astype fs src0 0%PZ None None = Ok stack0
      & images astype fs src 0%PZ None None
        = Ok [seq window img
                    (Z.to_nat ((original_resolution src0 - particle_size) / 2))
                    (Z.to_nat ((original_resolution src0 - particle_size) / 2))
                    (Z.to_nat particle_size)
             | img <- stack0]].
Proof.
move=> H no_at inside [gt0 le_L].
have [mrc0 [box0 [rest [d [mrc [rows pop mrc_ok]]]]]] := init_inv H.
have uniq_d := populate_uniq (isT : uniq (keys [::])) pop.
move: H; rewrite !(init_eq _ rows pop mrc_ok).
case: (dtypes _) => [dt|] //=.
case: (shape_of _) => [|X [|Y [|? ?]]] //.
case: (read_box fs box0) => [lines|] //=.
case: (getitem lines 0%PZ) => [first_line|] //=.
case: (getitem first_line 2%PZ) => [L|] //=.
case: (getitem first_line 3%PZ) => [other_side|] //=.
case: ifP => // _ [src0_val].
move: no_at inside le_L; rewrite -src0_val /= => no_at inside le_L.
have nz : particle_size != 0%PZ by apply/eqP; lia.
have wf : all (fun kv : string * seq (seq Z) => all (fun c : seq Z => 3 < size c) kv.2) d.
  move: inside; rewrite /particles all_flatten_seq all_map; apply: sub_all => kv /=.
  rewrite all_map; apply: sub_all => c /=; rewrite /box_inside /=.
  by case: (open_mrc fs kv.1) => [[mode [rs|sh sl]]|] //; case: c => [|? [|? [|? [|? ?]]]].
rewrite nz (force_particle_size_fits le_L wf) /=.
set src := Build_EmanSource _ _ _ _ _ _.
exists src, [seq converted astype dt (crop_of fs q) | q <- particles d]; split=> //.
  apply: (@images_whole fs (Build_EmanSource d X Y L _ dt)) => //=; first by lia.
  by rewrite size_particles.
rewrite (@images_whole fs src) /=.
- by rewrite (keys_map (fun kv => [seq recentred L particle_size c | c <- kv.2])).
- by rewrite (keys_map (fun kv => [seq recentred L particle_size c | c <- kv.2])).
- by lia.
- by rewrite particles_map size_map size_particles.
- rewrite particles_map all_map; move: inside; apply: sub_all => -[m c] /=.
  by apply: recentred_inside; lia.
- rewrite particles_map -!map_comp; congr Ok.
  apply: (@eq_map_all_in _ _ (box_inside fs L)) inside => q inside_q /=.
  by rewrite window_converted crop_of_recentred //; lia.
Qed.

(** X27. A particle with fewer than four coordinates (a blank line of the
    box file, say) cannot be loaded: with its micrograph opening, the
    request raises IndexError. *)
Theorem images_particle_without_coordinates
    (fs : filesystem pixel) (src : EmanSource) (start : Z) (num : option Z)
    (k : nat) (arr : mrc_file pixel) :
  let p := nth (EmptyString, [::]) (particles (mrc2coords src)) k in
  uniq (keys (mrc2coords src)) ->
  (0 <= original_resolution src)%PZ ->
  k < size (particles (mrc2coords src)) ->
  ~~ contains "@"%char p.1 ->
  open_mrc fs p.1 = Ok arr ->
  size p.2 < 4 ->
  images astype fs src start num (Some [:: Z.of_nat k]) = Raise IndexError.
Proof.
move=> p uniq_d le0L lt_k no_at mrc_ok short.
rewrite (@images_one fs src start num k uniq_d le0L lt_k no_at).
rewrite -/p mrc_ok bind_Ok /crop_micrograph.
by case: p.2 short => [|x [|y [|w [|h more]]]] // _; rewrite ?getitem_nil.
Qed.

End EmanImagesMore.

(* --------------------------------------------------------------------- *)
(** ** EmanSource: runs on the demo data *)
(* --------------------------------------------------------------------- *)

Section InitRuns.
Import Py Text EmanFiles Eman CoordinateSourceTest Demo.

(** On the demo data: a first box line [0 0 4 3] is refused; so is
    [particle_size = 5] on 4 x 4 boxes; and [particle_size = 2] succeeds,
    moves every corner by [(4 - 2) // 2 = 1], and leaves every new box
    centred in its old one. *)
Lemma init_particle_size_run :
  [/\ init (demo_fs (unlines [:: "0 0 4 3"%string])) 0%PZ = Raise ValueError,
      init (demo_fs demo_text) 5%PZ = Raise ValueError
    & exists src,
        [/\ init (demo_fs demo_text) 2%PZ = Ok src,
            original_resolution src = 2%PZ,
            mrc2coords src =
            [:: ("a.mrc"%string, [:: [:: 1; 1; 2; 2]%PZ; [:: 3; 2; 2; 2]%PZ]);
                ("b.mrc"%string, [:: [:: 2; 2; 2; 2]%PZ])]
          & all (fun kv : string * seq (seq Z) =>
                   all (fun c => (nth 0%PZ c 2 == 4%PZ) && (nth 0%PZ c 3 == 4%PZ)
                                 ==> centred_in c (recentred 4 2 c))
                       kv.2) (mrc2coords demo_source)]].
Proof.
split.
- by case: (@init_particle_size Z (demo_fs (unlines [:: "0 0 4 3"%string])) 0%PZ
              "a.mrc"%string "a.box"%string [:: ("b.mrc"%string, "b.box"%string)]
              [:: ("a.mrc"%string, [:: [:: 0; 0; 4; 3]%PZ]);
                  ("b.mrc"%string, [:: [:: 1; 1; 4; 4]%PZ])]
              (MrcFile 2%PZ (Image2D demo_rows)) float32
              0%PZ 0%PZ 4%PZ 3%PZ [::] [::] erefl erefl erefl erefl erefl)
      => refused _ _; apply: refused.
- by case: (@init_particle_size Z (demo_fs demo_text) 5%PZ
              "a.mrc"%string "a.box"%string [:: ("b.mrc"%string, "b.box"%string)]
              (mrc2coords demo_source)
              (MrcFile 2%PZ (Image2D demo_rows)) float32
              0%PZ 0%PZ 4%PZ 4%PZ [::] [:: [:: 2; 1; 4; 4]%PZ]
              erefl erefl erefl erefl erefl)
      => _ refused _; apply: refused.
- by case: (@init_particle_size Z (demo_fs demo_text) 2%PZ
              "a.mrc"%string "a.box"%string [:: ("b.mrc"%string, "b.box"%string)]
              (mrc2coords demo_source)
              (MrcFile 2%PZ (Image2D demo_rows)) float32
              0%PZ 0%PZ 4%PZ 4%PZ [::] [:: [:: 2; 1; 4; 4]%PZ]
              erefl erefl erefl erefl erefl)
      => _ _ accepted; apply: accepted.
Defined.

(** Two box files with a first line [0 0 4 4] and [particle_size = 2], which
    is positive and at most the recorded size 4. With an empty second line
    the construction succeeds without [particle_size] and raises IndexError
    with it. With a second line [0 0 6 6] it succeeds, and the box stored
    for that line, [1 1 2 2], is not centred in the 6 x 6 box: its margins
    are 1 and 3. *)
Lemma init_particle_size_counterexample :
  (init (demo_fs (unlines [:: "0 0 4 4"%string; EmptyString])) 0%PZ
     = Ok (Build_EmanSource
             [:: ("a.mrc"%string, [:: [:: 0; 0; 4; 4]%PZ; [::]]);
                 ("b.mrc"%string, [:: [:: 1; 1; 4; 4]%PZ])]
             6 6 4%PZ 3 float32)
   /\ (0 <? 2)%PZ && (2 <=? 4)%PZ
   /\ init (demo_fs (unlines [:: "0 0 4 4"%string; EmptyString])) 2%PZ = Raise IndexError)
  /\ (init (demo_fs (unlines [:: "0 0 4 4"%string; "0 0 6 6"%string])) 2%PZ
        = Ok (Build_EmanSource
                [:: ("a.mrc"%string, [:: [:: 1; 1; 2; 2]%PZ; [:: 1; 1; 2; 2]%PZ]);
                    ("b.mrc"%string, [:: [:: 2; 2; 2; 2]%PZ])]
                6 6 2%PZ 3 float32)
      /\ centred_in [:: 0; 0; 6; 6]%PZ [:: 1; 1; 2; 2]%PZ = false).
Proof. by vm_compute. Qed.

Lemma init_invariants_run :
  uniq (keys (mrc2coords demo_source))
  /\ n demo_source = size (particles (mrc2coords demo_source)).
Proof.
apply: (@init_invariants Z (demo_fs demo_text) 0%PZ demo_source).
by vm_compute.
Defined.

(** With the second box file missing the demo STAR file is refused with
    FileNotFoundError; when the first box file holds the field [1.5], the
    ValueError of that field comes first. *)
Lemma init_missing_box_file_run :
  init (FileSystem demo_star
          (fun path => if path == "a.box"%string then Some demo_text else None)
          demo_mrcs) 0%PZ
    = Raise FileNotFoundError
  /\ init (FileSystem demo_star
             (fun path => if path == "a.box"%string then Some "1.5 2 4 4"%string else None)
             demo_mrcs) 0%PZ
    = Raise ValueError.
Proof.
split.
- by apply: (proj1 (@init_missing_box_file Z
                      (FileSystem demo_star
                         (fun path => if path == "a.box"%string then Some demo_text else None)
                         demo_mrcs)
                      0%PZ [:: ("a.mrc"%string, "a.box"%string)] [::]
                      "b.mrc"%string "b.box"%string erefl isT)).
- by apply: (proj2 (@init_missing_box_file Z
                      (FileSystem demo_star
                         (fun path => if path == "a.box"%string
                                      then Some "1.5 2 4 4"%string else None)
                         demo_mrcs)
                      0%PZ [::] [:: ("b.mrc"%string, "b.box"%string)]
                      "a.mrc"%string "a.box"%string erefl isT) ValueError).
Defined.

(** The demo source is built as well when only the first micrograph
    exists. *)
Lemma init_opens_first_micrograph_only_run :
  init (demo_fs demo_text) 0%PZ = init (demo_fs_with first_only) 0%PZ.
Proof. by apply: init_opens_first_micrograph_only. Defined.

(** Mode 3 is refused with ValueError, mode 4 (complex) with KeyError, and
    a three-dimensional stack in mode 2 with ValueError. *)
Lemma init_first_micrograph_checked_run :
  [/\ init (demo_fs_with (fun _ => Some (MrcFile 3%PZ (Image2D demo_rows)))) 0%PZ
        = Raise ValueError,
      init (demo_fs_with (fun _ => Some (MrcFile 4%PZ (Image2D demo_rows)))) 0%PZ
        = Raise KeyError
    & init (demo_fs_with (fun _ => Some (MrcFile 2%PZ demo_volume))) 0%PZ
        = Raise ValueError].
Proof.
split.
- by case: (@init_first_micrograph_checked Z
              (demo_fs_with (fun _ => Some (MrcFile 3%PZ (Image2D demo_rows)))) 0%PZ
              "a.mrc"%string "a.box"%string [:: ("b.mrc"%string, "b.box"%string)]
              (mrc2coords demo_source) (MrcFile 3%PZ (Image2D demo_rows))
              erefl erefl erefl) => unknown _ _; apply: unknown.
- by case: (@init_first_micrograph_checked Z
              (demo_fs_with (fun _ => Some (MrcFile 4%PZ (Image2D demo_rows)))) 0%PZ
              "a.mrc"%string "a.box"%string [:: ("b.mrc"%string, "b.box"%string)]
              (mrc2coords demo_source) (MrcFile 4%PZ (Image2D demo_rows))
              erefl erefl erefl) => _ unsupported _; apply: unsupported.
- by case: (@init_first_micrograph_checked Z
              (demo_fs_with (fun _ => Some (MrcFile 2%PZ demo_volume))) 0%PZ
              "a.mrc"%string "a.box"%string [:: ("b.mrc"%string, "b.box"%string)]
              (mrc2coords demo_source) (MrcFile 2%PZ demo_volume)
              erefl erefl erefl) => _ _ not_2d; apply: not_2d.
Defined.

(** A STAR file without rows, and the demo STAR file with an empty first
    box file. *)
Lemma init_empty_inputs_run :
  init (FileSystem [::] (demo_boxes demo_text) demo_mrcs) 0%PZ = Raise IndexError
  /\ init (demo_fs EmptyString) 0%PZ = Raise IndexError.
Proof.
split.
- by apply: (proj1 (@init_empty_inputs Z
               (FileSystem [::] (demo_boxes demo_text) demo_mrcs) 0%PZ)).
- by apply: (proj2 (@init_empty_inputs Z (demo_fs EmptyString) 0%PZ)
               "a.mrc"%string "a.box"%string [:: ("b.mrc"%string, "b.box"%string)]
               [:: ("a.mrc"%string, [::]); ("b.mrc"%string, [:: [:: 1; 1; 4; 4]%PZ])]
               (MrcFile 2%PZ (Image2D demo_rows)) float32 [::]).
Defined.

Lemma init_micrograph_order_run :
  keys (mrc2coords demo_source) = [:: "a.mrc"%string; "b.mrc"%string].
Proof. by apply: (@init_micrograph_order Z (demo_fs demo_text) 0%PZ demo_source). Defined.

Lemma init_coordinates_lookup_run :
  exists2 lines, read_box (demo_fs demo_text) "a.box"%string = Ok lines
               & dict_get (mrc2coords demo_source) "a.mrc"%string = Ok lines.
Proof.
by apply: (@init_coordinates_lookup Z (demo_fs demo_text) demo_source
             [::] [:: ("b.mrc"%string, "b.box"%string)] "a.mrc"%string "a.box"%string).
Defined.

(** The demo boxes are 4 x 4: forcing the size 4 gives the demo source. *)
Lemma init_same_particle_size_run :
  init (demo_fs demo_text) 4%PZ = Ok demo_source.
Proof. by apply: (@init_same_particle_size Z (demo_fs demo_text) demo_source). Defined.

(** The box files for the single center (130, 140). *)
Lemma init_on_test_box_files_run :
  init (demo_fs (createTestBoxFiles [:: (130, 140)%PZ]).2) 0%PZ = Raise ValueError
  /\ exists2 src, init (demo_fs (createTestBoxFiles [:: (130, 140)%PZ]).1) 0%PZ = Ok src
                 & original_resolution src = 256%PZ.
Proof.
split.
- by apply: (proj1 (@init_on_test_box_files Z
                      (demo_fs (createTestBoxFiles [:: (130, 140)%PZ]).2) 0%PZ
                      "a.mrc"%string "a.box"%string [:: ("b.mrc"%string, "b.box"%string)]
                      [:: ("a.mrc"%string, [:: [:: 2; 12; 256; 100]%PZ]);
                          ("b.mrc"%string, [:: [:: 1; 1; 4; 4]%PZ])]
                      2%PZ demo_rows float32 [:: (130, 140)%PZ]
                      erefl erefl erefl erefl isT)).
- by apply: (proj2 (@init_on_test_box_files Z
                      (demo_fs (createTestBoxFiles [:: (130, 140)%PZ]).1) 0%PZ
                      "a.mrc"%string "a.box"%string [:: ("b.mrc"%string, "b.box"%string)]
                      [:: ("a.mrc"%string, [:: [:: 2; 12; 256; 256]%PZ]);
                          ("b.mrc"%string, [:: [:: 1; 1; 4; 4]%PZ])]
                      2%PZ demo_rows float32 [:: (130, 140)%PZ]
                      erefl erefl erefl erefl isT)).
Defined.

End InitRuns.

Section ImagesRuns.
Import Py Text EmanFiles Eman Demo.

(** The demo source, asked for particles 2 and 0 in that order, returns the
    4 x 4 window at (1, 1) of the second micrograph and then the window at
    (0, 0) of the first, both converted to float32. *)
Lemma images_in_requested_order_run :
  exists stack,
    [/\ images demo_astype (demo_fs demo_text) demo_source 0%PZ None (Some [:: 2; 0]%PZ)
          = Ok stack,
        size stack = 2,
        forall j, j < 2 ->
          nth [::] stack j =
          converted demo_astype float32
            (crop_of (demo_fs demo_text)
               (nth (EmptyString, [::]) (particles (mrc2coords demo_source))
                    (Z.to_nat (nth 0%PZ [:: 2; 0]%PZ j))))
      & forall j, j < 2 ->
          let crop := crop_of (demo_fs demo_text)
                        (nth (EmptyString, [::]) (particles (mrc2coords demo_source))
                             (Z.to_nat (nth 0%PZ [:: 2; 0]%PZ j))) in
          converted demo_astype float32 crop = crop -> nth [::] stack j = crop].
Proof.
by apply: (@images_in_requested_order Z demo_astype (demo_fs demo_text) demo_source
             0%PZ None [:: 2; 0]%PZ).
Defined.

(** The source built from a STAR file with one micrograph whose only box
    leaves the micrograph has one particle, so index 0 is valid; [_images]
    raises ValueError on it, since the truncated 2 x 2 crop does not fit the
    4 x 4 slot. On the demo source an empty index list raises ValueError as
    well, from [indices.min()]. And with a first micrograph of mode 0 and a
    second one of mode 1 that holds 311 everywhere, the image of the
    particle of the second micrograph holds 55, not the 311 of the crop: the
    stack is of dtype int8. *)
Lemma images_valid_indices_counterexample :
  (init (FileSystem [:: ("a.mrc"%string, "a.box"%string)]
           (demo_boxes (unlines [:: "4 4 4 4"%string])) demo_mrcs) 0%PZ = Ok edge_source
   /\ (0 <=? 0)%PZ && (0 <? Z.of_nat (n edge_source))%PZ
   /\ images demo_astype (demo_fs (unlines [:: "4 4 4 4"%string])) edge_source
             0%PZ None (Some [:: 0%PZ])
      = Raise ValueError)
  /\ images demo_astype (demo_fs demo_text) demo_source 0%PZ None (Some [::])
     = Raise ValueError
  /\ (init (demo_fs_with mixed_mrcs) 0%PZ = Ok mixed_source
      /\ crop_of (demo_fs_with mixed_mrcs) ("b.mrc"%string, [:: 1; 1; 4; 4]%PZ)
         = nseq 4 (nseq 4 311%PZ)
      /\ images demo_astype (demo_fs_with mixed_mrcs) mixed_source
                0%PZ None (Some [:: 2%PZ])
         = Ok [:: nseq 4 (nseq 4 55%PZ)]).
Proof. by vm_compute. Qed.

(** The full stack of the demo source, its batch [_images(1, 1)] and its
    tail [_images(1)]. *)
Lemma images_batch_is_slice_run :
  images demo_astype (demo_fs demo_text) demo_source 1%PZ (Some 1%PZ) None
    = Ok [:: demo_crop 2 1]
  /\ images demo_astype (demo_fs demo_text) demo_source 1%PZ None None
     = Ok [:: demo_crop 2 1; demo_crop 1 1].
Proof.
by apply: (@images_batch_is_slice Z demo_astype (demo_fs demo_text) demo_source
             demo_stack 1%PZ 1%PZ).
Defined.

Lemma images_concat_run :
  images demo_astype (demo_fs demo_text) demo_source 0%PZ None (Some [:: 2; 0]%PZ)
  = Ok [:: demo_crop 1 1; demo_crop 0 0].
Proof.
by apply: (@images_concat Z demo_astype (demo_fs demo_text) demo_source 0%PZ None
             [:: 2%PZ] [:: 0%PZ] [:: demo_crop 1 1] [:: demo_crop 0 0]).
Defined.

(** The demo source holds three particles: index 3 is out of range. *)
Lemma images_index_out_of_range_run :
  images demo_astype (demo_fs demo_text) demo_source 0%PZ None (Some [:: 0; 3]%PZ)
  = Raise IndexError.
Proof.
by apply: (@images_index_out_of_range Z demo_astype (demo_fs demo_text) demo_source
             0%PZ None [:: 0; 3]%PZ).
Defined.

Lemma images_negative_indices_run :
  images demo_astype (demo_fs demo_text) demo_source 0%PZ None (Some [:: -3; -1]%PZ)
  = images demo_astype (demo_fs demo_text) demo_source 0%PZ None (Some [:: 0; 2]%PZ).
Proof.
by apply: (@images_negative_indices Z demo_astype (demo_fs demo_text) demo_source
             0%PZ None [:: 0; 2]%PZ).
Defined.

(** Particle 12 of "a.mrc", and a path that holds an "@". *)
Lemma particle_id_decoding_run :
  [/\ (num <- getitem (split "@"%char (particle_id 12 "a.mrc")) 0%PZ ;; py_int num)
        = Ok 12%PZ,
      getitem (split "@"%char (particle_id 12 "a.mrc")) 1%PZ = Ok "a.mrc"%string
    & getitem (split "@"%char (particle_id 0 "x@y.mrc")) 1%PZ = Ok "x"%string].
Proof.
have [num plain _] := particle_id_decoding 12 "a.mrc".
have [_ _ cut] := particle_id_decoding 0 "x@y.mrc".
by split; [exact: num | exact: plain | exact: (cut "x"%string "y.mrc"%string erefl isT)].
Defined.

(** With the second micrograph missing, the demo source is built, its first
    two particles load, and the third raises FileNotFoundError. *)
Lemma images_missing_micrograph_run :
  images demo_astype (demo_fs_with first_only) demo_source 0%PZ None (Some [:: 2%PZ])
  = Raise FileNotFoundError.
Proof.
by apply: (@images_missing_micrograph Z demo_astype (demo_fs_with first_only)
             demo_source 0%PZ None 2).
Defined.

(** The box at (1, 5) of the 6 x 6 demo micrograph: the image is four times
    the row [51 52 53 54]. *)
Lemma images_one_row_is_repeated_run :
  images demo_astype (demo_fs demo_text) bottom_source 0%PZ None (Some [:: 0%PZ])
  = Ok [:: nseq 4 [:: 51; 52; 53; 54]%PZ].
Proof.
by apply: (@images_one_row_is_repeated Z demo_astype (demo_fs demo_text) bottom_source
             0%PZ None 0 2%PZ 1%PZ demo_rows [::]).
Defined.

(** The demo source re-cropped to 2 x 2: every image is the window at
    offset (1, 1) of the 4 x 4 image. *)
Lemma images_after_recrop_run :
  exists src stack0,
    [/\ init (demo_fs demo_text) 2%PZ = Ok src,
        images demo_astype (demo_fs demo_text) demo_source 0%PZ None None = Ok stack0
      & images demo_astype (demo_fs demo_text) src 0%PZ None None
        = Ok [seq window img 1 1 2 | img <- stack0]].
Proof.
by apply: (@images_after_recrop Z demo_astype (demo_fs demo_text) demo_source 2%PZ).
Defined.

(** A source whose only particle has no coordinates. *)
Lemma images_particle_without_coordinates_run :
  images demo_astype (demo_fs demo_text)
         (Build_EmanSource [:: ("a.mrc"%string, [:: [::]])] 6 6 4%PZ 1 float32)
         0%PZ None (Some [:: 0%PZ])
  = Raise IndexError.
Proof.
by apply: (@images_particle_without_coordinates Z demo_astype (demo_fs demo_text)
             (Build_EmanSource [:: ("a.mrc"%string, [:: [::]])] 6 6 4%PZ 1 float32)
             0%PZ None 0 (MrcFile 2%PZ (Image2D demo_rows))).
Defined.

End ImagesRuns.

(* --------------------------------------------------------------------- *)
(** ** Block-diagonal algebra, inversion, mean                            *)
(* --------------------------------------------------------------------- *)

Section BlkDiagFacts.
Import BlkDiag.
Variable R : fieldType.
Local Open Scope ring_scope.

Lemma on_blocks_same (op : forall n, 'M[R]_n -> 'M[R]_n -> 'M[R]_n)
    (n : nat) (M N : 'M[R]_n) :
  on_blocks op (mk_block M) (mk_block N) = Done (mk_block (op n M N)).
Proof.
rewrite /on_blocks /=; case: (Nat.eq_dec n n) => // e.
by rewrite castmx_id.
Qed.

Lemma on_blocks_diff (op : forall n, 'M[R]_n -> 'M[R]_n -> 'M[R]_n) (a b : block R) :
  tag a != tag b -> on_blocks op a b = Fail ShapeMismatchError.
Proof.
by rewrite /on_blocks; case: (Nat.eq_dec _ _) => // e /eqP [].
Qed.

Lemma alignedP (A B : blk_diag R) : block_sizes A = block_sizes B -> aligned A B.
Proof.
elim: A B => [|[n M] A IH] [|[m N] B] //=; first by constructor.
case=> eq_nm /IH al; case: _ / eq_nm N => N.
exact: aligned_cons.
Qed.

Lemma blockwise_cons (op : forall n, 'M[R]_n -> 'M[R]_n -> 'M[R]_n)
    (n : nat) (M N : 'M[R]_n) (A B : blk_diag R) :
  blockwise op (mk_block M :: A) (mk_block N :: B) =
  and_then (blockwise op A B) (fun C => Done (mk_block (op n M N) :: C)).
Proof. by rewrite /= on_blocks_same. Qed.

Lemma blockwise_ok (op : forall n, 'M[R]_n -> 'M[R]_n -> 'M[R]_n) (A B : blk_diag R) :
  block_sizes A = block_sizes B ->
  exists2 C, blockwise op A B = Done C & block_sizes C = block_sizes A.
Proof.
move=> /alignedP; elim=> [|n M N {}A {}B _ [C E sz_C]]; first by exists [::].
by exists (mk_block (op n M N) :: C); rewrite ?blockwise_cons ?E //= sz_C.
Qed.

Lemma blockwise_mismatch (op : forall n, 'M[R]_n -> 'M[R]_n -> 'M[R]_n) (A B : blk_diag R) :
  block_sizes A != block_sizes B -> blockwise op A B = Fail ShapeMismatchError.
Proof.
elim: A B => [|a A IH] [|b B] //=.
rewrite eqseq_cons negb_and; case: (eqVneq (tag a) (tag b)) => [e|ne] /=.
  move=> /IH ->; rewrite /on_blocks.
  by case: (Nat.eq_dec _ _).
by rewrite on_blocks_diff.
Qed.

Lemma blockwise_comm (op : forall n, 'M[R]_n -> 'M[R]_n -> 'M[R]_n) (A B : blk_diag R) :
  (forall n (M N : 'M[R]_n), op n M N = op n N M) ->
  block_sizes A = block_sizes B -> blockwise op A B = blockwise op B A.
Proof.
move=> opC /alignedP; elim=> [|n M N {}A {}B _ IH] //.
by rewrite !blockwise_cons IH opC.
Qed.

Lemma blockwise_assoc (op : forall n, 'M[R]_n -> 'M[R]_n -> 'M[R]_n) (A B C : blk_diag R) :
  (forall n (M N P : 'M[R]_n), op n (op n M N) P = op n M (op n N P)) ->
  block_sizes A = block_sizes B -> block_sizes B = block_sizes C ->
  and_then (blockwise op A B) (fun AB => blockwise op AB C) =
  and_then (blockwise op B C) (fun BC => blockwise op A BC).
Proof.
move=> opA; elim: A B C => [|[n M] A IH] [|[m N] B] [|[p P] C] //= [e1 sz1] [e2 sz2].
subst m p; rewrite !on_blocks_same /=.
have [AB E_AB sz_AB] := blockwise_ok op sz1.
have [BC E_BC sz_BC] := blockwise_ok op sz2.
move: (IH _ _ sz1 sz2); rewrite E_AB E_BC /= !on_blocks_same /= => ->.
by rewrite opA.
Qed.

(** C6. For block-diagonal matrices [A], [B], [C] with one block-size
    sequence: [add] and [multiply] return a matrix with that block-size
    sequence; [add] is commutative; [add] and [multiply] are associative.
    Entries are exact (a field), so the laws hold as equalities. *)
Theorem blk_diag_add_mult_laws (A B C : blk_diag R) :
  block_sizes A = block_sizes B -> block_sizes B = block_sizes C ->
  [/\ exists2 S, blk_diag_add A B = Done S & block_sizes S = block_sizes A,
      exists2 P, blk_diag_mult A B = Done P & block_sizes P = block_sizes A,
      blk_diag_add A B = blk_diag_add B A,
      and_then (blk_diag_add A B) (fun AB => blk_diag_add AB C) =
      and_then (blk_diag_add B C) (fun BC => blk_diag_add A BC)
    & and_then (blk_diag_mult A B) (fun AB => blk_diag_mult AB C) =
      and_then (blk_diag_mult B C) (fun BC => blk_diag_mult A BC)].
Proof.
move=> szAB szBC; split.
- exact: blockwise_ok.
- exact: blockwise_ok.
- by apply: blockwise_comm => // n M N; rewrite addrC.
- by apply: blockwise_assoc => // n M N P; rewrite addrA.
- by apply: blockwise_assoc => // n M N P; rewrite mulmxA.
Qed.







Lemma size_get_mean (sizes : seq nat) (coeffs : seq (seq R)) :
  size (get_mean sizes coeffs) = size coeffs.
Proof. by rewrite /get_mean size_map size_iota. Qed.

(** C3. [get_mean] returns one component per coefficient; a component of the
    zero angular-frequency block is the arithmetic mean, over the images, of
    that coefficient, and every other component is zero. *)
Theorem get_mean_components (sizes : seq nat) (coeffs : seq (seq R)) (k : nat) :
  size (get_mean sizes coeffs) = size coeffs
  /\ nth 0 (get_mean sizes coeffs) k =
     if (k < size coeffs)%N && (k < head 0 sizes)%N
     then (\sum_(x <- nth [::] coeffs k) x) / (size (nth [::] coeffs k))%:R
     else 0.
Proof.
split; first exact: size_get_mean.
case: (ltnP k (size coeffs)) => [lt_k|le_k] /=; last first.
  by rewrite nth_default // size_get_mean.
by rewrite /get_mean (nth_map 0%N) ?size_iota // nth_iota // add0n.
Qed.

End BlkDiagFacts.

(* --------------------------------------------------------------------- *)
(** ** The Wiener gain                                                    *)
(* --------------------------------------------------------------------- *)

Section EntryNormFacts.
Import BlkDiag.
Variable R : realFieldType.
Local Open Scope ring_scope.










End EntryNormFacts.

Section WienerFacts.
Import BlkDiag.
Variable R : realFieldType.
Variable n : nat.
Local Open Scope ring_scope.







(** [get_cwf_coeffs] is the block estimate, image by image and block by
    block, with the filter of the image's group. *)
Lemma get_cwf_coeffs_blockwise (sizes : seq nat) (K : nat)
    (coeffs : seq (blk_vec R sizes)) (filters_fb : K.-tuple (blk_mx R sizes))
    (group_idx : seq 'I_K) (mean : blk_vec R sizes) (covar : blk_mx R sizes)
    (noise_var : R) (c0 : blk_vec R sizes) (g0 : 'I_K) (j k : nat) :
  size coeffs = size group_idx -> (j < size coeffs)%N ->
  nth (fun _ => Fail ShapeMismatchError)
      (get_cwf_coeffs coeffs filters_fb group_idx mean covar noise_var) j k =
  cwf_block (tnth filters_fb (nth g0 group_idx j) k) (covar k) (mean k)
            noise_var (nth c0 coeffs j k).
Proof.
move=> eq_size lt_j; rewrite /get_cwf_coeffs.
by rewrite (nth_map (c0, g0)) ?size_zip -?eq_size ?minnn // nth_zip.
Qed.

End WienerFacts.

Section BlkDiagRuns.
Import BlkDiag.
Local Open Scope ring_scope.




(** Three block-diagonal matrices over the block sizes (1, 2): sums and
    products keep the sizes, and the laws hold. *)
Lemma blk_diag_add_mult_laws_run :
  let A : blk_diag rat := [:: mk_block (1%:M : 'M[rat]_1); mk_block (1%:M : 'M[rat]_2)] in
  let B : blk_diag rat := [:: mk_block (0 : 'M[rat]_1); mk_block (1%:M : 'M[rat]_2)] in
  let C : blk_diag rat := [:: mk_block (1%:M : 'M[rat]_1); mk_block (0 : 'M[rat]_2)] in
  [/\ exists2 S, blk_diag_add A B = Done S & block_sizes S = block_sizes A,
      exists2 P, blk_diag_mult A B = Done P & block_sizes P = block_sizes A,
      blk_diag_add A B = blk_diag_add B A,
      and_then (blk_diag_add A B) (fun AB => blk_diag_add AB C) =
      and_then (blk_diag_add B C) (fun BC => blk_diag_add A BC)
    & and_then (blk_diag_mult A B) (fun AB => blk_diag_mult AB C) =
      and_then (blk_diag_mult B C) (fun BC => blk_diag_mult A BC)].
Proof.
exact: (@blk_diag_add_mult_laws rat
          [:: mk_block (1%:M : 'M[rat]_1); mk_block (1%:M : 'M[rat]_2)]
          [:: mk_block (0 : 'M[rat]_1); mk_block (1%:M : 'M[rat]_2)]
          [:: mk_block (1%:M : 'M[rat]_1); mk_block (0 : 'M[rat]_2)] erefl erefl).
Defined.



End BlkDiagRuns.

